(** * ODAG link creator: a shallow embedding of [odag-link-creator.js]

    The development follows the class [ODAGLinkCreator]: JSON values as the
    code manipulates them, the instance constructor and its anti-forgery
    key, the REST operations over [axios], the engine session driven over a
    [ws] socket, and the orchestrating method [createCompleteODAGLink].

    Remote systems are an explicit [World]: a deterministic function of the
    history of exchanges so far.  Every method returns its result together
    with the exchanges it performed, so that statements of the form "no
    call is issued" are statements about that list. *)

From Stdlib Require Import ZArith QArith Qround Qpower Qabs Lqa Ascii String List Lia.
From stdpp Require Import base list strings gmap pretty.

Set Warnings "-register-all".
Local Open Scope string_scope.
Local Open Scope Z_scope.

(** ** JSON values and the JavaScript operators the code applies to them *)

(** Values that flow through the program: request bodies parsed by
    [express.json()], response bodies decoded by [axios], frames decoded by
    [JSON.parse], and [undefined] for an absent property.  Numbers are the
    integer-valued ones (status codes, correlation ids, handles, bounds). *)
Inductive JsVal : Type :=
| JUndefined
| JNull
| JBool (b : bool)
| JNum (n : Z)
| JStr (s : string)
| JArr (items : list JsVal)
| JObj (fields : list (string * JsVal)).

(** An [Error] object: the two properties the code reads in its [catch]
    blocks.  [response] is what [axios] attaches when the server answered
    with a status it rejects: the status and the decoded body. *)
Record JsError : Type := mkJsError {
  message : string;
  response : option (Z * JsVal)
}.

(** [new Error(msg)] *)
Definition Error (msg : string) : JsError := mkJsError msg None.

(** Completion of an awaited computation: a value, a thrown error, or a
    promise that never settles. *)
Inductive Result (A : Type) : Type :=
| Ok (a : A)
| Throw (e : JsError)
| Hang.
Arguments Ok {A} a.
Arguments Throw {A} e.
Arguments Hang {A}.

(** ToBoolean *)
Definition truthy (v : JsVal) : bool :=
  match v with
  | JUndefined | JNull => false
  | JBool b => b
  | JNum n => negb (n =? 0)
  | JStr s => negb (String.eqb s "")
  | JArr _ | JObj _ => true
  end.

Definition nullish (v : JsVal) : bool :=
  match v with
  | JUndefined | JNull => true
  | _ => false
  end.

(** [a || b] and [a && b] on values *)
Definition js_or (a b : JsVal) : JsVal := if truthy a then a else b.
Definition js_and (a b : JsVal) : JsVal := if truthy a then b else a.

(** Property lookup in an object: the first binding of the key, [undefined]
    when there is none. *)
Fixpoint assoc (k : string) (fs : list (string * JsVal)) : JsVal :=
  match fs with
  | [] => JUndefined
  | (k', v) :: rest => if String.eqb k k' then v else assoc k rest
  end.

(** [v.k] on a value that is known not to be [null] or [undefined].  The
    property names of the program are not defined on strings, numbers,
    booleans or arrays, where the access yields [undefined]. *)
Definition field (v : JsVal) (k : string) : JsVal :=
  match v with
  | JObj fs => assoc k fs
  | _ => JUndefined
  end.

(** The message of the [TypeError] raised by V8 for [v.k] on a nullish [v]. *)
Definition type_error (v : JsVal) (k : string) : JsError :=
  Error ("Cannot read properties of "
         ++ (match v with JNull => "null" | _ => "undefined" end)
         ++ " (reading '" ++ k ++ "')").

(** [v.k] in general *)
Definition get (v : JsVal) (k : string) : Result JsVal :=
  if nullish v then Throw (type_error v k) else Ok (field v k).

(** [v?.k] *)
Definition opt_get (v : JsVal) (k : string) : JsVal :=
  if nullish v then JUndefined else field v k.

(** String conversion as performed by a template literal [`${v}`]. *)
Fixpoint js_to_string (v : JsVal) : string :=
  match v with
  | JUndefined => "undefined"
  | JNull => "null"
  | JBool true => "true"
  | JBool false => "false"
  | JNum n => pretty n
  | JStr s => s
  | JArr items =>
      let elt x := match x with
                   | JUndefined | JNull => ""
                   | _ => js_to_string x
                   end in
      (fix join (l : list JsVal) : string :=
         match l with
         | [] => ""
         | [x] => elt x
         | x :: rest => elt x ++ "," ++ join rest
         end) items
  | JObj _ => "[object Object]"
  end.

Example js_to_string_num : js_to_string (JNum (-1)) = "-1".
Proof. reflexivity. Qed.

Example js_to_string_arr :
  js_to_string (JArr [JNum 404; JNull; JStr "a"; JArr [JNum 1; JNum 2]]) = "404,,a,1,2".
Proof. reflexivity. Qed.

(** ** Sequencing of fallible steps *)

#[global] Instance Result_ret : MRet Result := fun _ a => Ok a.
#[global] Instance Result_bind : MBind Result := fun _ _ f r =>
  match r with
  | Ok a => f a
  | Throw e => Throw e
  | Hang => Hang
  end.

(** ** The instance and its constructor *)

(** [new https.Agent({...})] *)
Record Agent : Type := mkAgent {
  cert : string;
  key : string;
  ca : string;
  rejectUnauthorized : bool;
  keepAlive : bool;
  maxSockets : Z
}.

(** [this.axiosConfig] *)
Record AxiosConfig : Type := mkAxiosConfig {
  cfg_httpsAgent : Agent;
  headers : list (string * string);
  timeout : Z
}.

(** The fields of [this].  Only [authenticated] is ever assigned after the
    constructor has run. *)
Record ODAGLinkCreator : Type := mkODAGLinkCreator {
  config : list (string * JsVal);
  httpsAgent : Agent;
  xrfKey : string;
  axiosConfig : AxiosConfig;
  authenticated : bool
}.

Definition set_authenticated (b : bool) (this : ODAGLinkCreator) : ODAGLinkCreator :=
  mkODAGLinkCreator (config this) (httpsAgent this) (xrfKey this) (axiosConfig this) b.

(** ** Numbers

    The numbers of the language are the binary64 values.  Status codes,
    ids, handles and bounds are small integers, which binary64 holds
    exactly.  Where the program multiplies a fraction, or reads digits of
    any length, the result is the binary64 value nearest to the exact one,
    ties to even. *)

(** The exponent [l] with [2^l <= q < 2^(l+1)], for [q > 0]. *)
Definition floor_log2 (q : Q) : Z :=
  let n := Z.log2 (Qnum q) - Z.log2 (Zpos (Qden q)) in
  if Qle_bool (2 ^ n) q then n else n - 1.

(** The nearest integer, ties to even. *)
Definition round_half_even (x : Q) : Z :=
  let f := Qfloor x in
  match (x - inject_Z f ?= 1 # 2)%Q with
  | Lt => f
  | Gt => f + 1
  | Eq => if Z.even f then f else f + 1
  end.

(** The binary64 value nearest to [q > 0]: 53 significant bits, and no
    exponent below that of the subnormal numbers.  (The result may be
    [2^1024], which stands for a value that is too large: [to_number]
    below turns it into [Infinity].) *)
Definition round64_pos (q : Q) : Q :=
  let e := Z.max (floor_log2 q - 52) (-1074) in
  (inject_Z (round_half_even (q / 2 ^ e)) * 2 ^ e)%Q.

Definition round64 (q : Q) : Q :=
  match Qnum q with
  | Z0 => 0
  | Zpos _ => round64_pos q
  | Zneg _ => - round64_pos (- q)
  end.

(** The finite binary64 values. *)
Definition binary64 (q : Q) : Prop :=
  ∃ m e : Z, Z.abs m < 2 ^ 53 ∧ -1074 ≤ e ≤ 971 ∧ (q == inject_Z m * 2 ^ e)%Q.

(** A result of [Math.random()]: a binary64 value from 0 (included) to 1
    (excluded). *)
Definition is_draw (r : Q) : Prop :=
  binary64 r ∧ (0 <= r)%Q ∧ (r < 1)%Q.

(** [NaN], the two infinities, and the finite numbers, which are integers
    wherever the program computes with this type. *)
Inductive Number : Type :=
| NaN
| Infinity (negative : bool)
| Num (n : Z).

(** The Number value for a mathematical integer. *)
Definition to_number (n : Z) : Number :=
  let r := round64 (inject_Z n) in
  if Qle_bool (2 ^ 1024) (Qabs r) then Infinity (n <? 0) else Num (Qfloor r).

(** [a * b] *)
Definition number_mul (a b : Number) : Number :=
  match a, b with
  | NaN, _ | _, NaN => NaN
  | Num x, Num y => to_number (x * y)
  | Infinity s, Num y | Num y, Infinity s =>
      if y =? 0 then NaN else Infinity (xorb s (y <? 0))
  | Infinity s, Infinity t => Infinity (xorb s t)
  end.

(** [s.charAt(i)]: the empty string outside the string. *)
Definition charAt (s : string) (i : Z) : string :=
  if (0 <=? i) && (i <? Z.of_nat (String.length s))
  then substring (Z.to_nat i) 1 s
  else "".

Definition chars : string :=
  "abcdefghijklmnopqrstuvwxyzABCDEFGHIJKLMNOPQRSTUVWXYZ0123456789".

(** [generateXrfKey]: sixteen draws of [Math.random()], the [i]-th of which
    is [random i]; in [Math.floor(r * chars.length)] the product is the
    binary64 value nearest to the exact one.  [loop n i result] is the
    state of the [for] loop with [n] iterations left. *)
Fixpoint generateXrfKey_loop (random : nat -> Q) (n i : nat) (result : string) : string :=
  match n with
  | O => result
  | S n' =>
      generateXrfKey_loop random n' (S i)
        (result ++ charAt chars
                     (Qfloor (round64 (random i * inject_Z (Z.of_nat (String.length chars))))))
  end.

Definition generateXrfKey (random : nat -> Q) : string :=
  generateXrfKey_loop random 16 0 "".

(** The own properties copied by the spread [...config]: those of an
    object.  (The index keys that a string or an array would add are never
    read by the program.) *)
Definition spread (v : JsVal) : list (string * JsVal) :=
  match v with
  | JObj fs => fs
  | _ => []
  end.

(** [`UserDirectory=${this.config.userDirectory}; UserId=${this.config.userId}`] *)
Definition qlik_user (cfg : list (string * JsVal)) : string :=
  "UserDirectory=" ++ js_to_string (assoc "userDirectory" cfg)
  ++ "; UserId=" ++ js_to_string (assoc "userId" cfg).

(** [constructor(config)].  [readFileSync] stands for [fs.readFileSync]
    and [random] for [Math.random].  The spread comes last in the object
    literal, so a key present in [config] wins over its default. *)
Definition constructor (readFileSync : string -> Result string) (random : nat -> Q)
    (config : JsVal) : Result ODAGLinkCreator :=
  qlikHost ← get config "qlikHost";
  let d k v := (k, js_or (field config k) v) in
  let this_config :=
    (spread config ++
     [ ("qlikHost", js_or qlikHost (JStr "localhost"));
       d "qrsPort" (JNum 4242);
       d "enginePort" (JNum 4747);
       d "odagPort" (JNum 9098);
       d "certsPath" (JStr "C:/certs");
       d "userDirectory" (JStr "win-7cu4ono2k4r");
       d "userId" (JStr "qlik_svc");
       d "virtualProxy" (JStr "") ])%list in
  let certsPath := js_to_string (assoc "certsPath" this_config) in
  cert ← readFileSync (certsPath ++ "/client.pem");
  key ← readFileSync (certsPath ++ "/client_key.pem");
  ca ← readFileSync (certsPath ++ "/root.pem");
  let agent := mkAgent cert key ca true true 50 in
  let xrf := generateXrfKey random in
  mret (mkODAGLinkCreator this_config agent xrf
          (mkAxiosConfig agent
             [ ("X-Qlik-Xrfkey", xrf);
               ("X-Qlik-User", qlik_user this_config);
               ("Content-Type", "application/json") ]
             30000)
          false).

(** ** The remote world *)

Inductive Method : Type := GET | POST.

(** One [axios] request as it leaves the process. *)
Record HttpCall : Type := mkHttpCall {
  method : Method;
  url : string;
  body : JsVal;
  call_config : AxiosConfig
}.

(** [response.status] and [response.data] *)
Record AxResponse : Type := mkAxResponse {
  status : Z;
  data : JsVal
}.

(** The promise returned by [axios.get] / [axios.post] either resolves with
    a response or rejects with an error, which carries [response] when the
    server answered.  Requests have a timeout, so the promise settles. *)
Inductive AxOutcome : Type :=
| AxResolved (r : AxResponse)
| AxRejected (e : JsError).

(** [new WebSocket(wsUrl, {headers, agent, handshakeTimeout})] *)
Record WsConnect : Type := mkWsConnect {
  wsUrl : string;
  ws_headers : list (string * string);
  ws_agent : Agent;
  handshakeTimeout : Z
}.

(** What the [JSON.parse] of an inbound frame yields: a value, or a
    [SyntaxError] with its message. *)
Inductive Frame : Type :=
| Malformed (syntaxError : string)
| Parsed (v : JsVal).

(** The events an engine socket delivers to the handlers registered on it,
    and the expiry of the connection timer. *)
Inductive WsEvent : Type :=
| EvOpen
| EvMessage (f : Frame)
| EvError (msg : string)
| EvClose (code : Z) (reason : string)
| EvTimeout.

(** The statement of the program that issued a request. *)
Inductive CallSite : Type :=
| SiteAuthenticate
| SiteValidateApp (appId : JsVal)
| SiteCreateLink
| SiteTestConnection.

(** One exchange with the remote systems, with what came back: a request
    and its answer, or a socket opened by [addNavigationLinkToApp] for an
    application and a link, and the events it delivered. *)
Inductive LogEntry : Type :=
| LHttp (site : CallSite) (c : HttpCall) (o : AxOutcome)
| LWs (selectionAppId odagLinkId : JsVal) (c : WsConnect) (script : list WsEvent).

(** The remote systems: given everything exchanged so far, the answer to
    the next request, and the events delivered on a new socket. *)
Record World : Type := mkWorld {
  http : list LogEntry -> HttpCall -> AxOutcome;
  ws : list LogEntry -> WsConnect -> list WsEvent
}.

(** ** The engine session of [addNavigationLinkToApp]

    The closure state of one call ([requestId], [requests], [appHandle], the
    connection timer, the promise) and the part of the socket the handlers
    depend on.  The socket follows [ws] 8, the version the deployment guide
    pins: [send] raises while the socket is connecting, transmits while it is
    open, and drops the data without raising once closing has started;
    [close()] is called without a code. *)

Inductive ReqKind : Type := openApp | createObject | save.

Inductive ReadyState : Type := CONNECTING | OPEN | CLOSING | CLOSED.

Inductive PromiseState : Type :=
| Pending
| Resolved (v : string)
| Rejected (e : JsError).

Record Session : Type := mkSession {
  requestId : Z;
  requests : gmap Z ReqKind;
  appHandle : JsVal;
  timer : bool;
  readyState : ReadyState;
  promise : PromiseState;
  sent : list JsVal;
  closeCalls : list (option Z)
}.

(** [new Promise(...)] up to the registration of the handlers *)
Definition session_init : Session :=
  mkSession 1 ∅ JNull true CONNECTING Pending [] [].

(** [clearTimeout(connectionTimeout)] *)
Definition clearTimeout (s : Session) : Session :=
  mkSession (requestId s) (requests s) (appHandle s) false (readyState s) (promise s)
            (sent s) (closeCalls s).

(** [ws.close()]: no code is passed. *)
Definition ws_close (s : Session) : Session :=
  mkSession (requestId s) (requests s) (appHandle s) (timer s)
            (match readyState s with
             | CONNECTING | OPEN => CLOSING
             | r => r
             end)
            (promise s) (sent s) (closeCalls s ++ [None])%list.

(** [resolve(v)] and [reject(e)]: only the first settlement counts. *)
Definition resolve (s : Session) (v : string) : Session :=
  mkSession (requestId s) (requests s) (appHandle s) (timer s) (readyState s)
            (match promise s with Pending => Resolved v | p => p end)
            (sent s) (closeCalls s).

Definition reject (s : Session) (e : JsError) : Session :=
  mkSession (requestId s) (requests s) (appHandle s) (timer s) (readyState s)
            (match promise s with Pending => Rejected e | p => p end)
            (sent s) (closeCalls s).

(** [requests.set(requestId, kind)] *)
Definition requests_set (s : Session) (kind : ReqKind) : Session :=
  mkSession (requestId s) (<[requestId s := kind]> (requests s)) (appHandle s) (timer s)
            (readyState s) (promise s) (sent s) (closeCalls s).

(** [requests.get(id)]: the keys are numbers, so only a number can match. *)
Definition requests_get (s : Session) (id : JsVal) : option ReqKind :=
  match id with
  | JNum n => requests s !! n
  | _ => None
  end.

(** [requestId++] *)
Definition requestId_incr (s : Session) : Session :=
  mkSession (requestId s + 1) (requests s) (appHandle s) (timer s) (readyState s)
            (promise s) (sent s) (closeCalls s).

Definition set_appHandle (s : Session) (h : JsVal) : Session :=
  mkSession (requestId s) (requests s) h (timer s) (readyState s) (promise s)
            (sent s) (closeCalls s).

Definition set_readyState (s : Session) (r : ReadyState) : Session :=
  mkSession (requestId s) (requests s) (appHandle s) (timer s) r (promise s)
            (sent s) (closeCalls s).

(** [ws.send(JSON.stringify(frame))]: the session afterwards, and the error
    raised if any.  [sent] keeps the frame as the object that is serialized. *)
Definition ws_send (s : Session) (frame : JsVal) : Session * option JsError :=
  match readyState s with
  | CONNECTING => (s, Some (Error "WebSocket is not open: readyState 0 (CONNECTING)"))
  | OPEN =>
      (mkSession (requestId s) (requests s) (appHandle s) (timer s) (readyState s)
                 (promise s) (sent s ++ [frame])%list (closeCalls s), None)
  | CLOSING | CLOSED => (s, None)
  end.

Definition openAppRequest (selectionAppId : JsVal) (id : Z) : JsVal :=
  JObj [ ("handle", JNum (-1));
         ("method", JStr "OpenDoc");
         ("params", JArr [selectionAppId]);
         ("jsonrpc", JStr "2.0");
         ("id", JNum id) ].

Definition createObjectRequest (appHandle odagLinkId : JsVal) (id : Z) : JsVal :=
  JObj [ ("handle", appHandle);
         ("method", JStr "CreateObject");
         ("params",
          JObj [ ("qProp",
                  JObj [ ("qInfo", JObj [ ("qType", JStr "odagapplink") ]);
                         ("qMetaDef", JObj [ ("odagLinkRef", odagLinkId) ]) ]) ]);
         ("jsonrpc", JStr "2.0");
         ("id", JNum id) ].

Definition saveRequest (appHandle : JsVal) (id : Z) : JsVal :=
  JObj [ ("handle", appHandle);
         ("method", JStr "DoSave");
         ("params", JArr []);
         ("jsonrpc", JStr "2.0");
         ("id", JNum id) ].

Section Handlers.

Variables selectionAppId odagLinkId : JsVal.

(** [requests.set(requestId, kind); ws.send(...); requestId++], the tail of
    the three sending steps; an error raised by [send] skips the increment. *)
Definition send_request (s : Session) (kind : ReqKind) (frame : Z -> JsVal)
    : Session * option JsError :=
  let s1 := requests_set s kind in
  match ws_send s1 (frame (requestId s1)) with
  | (s2, None) => (requestId_incr s2, None)
  | (s2, Some e) => (s2, Some e)
  end.

(** [ws.on('open', ...)] *)
Definition on_open (s : Session) : Session :=
  fst (send_request (clearTimeout s) openApp (openAppRequest selectionAppId)).

(** The [catch] block of the message handler *)
Definition on_message_catch (s : Session) (error : JsError) : Session :=
  reject (ws_close s)
         (Error ("Failed to parse WebSocket response: " ++ message error)).

(** [ws.on('message', ...)] *)
Definition on_message (s : Session) (f : Frame) : Session :=
  match f with
  | Malformed m => on_message_catch s (Error m)
  | Parsed response =>
      if nullish response then on_message_catch s (type_error response "id")
      else
        let requestType := requests_get s (field response "id") in
        if truthy (field response "error") then
          reject (ws_close s)
                 (Error ("WebSocket error: "
                         ++ js_to_string (field (field response "error") "message")))
        else
          match requestType with
          | Some openApp =>
              let result := field response "result" in
              if nullish result then on_message_catch s (type_error result "qReturn")
              else
                let qReturn := field result "qReturn" in
                if nullish qReturn then on_message_catch s (type_error qReturn "qHandle")
                else
                  let s1 := set_appHandle s (field qReturn "qHandle") in
                  match send_request s1 createObject
                          (createObjectRequest (appHandle s1) odagLinkId) with
                  | (s2, None) => s2
                  | (s2, Some e) => on_message_catch s2 e
                  end
          | Some createObject =>
              match send_request s save (saveRequest (appHandle s)) with
              | (s2, None) => s2
              | (s2, Some e) => on_message_catch s2 e
              end
          | Some save =>
              resolve (ws_close s) "ODAG app link created and app saved"
          | None => s
          end
  end.

(** [ws.on('error', ...)] *)
Definition on_error (s : Session) (msg : string) : Session :=
  reject (clearTimeout s) (Error ("WebSocket error: " ++ msg)).

(** [ws.on('close', ...)] *)
Definition on_close (s : Session) (code : Z) (reason : string) : Session :=
  let s1 := clearTimeout s in
  if negb (code =? 1000) then
    reject s1 (Error ("WebSocket closed with code " ++ js_to_string (JNum code)
                      ++ ": " ++ reason))
  else s1.

(** The callback of [setTimeout(..., 15000)] *)
Definition on_timeout (s : Session) : Session :=
  reject (ws_close s) (Error "WebSocket connection timeout").

(** One event: the socket updates its state, then the handler runs.  The
    timer fires at most once, and only while it has not been cleared. *)
Definition deliver (s : Session) (ev : WsEvent) : Session :=
  match ev with
  | EvOpen =>
      on_open (match readyState s with
               | CONNECTING => set_readyState s OPEN
               | _ => s
               end)
  | EvMessage f => on_message s f
  | EvError msg => on_error s msg
  | EvClose code reason => on_close (set_readyState s CLOSED) code reason
  | EvTimeout => if timer s then on_timeout (clearTimeout s) else s
  end.

Definition run_from (s : Session) (script : list WsEvent) : Session :=
  fold_left deliver script s.

Definition run_session (script : list WsEvent) : Session :=
  run_from session_init script.

End Handlers.

(** ** Methods as computations over the instance and the world

    A method reads the history of exchanges, may assign [this.authenticated],
    and yields its completion together with the exchanges it performed, in
    order. *)

Definition M (A : Type) : Type :=
  list LogEntry -> ODAGLinkCreator -> Result A * ODAGLinkCreator * list LogEntry.

#[global] Instance M_ret : MRet M := fun _ a _ this => (Ok a, this, []).

#[global] Instance M_bind : MBind M := fun _ _ f m h this =>
  match m h this with
  | (Ok a, this1, l1) =>
      match f a (h ++ l1)%list this1 with
      | (r, this2, l2) => (r, this2, (l1 ++ l2)%list)
      end
  | (Throw e, this1, l1) => (Throw e, this1, l1)
  | (Hang, this1, l1) => (Hang, this1, l1)
  end.

(** [throw e] *)
Definition throw {A : Type} (e : JsError) : M A := fun _ this => (Throw e, this, []).

(** [try { m } catch (error) { handler error }] *)
Definition try_catch {A : Type} (m : M A) (handler : JsError -> M A) : M A :=
  fun h this =>
    match m h this with
    | (Throw e, this1, l1) =>
        match handler e (h ++ l1)%list this1 with
        | (r, this2, l2) => (r, this2, (l1 ++ l2)%list)
        end
    | other => other
    end.

(** An expression that may raise, evaluated in place. *)
Definition eval {A : Type} (r : Result A) : M A := fun _ this => (r, this, []).

Definition get_this : M ODAGLinkCreator := fun _ this => (Ok this, this, []).

Definition assign_authenticated (b : bool) : M unit :=
  fun _ this => (Ok tt, set_authenticated b this, []).

(** The base address of the repository service, as both [authenticate] and
    [validateAppId] compute it. *)
Definition baseUrl (cfg : list (string * JsVal)) : string :=
  if truthy (assoc "virtualProxy" cfg)
  then "https://" ++ js_to_string (assoc "qlikHost" cfg) ++ ":"
       ++ js_to_string (assoc "qrsPort" cfg) ++ "/" ++ js_to_string (assoc "virtualProxy" cfg)
  else "https://" ++ js_to_string (assoc "qlikHost" cfg) ++ ":"
       ++ js_to_string (assoc "qrsPort" cfg).

(** [`https://${host}:${odagPort}/v1/links?xrfkey=${xrfKey}`] *)
Definition linksUrl (this : ODAGLinkCreator) : string :=
  "https://" ++ js_to_string (assoc "qlikHost" (config this)) ++ ":"
  ++ js_to_string (assoc "odagPort" (config this)) ++ "/v1/links?xrfkey=" ++ xrfKey this.

Section Methods.

Variable w : World.

(** [await axios.get(url, this.axiosConfig)] and
    [await axios.post(url, body, this.axiosConfig)], issued at [site]. *)
Definition axios (site : CallSite) (m : Method) (url : string) (body : JsVal) : M AxResponse :=
  fun h this =>
    let c := mkHttpCall m url body (axiosConfig this) in
    let o := http w h c in
    (match o with
     | AxResolved r => Ok r
     | AxRejected e => Throw e
     end, this, [LHttp site c o]).

(** [authenticate()]: resolves to [true] on status 200 and to [undefined] on
    any other resolved status, in which case [authenticated] is left as it
    was.  The argument of the second [console.log] reads
    [authResponse.data.buildVersion]. *)
Definition authenticate : M JsVal :=
  try_catch
    (this ← get_this;
     let authUrl := baseUrl (config this) ++ "/qrs/about?xrfkey=" ++ xrfKey this in
     authResponse ← axios SiteAuthenticate GET authUrl JUndefined;
     if status authResponse =? 200 then
       _ ← eval (get (data authResponse) "buildVersion");
       _ ← assign_authenticated true;
       mret (JBool true)
     else mret JUndefined)
    (fun error => throw (Error ("Authentication failed: " ++ message error))).

(** [ensureAuthenticated()] *)
Definition ensureAuthenticated : M unit :=
  this ← get_this;
  if negb (authenticated this) then _ ← authenticate; mret tt else mret tt.

(** [validateAppId(appId)] *)
Definition validateAppId (appId : JsVal) : M JsVal :=
  try_catch
    (_ ← ensureAuthenticated;
     this ← get_this;
     let url := baseUrl (config this) ++ "/qrs/app/" ++ js_to_string appId
                ++ "?xrfkey=" ++ xrfKey this in
     response ← axios (SiteValidateApp appId) GET url JUndefined;
     if truthy (js_and (data response) (field (data response) "id")) then
       mret (JObj [ ("valid", JBool true);
                    ("name", field (data response) "name");
                    ("id", field (data response) "id");
                    ("published", field (data response) "published") ])
     else throw (Error ("App not found: " ++ js_to_string appId)))
    (fun error =>
       match response error with
       | Some (st, _) =>
           if st =? 404 then
             mret (JObj [ ("valid", JBool false);
                          ("error", JStr ("App ID not found: " ++ js_to_string appId)) ])
           else throw (Error ("Failed to validate app ID " ++ js_to_string appId
                              ++ ": " ++ message error))
       | None => throw (Error ("Failed to validate app ID " ++ js_to_string appId
                               ++ ": " ++ message error))
       end).

(** The three policy blocks of the payload when [linkConfig] leaves them out. *)
Definition default_rowEstRange : JsVal :=
  JArr [ JObj [ ("context", JStr "User_*"); ("lowBound", JNum 1); ("highBound", JNum 500000) ] ].

Definition default_appRetentionTime : JsVal :=
  JArr [ JObj [ ("context", JStr "User_*"); ("minutes", JNum 10080) ] ].

Definition default_genAppName (name : JsVal) : JsVal :=
  JArr [ JObj [ ("context", JStr "User_*");
                ("formatString", JStr (js_to_string name ++ " - $(user.name) - $(=Now())")) ] ].

(** [odagPayload], for a [linkConfig] that is not nullish. *)
Definition odagPayload (linkConfig : JsVal) : JsVal :=
  JObj [ ("name", field linkConfig "name");
         ("selectionApp", field linkConfig "selectionAppId");
         ("templateApp", field linkConfig "templateAppId");
         ("rowEstExpr", field linkConfig "rowEstExpr");
         ("properties",
          JObj [ ("rowEstRange", js_or (field linkConfig "rowEstRange") default_rowEstRange);
                 ("appRetentionTime",
                  js_or (field linkConfig "appRetentionTime") default_appRetentionTime);
                 ("genAppName",
                  js_or (field linkConfig "genAppName")
                        (default_genAppName (field linkConfig "name"))) ]) ].

(** The [switch (status)] of the [catch] block of [createODAGLink]. *)
Definition link_error_message (status : Z) (data : JsVal) (error_message : string) : string :=
  if status =? 400 then
    "Bad Request: " ++ js_to_string (js_or (opt_get data "message") (JStr "Invalid ODAG configuration"))
  else if status =? 401 then "Unauthorized: Please check your authentication credentials"
  else if status =? 403 then "Forbidden: User may not have ODAG permissions"
  else if status =? 404 then "Not Found: ODAG service may not be running on port 9098"
  else if status =? 405 then "Method Not Allowed: Check ODAG service configuration and URL path"
  else if status =? 500 then
    "Server Error: " ++ js_to_string (js_or (opt_get data "message") (JStr "Internal server error"))
  else
    "HTTP " ++ js_to_string (JNum status) ++ ": "
    ++ js_to_string (js_or (opt_get data "message") (JStr error_message)).

(** [createODAGLink(linkConfig)].  The first [console.log] reads
    [linkConfig.name], which raises on a nullish [linkConfig]. *)
Definition createODAGLink (linkConfig : JsVal) : M JsVal :=
  try_catch
    (_ ← ensureAuthenticated;
     this ← get_this;
     let url := linksUrl this in
     _ ← eval (get linkConfig "name");
     response ← axios SiteCreateLink POST url (odagPayload linkConfig);
     let d := data response in
     if truthy (js_and (js_and d (field d "objectDef")) (field (field d "objectDef") "id")) then
       mret (field d "objectDef")
     else if truthy (js_and d (field d "id")) then
       mret d
     else throw (Error "Failed to create ODAG link - no ID returned"))
    (fun error =>
       match response error with
       | Some (st, dt) => throw (Error (link_error_message st dt (message error)))
       | None => throw (Error ("Failed to create ODAG link: " ++ message error))
       end).

(** [addNavigationLinkToApp(selectionAppId, odagLinkId, linkName, description)]:
    the socket is opened, the world delivers its events to the handlers, and
    the awaited promise completes as it was first settled. *)
Definition wsUrl_of (this : ODAGLinkCreator) (selectionAppId : JsVal) : string :=
  if truthy (assoc "virtualProxy" (config this))
  then "wss://" ++ js_to_string (assoc "qlikHost" (config this)) ++ ":"
       ++ js_to_string (assoc "enginePort" (config this)) ++ "/"
       ++ js_to_string (assoc "virtualProxy" (config this))
       ++ "/app/" ++ js_to_string selectionAppId
  else "wss://" ++ js_to_string (assoc "qlikHost" (config this)) ++ ":"
       ++ js_to_string (assoc "enginePort" (config this))
       ++ "/app/" ++ js_to_string selectionAppId.

Definition addNavigationLinkToApp (selectionAppId odagLinkId linkName description : JsVal)
    : M string :=
  fun h this =>
    let c := mkWsConnect (wsUrl_of this selectionAppId)
               [ ("X-Qlik-Xrfkey", xrfKey this);
                 ("X-Qlik-User", qlik_user (config this)) ]
               (httpsAgent this) 10000 in
    let script := ws w h c in
    (match promise (run_session selectionAppId odagLinkId script) with
     | Pending => Hang
     | Resolved v => Ok v
     | Rejected e => Throw e
     end, this, [LWs selectionAppId odagLinkId c script]).

(** The loop over [requiredFields] *)
Fixpoint check_required (options : JsVal) (requiredFields : list string) : M unit :=
  match requiredFields with
  | [] => mret tt
  | f :: rest =>
      if negb (truthy (field options f))
      then throw (Error ("Missing required field: " ++ f))
      else check_required options rest
  end.

(** [createCompleteODAGLink(options)] *)
Definition createCompleteODAGLink (options : JsVal) : M JsVal :=
  try_catch
    (_ ← ensureAuthenticated;
     let requiredFields := ["linkName"; "rowEstExpr"] in
     selectionAppId ← eval (get options "selectionAppId");
     let hasAppIds := js_and selectionAppId (field options "templateAppId") in
     if negb (truthy hasAppIds) then
       throw (Error "Missing required fields: selectionAppId and templateAppId are required")
     else
       _ ← check_required options requiredFields;
       selectionAppValidation ← validateAppId (field options "selectionAppId");
       templateAppValidation ← validateAppId (field options "templateAppId");
       if negb (truthy (field selectionAppValidation "valid")) then
         throw (Error ("Selection app validation failed: "
                       ++ js_to_string (field selectionAppValidation "error")))
       else if negb (truthy (field templateAppValidation "valid")) then
         throw (Error ("Template app validation failed: "
                       ++ js_to_string (field templateAppValidation "error")))
       else
         let linkConfig :=
           JObj [ ("name", field options "linkName");
                  ("selectionAppId", field options "selectionAppId");
                  ("templateAppId", field options "templateAppId");
                  ("rowEstExpr", field options "rowEstExpr");
                  ("rowEstRange", field options "rowEstRange");
                  ("appRetentionTime", field options "appRetentionTime");
                  ("genAppName", field options "genAppName") ] in
         odagLink ← createODAGLink linkConfig;
         try_catch
           (_ ← addNavigationLinkToApp
                  (field options "selectionAppId")
                  (field odagLink "id")
                  (field options "linkName")
                  (js_or (field options "description")
                         (JStr "On-demand app generation link"));
            mret (JObj [ ("success", JBool true);
                         ("odagLinkId", field odagLink "id");
                         ("selectionAppId", field options "selectionAppId");
                         ("templateAppId", field options "templateAppId");
                         ("selectionAppName", field selectionAppValidation "name");
                         ("templateAppName", field templateAppValidation "name");
                         ("message",
                          JStr "ODAG link created and registered in Hub successfully") ]))
           (fun navError =>
              mret (JObj [ ("success", JBool true);
                           ("partial", JBool true);
                           ("odagLinkId", field odagLink "id");
                           ("selectionAppId", field options "selectionAppId");
                           ("templateAppId", field options "templateAppId");
                           ("selectionAppName", field selectionAppValidation "name");
                           ("templateAppName", field templateAppValidation "name");
                           ("message",
                            JStr "ODAG link created successfully. Navigation link must be added manually.");
                           ("navigationLinkError", JStr (message navError)) ])))
    (fun error =>
       mret (JObj [ ("success", JBool false); ("error", JStr (message error)) ])).

(** [testConnection()] *)
Definition testConnection : M JsVal :=
  try_catch
    (_ ← authenticate;
     this ← get_this;
     _ ← try_catch
           (_ ← axios SiteTestConnection GET (linksUrl this) JUndefined; mret tt)
           (fun odagError => mret tt);
     mret (JObj [ ("success", JBool true);
                  ("message", JStr "Connection test completed");
                  ("qrsApi", JStr "working");
                  ("authentication", JStr "successful") ]))
    (fun error =>
       mret (JObj [ ("success", JBool false); ("error", JStr (message error)) ])).

End Methods.

(** * The engine session: what is transmitted, and when *)

Section SessionFacts.

Variables sel link : JsVal.

(** The socket has left the open state for good. *)
Definition closing (s : Session) : Prop :=
  readyState s = CLOSING ∨ readyState s = CLOSED.

Ltac unfold_session :=
  unfold deliver, on_open, on_message, on_message_catch, on_error, on_close,
    on_timeout, send_request, ws_send, requests_set, requests_get, requestId_incr,
    set_appHandle, set_readyState, clearTimeout, ws_close, resolve, reject in *.

Ltac session_cases :=
  unfold_session; simpl in *;
  repeat (case_match; simpl in *; simplify_eq; try done).

Lemma ws_close_closing s : closing (ws_close s).
Proof. unfold closing, ws_close; simpl. destruct (readyState s); auto. Qed.

Lemma deliver_closing s ev :
  closing s →
  closing (deliver sel link s ev) ∧ sent (deliver sel link s ev) = sent s.
Proof.
  intros [Hc | Hc]; destruct ev; unfold closing;
    session_cases; try congruence; auto.
Qed.

Lemma run_from_closing script : ∀ s,
  closing s →
  closing (run_from sel link s script) ∧ sent (run_from sel link s script) = sent s.
Proof.
  induction script as [|ev script IH]; intros s Hc; simpl; [done|].
  destruct (deliver_closing s ev Hc) as [Hc' Hs].
  destruct (IH _ Hc') as [? ?]. split; [done | congruence].
Qed.

(** A settled promise keeps its first settlement. *)
Lemma deliver_settled s ev :
  promise s ≠ Pending → promise (deliver sel link s ev) = promise s.
Proof.
  intros Hp. destruct ev; session_cases; destruct (promise s); done.
Qed.

Lemma run_from_settled script : ∀ s,
  promise s ≠ Pending → promise (run_from sel link s script) = promise s.
Proof.
  induction script as [|ev script IH]; intros s Hp; simpl; [done|].
  rewrite IH; rewrite deliver_settled; done.
Qed.

(** An inbound frame that carries an error member closes the socket and
    rejects; the handler returns before its [switch]. *)
Lemma on_message_error s response :
  truthy (field response "error") = true →
  on_message link s (Parsed response)
  = reject (ws_close s)
      (Error ("WebSocket error: "
              ++ js_to_string (field (field response "error") "message"))).
Proof.
  intros He. unfold on_message.
  destruct (nullish response) eqn:Hn.
  - destruct response; simplify_eq; simpl in *; done.
  - by rewrite He.
Qed.

End SessionFacts.

(** Engine replies used in the examples below. *)
Definition reply_handle (id : Z) (qHandle : JsVal) : WsEvent :=
  EvMessage (Parsed (JObj [ ("jsonrpc", JStr "2.0"); ("id", JNum id);
                            ("result", JObj [ ("qReturn",
                               JObj [ ("qType", JStr "Doc"); ("qHandle", qHandle) ]) ]) ])).

Definition reply_ok (id : Z) : WsEvent :=
  EvMessage (Parsed (JObj [ ("jsonrpc", JStr "2.0"); ("id", JNum id);
                            ("result", JObj []) ])).

Definition error_response (id : Z) (msg : string) : JsVal :=
  JObj [ ("jsonrpc", JStr "2.0"); ("id", JNum id);
         ("error", JObj [ ("code", JNum 2); ("message", JStr msg) ]) ].

(** The error clause of the driver as the specification words it: the close
    call carries a code other than 1000, the rejection is the remote message
    itself, and nothing is transmitted afterwards. *)
Definition error_frame_as_specified (link : JsVal) (s : Session) (response : JsVal)
    (rest : list WsEvent) : Prop :=
  let s' := on_message link s (Parsed response) in
  (∃ code : Z, closeCalls s' = (closeCalls s ++ [Some code])%list ∧ code ≠ 1000) ∧
  promise s' = Rejected (Error (js_to_string (field (field response "error") "message"))) ∧
  sent (run_from (JStr "A") link s' rest) = sent s.

(** C7, counterexample: after [OpenDoc] was answered with handle 7, the
    create-object reply carries the error "boom".  The driver calls [close]
    without any code, and the rejection reads "WebSocket error: boom". *)
Lemma C7_counterexample :
  let s := run_session (JStr "A") (JStr "L") [EvOpen; reply_handle 1 (JNum 7)] in
  let s' := on_message (JStr "L") s (Parsed (error_response 2 "boom")) in
  closeCalls s' = [None] ∧
  promise s' = Rejected (Error "WebSocket error: boom") ∧
  ¬ error_frame_as_specified (JStr "L") s (error_response 2 "boom") [].
Proof.
  split; [vm_compute; reflexivity|]. split; [vm_compute; reflexivity|].
  intros [[code [Hc _]] _]. vm_compute in Hc. discriminate Hc.
Qed.

(** C7, amended: in any state of the session, an inbound response whose
    [error] member is set makes the driver call [close()] once, without a
    code, and reject with "WebSocket error: " followed by the remote
    message; the handler transmits nothing, and nothing is transmitted by
    any later event of the session, so no save request follows a failed
    create-object. *)
Theorem C7_error_frame_terminal (sel link : JsVal) (s : Session) (response : JsVal)
    (rest : list WsEvent) :
  truthy (field response "error") = true →
  let s' := on_message link s (Parsed response) in
  let final := run_from sel link s' rest in
  closeCalls s' = (closeCalls s ++ [None])%list ∧
  closing s' ∧
  promise s' = match promise s with
               | Pending =>
                   Rejected (Error ("WebSocket error: "
                     ++ js_to_string (field (field response "error") "message")))
               | p => p
               end ∧
  sent s' = sent s ∧
  sent final = sent s ∧
  (promise s = Pending → promise final = promise s').
Proof.
  intros He s' final. subst s' final. rewrite (on_message_error link s response He).
  assert (Hc : closing (reject (ws_close s)
                 (Error ("WebSocket error: "
                         ++ js_to_string (field (field response "error") "message"))))).
  { apply (ws_close_closing s). }
  destruct (run_from_closing sel link rest _ Hc) as [_ Hsent].
  repeat split; try done.
  intros Hp. apply run_from_settled. simpl. by rewrite Hp.
Qed.

Lemma C7_error_frame_terminal_witness :
  let s := run_session (JStr "A") (JStr "L") [EvOpen; reply_handle 1 (JNum 7)] in
  let s' := on_message (JStr "L") s (Parsed (error_response 2 "boom")) in
  let final := run_from (JStr "A") (JStr "L") s' [reply_handle 1 (JNum 7); reply_ok 3] in
  truthy (field (error_response 2 "boom") "error") = true ∧
  sent final = sent s ∧
  promise final = Rejected (Error "WebSocket error: boom").
Proof.
  pose proof (C7_error_frame_terminal (JStr "A") (JStr "L")
                (run_session (JStr "A") (JStr "L") [EvOpen; reply_handle 1 (JNum 7)])
                (error_response 2 "boom")
                [reply_handle 1 (JNum 7); reply_ok 3] eq_refl) as H.
  destruct H as (_ & _ & _ & _ & Hsent & Hp).
  split; [reflexivity|]. split; [exact Hsent|].
  rewrite (Hp eq_refl). vm_compute. reflexivity.
Defined.

(** ** The pending-request table *)

Section PendingTable.

Variables sel link : JsVal.

(** Every key of the table is a correlation id already handed out, and the
    table is empty for as long as the socket is connecting. *)
Definition table_ok (s : Session) : Prop :=
  (∀ k, is_Some (requests s !! k) → k < requestId s) ∧
  (readyState s = CONNECTING → requests s = ∅).

Ltac table_cases :=
  unfold deliver, on_open, on_message, on_message_catch, on_error, on_close,
    on_timeout, send_request, ws_send, requests_set, requests_get, requestId_incr,
    set_appHandle, set_readyState, clearTimeout, ws_close, resolve, reject in *;
  simpl in *;
  repeat (case_match; simpl in *; simplify_eq; try done).

Lemma session_init_table_ok : table_ok session_init.
Proof.
  split; [|done]. intros k [v Hv]. simpl in Hv. by rewrite lookup_empty in Hv.
Qed.

Lemma insert_key_bound (m : gmap Z ReqKind) (n : Z) (x : ReqKind) (k : Z) :
  (∀ k, is_Some (m !! k) → k < n) → is_Some (<[n:=x]> m !! k) → k < n + 1.
Proof.
  intros Hm Hk. destruct (decide (n = k)) as [->|Hne]; [lia|].
  rewrite lookup_insert_ne in Hk by done. specialize (Hm k Hk). lia.
Qed.

Lemma deliver_table_ok s ev : table_ok s → table_ok (deliver sel link s ev).
Proof.
  intros [Hk He]. destruct ev; table_cases; split; simpl; try done;
    try (intros k Hv; eapply insert_key_bound; eauto);
    try (intros; congruence).
  all: try (rewrite He in * by done; simplify_map_eq).
Qed.

Lemma run_from_table_ok script : ∀ s,
  table_ok s → table_ok (run_from sel link s script).
Proof.
  induction script as [|ev script IH]; intros s Hs; simpl; [done|].
  apply IH, deliver_table_ok, Hs.
Qed.

Lemma run_session_table_ok script : table_ok (run_session sel link script).
Proof. apply run_from_table_ok, session_init_table_ok. Qed.

Lemma deliver_keeps_entry s ev k v :
  table_ok s → requests s !! k = Some v →
  requests (deliver sel link s ev) !! k = Some v.
Proof.
  intros [Hk He] Hv.
  assert (Hlt : k < requestId s) by (apply Hk; eauto).
  destruct ev; table_cases;
    cbn; try done; rewrite lookup_insert_ne by lia; done.
Qed.

Lemma run_from_keeps_entry script : ∀ s k v,
  table_ok s → requests s !! k = Some v →
  requests (run_from sel link s script) !! k = Some v.
Proof.
  induction script as [|ev script IH]; intros s k v Hs Hv; simpl; [done|].
  apply IH; [by apply deliver_table_ok | by apply deliver_keeps_entry].
Qed.

End PendingTable.

Lemma nullish_field v k : nullish (field v k) = false → nullish v = false.
Proof. by destruct v. Qed.

Lemma field_num_not_nullish v k n : field v k = JNum n → nullish v = false.
Proof. by destruct v. Qed.

(** C10: the pending-request table of a session only grows: an entry, once
    set, is found unchanged after any further events.  A reply is therefore
    dispatched on its correlation id alone, whether or not that id was
    answered before: a reply to an [OpenDoc] id on an open socket always
    sends a [CreateObject] request under the next, unused correlation id,
    and a reply to a create-object id always sends a [DoSave] request; a
    second [OpenDoc] reply yields a second [CreateObject] request. *)
Theorem C10_pending_table_only_grows (sel link : JsVal) :
  (∀ script rest k v,
     requests (run_session sel link script) !! k = Some v →
     requests (run_session sel link (script ++ rest)) !! k = Some v) ∧
  (∀ script response k,
     let s := run_session sel link script in
     let qReturn := field (field response "result") "qReturn" in
     let s' := deliver sel link s (EvMessage (Parsed response)) in
     requests s !! k = Some openApp →
     readyState s = OPEN →
     field response "id" = JNum k →
     truthy (field response "error") = false →
     nullish qReturn = false →
     sent s' = (sent s ++ [createObjectRequest (field qReturn "qHandle") link (requestId s)])%list ∧
     requests s !! requestId s = None ∧
     requests s' = <[requestId s := createObject]> (requests s)) ∧
  (∀ script response k,
     let s := run_session sel link script in
     let s' := deliver sel link s (EvMessage (Parsed response)) in
     requests s !! k = Some createObject →
     readyState s = OPEN →
     field response "id" = JNum k →
     truthy (field response "error") = false →
     sent s' = (sent s ++ [saveRequest (appHandle s) (requestId s)])%list ∧
     requests s !! requestId s = None ∧
     requests s' = <[requestId s := save]> (requests s)) ∧
  (sel = JStr "A" → link = JStr "L" →
   sent (run_session sel link [EvOpen; reply_handle 1 (JNum 7); reply_handle 1 (JNum 7)])
   = [ openAppRequest (JStr "A") 1;
       createObjectRequest (JNum 7) (JStr "L") 2;
       createObjectRequest (JNum 7) (JStr "L") 3 ]).
Proof.
  assert (Hfresh : ∀ script,
            requests (run_session sel link script)
              !! requestId (run_session sel link script) = None).
  { intros script. destruct (run_session_table_ok sel link script) as [Hk _].
    destruct (requests (run_session sel link script)
                !! requestId (run_session sel link script)) eqn:E; [|done].
    specialize (Hk _ (ex_intro _ _ E)). lia. }
  split; [|split; [|split]].
  - intros script rest k v Hv. unfold run_session, run_from in *.
    rewrite fold_left_app. apply run_from_keeps_entry; [|done].
    apply run_session_table_ok.
  - intros script response k s qReturn s' Hreq Hopen Hid Herr Hq.
    pose proof (nullish_field _ _ Hq) as Hres.
    pose proof (field_num_not_nullish _ _ _ Hid) as Hresp.
    split; [|split; [apply Hfresh|]]; subst s' qReturn;
      unfold deliver, on_message, send_request, ws_send, requests_get;
      rewrite Hresp, Herr, Hid; fold s; rewrite Hreq, Hres, Hq; simpl;
      rewrite Hopen; reflexivity.
  - intros script response k s s' Hreq Hopen Hid Herr.
    pose proof (field_num_not_nullish _ _ _ Hid) as Hresp.
    split; [|split; [apply Hfresh|]]; subst s';
      unfold deliver, on_message, send_request, ws_send, requests_get;
      rewrite Hresp, Herr, Hid; fold s; rewrite Hreq; simpl;
      rewrite Hopen; reflexivity.
  - intros -> ->. vm_compute. reflexivity.
Qed.

Lemma C10_pending_table_only_grows_witness :
  let script := [EvOpen; reply_handle 1 (JNum 7)] in
  let s := run_session (JStr "A") (JStr "L") script in
  requests s !! 1 = Some openApp ∧
  readyState s = OPEN ∧
  requests (run_session (JStr "A") (JStr "L") (script ++ [reply_ok 2])) !! 1 = Some openApp ∧
  sent (deliver (JStr "A") (JStr "L") s (reply_handle 1 (JNum 8)))
  = (sent s ++ [createObjectRequest (JNum 8) (JStr "L") 3])%list.
Proof.
  destruct (C10_pending_table_only_grows (JStr "A") (JStr "L")) as (Hgrow & Hdup & _ & _).
  assert (H1 : requests (run_session (JStr "A") (JStr "L") [EvOpen; reply_handle 1 (JNum 7)])
               !! 1 = Some openApp) by (vm_compute; reflexivity).
  assert (H2 : readyState (run_session (JStr "A") (JStr "L") [EvOpen; reply_handle 1 (JNum 7)])
               = OPEN) by (vm_compute; reflexivity).
  split; [exact H1|]. split; [exact H2|]. split.
  - exact (Hgrow [EvOpen; reply_handle 1 (JNum 7)] [reply_ok 2] 1 openApp H1).
  - destruct (Hdup [EvOpen; reply_handle 1 (JNum 7)]
                (JObj [ ("jsonrpc", JStr "2.0"); ("id", JNum 1);
                        ("result", JObj [ ("qReturn",
                           JObj [ ("qType", JStr "Doc"); ("qHandle", JNum 8) ]) ]) ])
                1 H1 H2 eq_refl eq_refl eq_refl) as (Hs & _ & _).
    exact Hs.
Defined.

(** ** Handle threading *)

Section HandleThreading.

Variables sel link h : JsVal.

(** A request sent after [OpenDoc]: create-object or save, on handle [h]. *)
Definition follow_up (f : JsVal) : Prop :=
  ∃ i, f = createObjectRequest h link i ∨ f = saveRequest h i.

(** A reply to correlation id 1 that the driver accepts returns handle [h]. *)
Definition returns_handle (response : JsVal) : Prop :=
  field response "id" = JNum 1 →
  truthy (field response "error") = false →
  nullish (field (field response "result") "qReturn") = false →
  field (field (field response "result") "qReturn") "qHandle" = h.

(** The events after the socket has opened: no second [open], and every
    [OpenDoc] reply returns [h]. *)
Definition event_ok (ev : WsEvent) : Prop :=
  match ev with
  | EvOpen => False
  | EvMessage (Parsed response) => returns_handle response
  | _ => True
  end.

Definition frame_id (f : JsVal) : JsVal := field f "id".

Record threaded (s : Session) : Prop := mkThreaded {
  th_open : requests s !! 1 = Some openApp;
  th_keys : ∀ k v, requests s !! k = Some v → k = 1 ∨ (v ≠ openApp ∧ appHandle s = h);
  th_bound : ∀ k, is_Some (requests s !! k) → k < requestId s;
  th_state : readyState s ≠ CONNECTING;
  th_next : readyState s = OPEN → requestId s = Z.of_nat (length (sent s)) + 1;
  th_sent : ∃ tail, sent s = openAppRequest sel 1 :: tail ∧ Forall follow_up tail;
  th_ids : frame_id <$> sent s = JNum <$> seqZ 1 (Z.of_nat (length (sent s)))
}.

Lemma threaded_after_open : threaded (deliver sel link session_init EvOpen).
Proof.
  split; simpl.
  - by rewrite lookup_insert_eq.
  - intros k v Hv. destruct (decide (k = 1)) as [->|Hne]; [by left|].
    rewrite lookup_insert_ne in Hv by done. by rewrite lookup_empty in Hv.
  - intros k [v Hv]. destruct (decide (k = 1)) as [->|Hne]; [lia|].
    rewrite lookup_insert_ne in Hv by done. by rewrite lookup_empty in Hv.
  - done.
  - done.
  - exists []. split; [done | constructor].
  - done.
Qed.

(** Steps that touch neither the table nor what was sent. *)
Lemma threaded_passive s s' :
  threaded s →
  requests s' = requests s → requestId s' = requestId s →
  appHandle s' = appHandle s → sent s' = sent s →
  readyState s' ≠ CONNECTING → (readyState s' = OPEN → readyState s = OPEN) →
  threaded s'.
Proof.
  intros [H1 H2 H3 H4 H5 H6 H7] Hr Hi Ha Hs Hc Ho.
  split; rewrite ?Hr, ?Hi, ?Ha, ?Hs; auto.
Qed.

Lemma threaded_set_appHandle s : threaded s → threaded (set_appHandle s h).
Proof.
  intros [H1 H2 H3 H4 H5 H6 H7]. split; simpl; auto.
  intros k v Hv. destruct (H2 k v Hv) as [?|[? ?]]; auto.
Qed.

(** The three statements that register and send a request. *)
Lemma threaded_send s kind frame :
  threaded s → appHandle s = h → kind ≠ openApp →
  follow_up (frame (requestId s)) →
  frame_id (frame (requestId s)) = JNum (requestId s) →
  threaded (send_request s kind frame).1 ∧ (send_request s kind frame).2 = None.
Proof.
  intros [H1 H2 H3 H4 H5 H6 H7] Ha Hk Hf Hid.
  assert (Hlt : 1 < requestId s) by (apply H3; eauto).
  assert (T1 : <[requestId s := kind]> (requests s) !! 1 = Some openApp).
  { rewrite lookup_insert_ne by lia. done. }
  assert (T2 : ∀ k v, <[requestId s := kind]> (requests s) !! k = Some v →
                      k = 1 ∨ (v ≠ openApp ∧ appHandle s = h)).
  { intros k v Hv. destruct (decide (requestId s = k)) as [<-|Hne].
    - rewrite lookup_insert_eq in Hv. simplify_eq. right. done.
    - rewrite lookup_insert_ne in Hv by done. auto. }
  assert (T3 : ∀ k, is_Some (<[requestId s := kind]> (requests s) !! k) →
                    k < requestId s + 1).
  { intros k Hv. eapply insert_key_bound; eauto. }
  unfold send_request, ws_send, requests_set, requestId_incr; simpl.
  destruct (readyState s) eqn:Hst; simpl; [done| | |].
  - split; [|done]. split; simpl; try done.
    + intros _. rewrite length_app; simpl. rewrite (H5 eq_refl). lia.
    + destruct H6 as [tail [Hs Ht]]. exists (tail ++ [frame (requestId s)])%list.
      rewrite Hs. split; [done|]. apply Forall_app. split; [done|]. by constructor.
    + rewrite fmap_app, H7, length_app; simpl.
      rewrite Nat2Z.inj_add, seqZ_app by lia. rewrite fmap_app.
      f_equal. rewrite Hid, (H5 eq_refl).
      replace (Z.of_nat 1) with 1 by done.
      rewrite seqZ_cons by lia. rewrite seqZ_nil by lia. simpl.
      do 2 f_equal. lia.
  - split; [|done]. split; simpl; try done; congruence.
  - split; [|done]. split; simpl; try done; congruence.
Qed.

Lemma threaded_ws_close s : threaded s → threaded (ws_close s).
Proof.
  intros Hs. pose proof (th_state s Hs).
  apply (threaded_passive s); try done; simpl; destruct (readyState s); done.
Qed.

Lemma threaded_reject s e : threaded s → threaded (reject s e).
Proof. intros Hs. apply (threaded_passive s); try done. by destruct Hs. Qed.

Lemma threaded_resolve s v : threaded s → threaded (resolve s v).
Proof. intros Hs. apply (threaded_passive s); try done. by destruct Hs. Qed.

Lemma threaded_clearTimeout s : threaded s → threaded (clearTimeout s).
Proof. intros Hs. apply (threaded_passive s); try done. by destruct Hs. Qed.

Lemma threaded_closed s : threaded s → threaded (set_readyState s CLOSED).
Proof. intros Hs. apply (threaded_passive s); done. Qed.

Lemma threaded_catch s e : threaded s → threaded (on_message_catch s e).
Proof. intros Hs. by apply threaded_reject, threaded_ws_close. Qed.

Lemma threaded_createObject_entry s k :
  threaded s → requests s !! k = Some createObject → appHandle s = h.
Proof.
  intros Hs Hk. destruct (th_keys s Hs k _ Hk) as [->|[_ ?]]; [|done].
  rewrite (th_open s Hs) in Hk. done.
Qed.

Lemma threaded_openApp_entry s k :
  threaded s → requests s !! k = Some openApp → k = 1.
Proof.
  intros Hs Hk. destruct (th_keys s Hs k _ Hk) as [->|[? _]]; done.
Qed.

Lemma deliver_threaded s ev :
  threaded s → event_ok ev → threaded (deliver sel link s ev).
Proof.
  intros Hs Hev. destruct ev as [|f|msg|code reason|]; simpl.
  - done.
  - destruct f as [m|response]; simpl; [by apply threaded_catch|].
    destruct (nullish response) eqn:Hn; [by apply threaded_catch|].
    destruct (truthy (field response "error")) eqn:He;
      [by apply threaded_reject, threaded_ws_close|].
    destruct (requests_get s (field response "id")) as [[| |]|] eqn:Hr; [| | |done].
    + destruct (nullish (field response "result")) eqn:Hres;
        [by apply threaded_catch|].
      destruct (nullish (field (field response "result") "qReturn")) eqn:Hq;
        [by apply threaded_catch|].
      unfold requests_get in Hr.
      destruct (field response "id") as [| | |n| | |] eqn:Hid; try done.
      pose proof (threaded_openApp_entry s n Hs Hr) as ->.
      rewrite (Hev Hid He Hq).
      destruct (threaded_send (set_appHandle s h) createObject
                  (createObjectRequest (appHandle (set_appHandle s h)) link))
        as [Ht Hnone]; try done.
      * by apply threaded_set_appHandle.
      * eexists. by left.
      * destruct (send_request _ _ _) as [s2 [e|]]; simpl in *; done.
    + unfold requests_get in Hr.
      destruct (field response "id") as [| | |n| | |] eqn:Hid; try done.
      pose proof (threaded_createObject_entry s n Hs Hr) as Hh.
      destruct (threaded_send s save (saveRequest (appHandle s)))
        as [Ht Hnone]; try done.
      * rewrite Hh. eexists. by right.
      * destruct (send_request _ _ _) as [s2 [e|]]; simpl in *; done.
    + by apply threaded_resolve, threaded_ws_close.
  - by apply threaded_reject, threaded_clearTimeout.
  - unfold on_close. destruct (negb (code =? 1000)).
    + by apply threaded_reject, threaded_clearTimeout, threaded_closed.
    + by apply threaded_clearTimeout, threaded_closed.
  - destruct (timer s); [|done].
    by apply threaded_reject, threaded_ws_close, threaded_clearTimeout.
Qed.

Lemma run_from_threaded rest : ∀ s,
  threaded s → Forall event_ok rest → threaded (run_from sel link s rest).
Proof.
  induction rest as [|ev rest IH]; intros s Hs Hev; simpl; [done|].
  inversion Hev; subst. apply IH; [by apply deliver_threaded | done].
Qed.

End HandleThreading.

(** A reply that carries correlation id [i] and no error. *)
Definition is_reply (i : Z) (response : JsVal) : Prop :=
  field response "id" = JNum i ∧ truthy (field response "error") = false.

(** The three accepting transitions of the message handler on an open
    socket, as equations. *)
Lemma on_message_openApp link s response k :
  requests s !! k = Some openApp → readyState s = OPEN →
  is_reply k response →
  nullish (field (field response "result") "qReturn") = false →
  on_message link s (Parsed response)
  = let handle := field (field (field response "result") "qReturn") "qHandle" in
    mkSession (requestId s + 1) (<[requestId s := createObject]> (requests s)) handle
      (timer s) OPEN (promise s)
      (sent s ++ [createObjectRequest handle link (requestId s)])%list (closeCalls s).
Proof.
  intros Hreq Hopen [Hid Herr] Hq.
  pose proof (nullish_field _ _ Hq) as Hres.
  pose proof (field_num_not_nullish _ _ _ Hid) as Hresp.
  unfold on_message, send_request, ws_send, requests_get.
  rewrite Hresp, Herr, Hid, Hreq, Hres, Hq. simpl. rewrite Hopen. reflexivity.
Qed.

Lemma on_message_createObject link s response k :
  requests s !! k = Some createObject → readyState s = OPEN →
  is_reply k response →
  on_message link s (Parsed response)
  = mkSession (requestId s + 1) (<[requestId s := save]> (requests s)) (appHandle s)
      (timer s) OPEN (promise s)
      (sent s ++ [saveRequest (appHandle s) (requestId s)])%list (closeCalls s).
Proof.
  intros Hreq Hopen [Hid Herr].
  pose proof (field_num_not_nullish _ _ _ Hid) as Hresp.
  unfold on_message, send_request, ws_send, requests_get.
  rewrite Hresp, Herr, Hid, Hreq. simpl. rewrite Hopen. reflexivity.
Qed.

Lemma on_message_save link s response k :
  requests s !! k = Some save →
  is_reply k response →
  on_message link s (Parsed response)
  = resolve (ws_close s) "ODAG app link created and app saved".
Proof.
  intros Hreq [Hid Herr].
  pose proof (field_num_not_nullish _ _ _ Hid) as Hresp.
  unfold on_message, requests_get.
  rewrite Hresp, Herr, Hid, Hreq. reflexivity.
Qed.

(** C6: in a session whose socket opens, the first frame transmitted is
    [OpenDoc] on handle -1; when the replies to it return handle [h], every
    later frame is a [CreateObject] or [DoSave] request on handle [h]; the
    correlation ids of the transmitted frames are 1, 2, 3, ... in order.
    In the exchange open, [OpenDoc] reply, create-object reply, save reply
    the three requests are exactly those, and the promise resolves. *)
Theorem C6_handle_threading (sel link h : JsVal) :
  (∀ rest,
     Forall (event_ok h) rest →
     let s := run_session sel link (EvOpen :: rest) in
     ∃ tail,
       sent s = openAppRequest sel 1 :: tail ∧
       field (openAppRequest sel 1) "handle" = JNum (-1) ∧
       Forall (λ f, field f "handle" = h ∧
                    (field f "method" = JStr "CreateObject" ∨
                     field f "method" = JStr "DoSave")) tail ∧
       frame_id <$> sent s = JNum <$> seqZ 1 (Z.of_nat (length (sent s)))) ∧
  (∀ r1 r2 r3,
     is_reply 1 r1 →
     nullish (field (field r1 "result") "qReturn") = false →
     field (field (field r1 "result") "qReturn") "qHandle" = h →
     is_reply 2 r2 →
     is_reply 3 r3 →
     let s := run_session sel link
                [EvOpen; EvMessage (Parsed r1); EvMessage (Parsed r2); EvMessage (Parsed r3)] in
     sent s = [ openAppRequest sel 1; createObjectRequest h link 2; saveRequest h 3 ] ∧
     promise s = Resolved "ODAG app link created and app saved" ∧
     closeCalls s = [None]) ∧
  (∀ script response k,
     let s := run_session sel link script in
     let s' := deliver sel link s (EvMessage (Parsed response)) in
     requests s !! k = Some save →
     is_reply k response →
     promise s = Pending →
     promise s' = Resolved "ODAG app link created and app saved" ∧
     closeCalls s' = (closeCalls s ++ [None])%list ∧
     sent s' = sent s).
Proof.
  split; [|split].
  - intros rest Hrest s.
    assert (Hs : threaded sel link h s).
    { change s with (run_from sel link (deliver sel link session_init EvOpen) rest).
      apply run_from_threaded; [apply threaded_after_open | done]. }
    destruct (th_sent _ _ _ _ Hs) as [tail [Hsent Htail]].
    exists tail. split; [done|]. split; [done|].
    split; [|by apply (th_ids sel link h)].
    eapply Forall_impl; [exact Htail|].
    intros f [i [-> | ->]]; simpl; auto.
  - intros r1 r2 r3 H1 Hq Hh H2 H3 s. subst s.
    change (run_session sel link
              [EvOpen; EvMessage (Parsed r1); EvMessage (Parsed r2); EvMessage (Parsed r3)])
      with (on_message link (on_message link (on_message link
              (mkSession 2 (<[1 := openApp]> ∅) JNull false OPEN Pending
                 [openAppRequest sel 1] [])
              (Parsed r1)) (Parsed r2)) (Parsed r3)).
    rewrite (on_message_openApp link _ r1 1); try done.
    cbn zeta. rewrite Hh.
    rewrite (on_message_createObject link _ r2 2); try done.
    rewrite (on_message_save link _ r3 3); try done.
  - intros script response k s s' Hreq Hreply Hp. subst s'.
    change (deliver sel link s (EvMessage (Parsed response)))
      with (on_message link s (Parsed response)).
    rewrite (on_message_save link s response k Hreq Hreply). simpl.
    by rewrite Hp.
Qed.

Lemma C6_handle_threading_witness :
  let script := [ EvOpen; reply_handle 1 (JNum 7); reply_ok 2; reply_ok 3;
                  EvClose 1005 "" ] in
  let s := run_session (JStr "A") (JStr "L") script in
  Forall (event_ok (JNum 7)) (tail script) ∧
  (∃ tail, sent s = openAppRequest (JStr "A") 1 :: tail ∧
           Forall (λ f, field f "handle" = JNum 7) tail) ∧
  sent (run_session (JStr "A") (JStr "L")
          [EvOpen; reply_handle 1 (JNum 7); reply_ok 2; reply_ok 3])
  = [ openAppRequest (JStr "A") 1; createObjectRequest (JNum 7) (JStr "L") 2;
      saveRequest (JNum 7) 3 ].
Proof.
  destruct (C6_handle_threading (JStr "A") (JStr "L") (JNum 7)) as (Hgen & Hlin & _).
  assert (Hok : Forall (event_ok (JNum 7))
                  [reply_handle 1 (JNum 7); reply_ok 2; reply_ok 3; EvClose 1005 ""]).
  { repeat constructor; intros Hid; try discriminate Hid; reflexivity. }
  split; [exact Hok|]. split.
  - destruct (Hgen _ Hok) as [tail (Hs & _ & Ht & _)].
    exists tail. split; [exact Hs|].
    eapply Forall_impl; [exact Ht|]. intros f [Hf _]. exact Hf.
  - refine (proj1 (Hlin _ _ _ _ _ _ _ _)); repeat split; reflexivity.
Defined.

(** * The REST operations, summarised *)

(** The request issued by [authenticate]. *)
Definition about_call (this : ODAGLinkCreator) : HttpCall :=
  mkHttpCall GET (baseUrl (config this) ++ "/qrs/about?xrfkey=" ++ xrfKey this)
             JUndefined (axiosConfig this).

(** The request issued by [validateAppId]. *)
Definition app_call (this : ODAGLinkCreator) (appId : JsVal) : HttpCall :=
  mkHttpCall GET (baseUrl (config this) ++ "/qrs/app/" ++ js_to_string appId
                  ++ "?xrfkey=" ++ xrfKey this)
             JUndefined (axiosConfig this).

(** The request issued by [createODAGLink]. *)
Definition link_call (this : ODAGLinkCreator) (linkConfig : JsVal) : HttpCall :=
  mkHttpCall POST (linksUrl this) (odagPayload linkConfig) (axiosConfig this).

Definition is_auth (e : LogEntry) : Prop :=
  match e with
  | LHttp SiteAuthenticate _ _ => True
  | _ => False
  end.

(** The exchanges of one [ensureAuthenticated]: nothing on an authenticated
    instance, one probe otherwise. *)
Definition auth_log (this : ODAGLinkCreator) (A : list LogEntry) : Prop :=
  Forall is_auth A ∧ (length A ≤ 1)%nat ∧ (authenticated this = true → A = []).

(** No method assigns anything but [authenticated], and never back to
    [false]. *)
Definition stable (this this' : ODAGLinkCreator) : Prop :=
  config this' = config this ∧ httpsAgent this' = httpsAgent this ∧
  xrfKey this' = xrfKey this ∧ axiosConfig this' = axiosConfig this ∧
  (authenticated this = true → authenticated this' = true).

Lemma stable_refl this : stable this this.
Proof. by repeat split. Qed.

Lemma stable_trans a b c : stable a b → stable b c → stable a c.
Proof.
  intros (?&?&?&?&?) (?&?&?&?&?). repeat split; try congruence; auto.
Qed.

Lemma stable_set_authenticated this : stable this (set_authenticated true this).
Proof. by repeat split. Qed.

Section RestFacts.

Variable w : World.

(** How [authenticate] completes, by the answer to its probe. *)
Definition authenticate_result (o : AxOutcome) : Result JsVal :=
  match o with
  | AxResolved r =>
      if status r =? 200 then
        if nullish (data r)
        then Throw (Error ("Authentication failed: "
                           ++ message (type_error (data r) "buildVersion")))
        else Ok (JBool true)
      else Ok JUndefined
  | AxRejected e => Throw (Error ("Authentication failed: " ++ message e))
  end.

(** The one exchange of an [ensureAuthenticated] that throws. *)
Definition failed_probe (A : list LogEntry) (m : string) : Prop :=
  ∃ c o, A = [LHttp SiteAuthenticate c o] ∧
         authenticate_result o = Throw (Error ("Authentication failed: " ++ m)).

Lemma authenticate_eq h this :
  authenticate w h this
  = let o := http w h (about_call this) in
    (authenticate_result o,
     match authenticate_result o with
     | Ok (JBool true) => set_authenticated true this
     | _ => this
     end,
     [LHttp SiteAuthenticate (about_call this) o]).
Proof.
  unfold authenticate, try_catch, mbind, M_bind, get_this, axios, eval, throw,
    assign_authenticated, mret, M_ret, about_call, authenticate_result, get.
  simpl. rewrite !app_nil_r.
  destruct (http w h _) as [r|e]; simpl; [|done].
  destruct (status r =? 200); simpl; [|done].
  destruct (nullish (data r)); simpl; done.
Qed.

Lemma ensureAuthenticated_cases h this :
  ∃ r this' A,
    ensureAuthenticated w h this = (r, this', A) ∧
    auth_log this A ∧ stable this this' ∧
    (r = Ok tt ∨
     (authenticated this = false ∧
      ∃ m, r = Throw (Error ("Authentication failed: " ++ m)) ∧ failed_probe A m)).
Proof.
  unfold ensureAuthenticated, mbind, M_bind, get_this, mret, M_ret. simpl.
  destruct (authenticated this) eqn:Ha; simpl.
  - exists (Ok tt), this, []. repeat split; auto.
  - rewrite authenticate_eq. cbv zeta.
    assert (Hlog : ∀ o, auth_log this [LHttp SiteAuthenticate (about_call this) o]).
    { intros o. split; [by repeat constructor|]. split; [done|]. congruence. }
    destruct (authenticate_result _) as [v|e|] eqn:Hr; simpl.
    + eexists _, _, _. split; [reflexivity|]. split; [apply Hlog|].
      split; [|by left].
      destruct v as [| |[]| | | |];
        auto using stable_refl, stable_set_authenticated.
    + eexists _, _, _. split; [reflexivity|]. split; [apply Hlog|].
      split; [apply stable_refl|]. right. split; [done|].
      assert (∃ m, e = Error ("Authentication failed: " ++ m)) as [m ->].
      { unfold authenticate_result in Hr. repeat case_match; simplify_eq; eauto. }
      exists m. split; [done|]. eexists _, _. split; [reflexivity | exact Hr].
    + unfold authenticate_result in Hr. repeat case_match; simplify_eq.
Qed.

Lemma app_call_stable this this' appId :
  stable this this' → app_call this' appId = app_call this appId.
Proof. intros (Hc&_&Hx&Ha&_). unfold app_call. by rewrite Hc, Hx, Ha. Qed.

Lemma link_call_stable this this' linkConfig :
  stable this this' → link_call this' linkConfig = link_call this linkConfig.
Proof.
  intros (Hc&_&Hx&Ha&_). unfold link_call, linksUrl. by rewrite Hc, Hx, Ha.
Qed.

(** How [validateAppId] completes, by the answer to its lookup. *)
Definition validate_result (appId : JsVal) (o : AxOutcome) : Result JsVal :=
  let failed m :=
    Throw (Error ("Failed to validate app ID " ++ js_to_string appId ++ ": " ++ m)) in
  match o with
  | AxResolved r =>
      if truthy (js_and (data r) (field (data r) "id")) then
        Ok (JObj [ ("valid", JBool true);
                   ("name", field (data r) "name");
                   ("id", field (data r) "id");
                   ("published", field (data r) "published") ])
      else failed ("App not found: " ++ js_to_string appId)
  | AxRejected e =>
      match response e with
      | Some (st, _) =>
          if st =? 404 then
            Ok (JObj [ ("valid", JBool false);
                       ("error", JStr ("App ID not found: " ++ js_to_string appId)) ])
          else failed (message e)
      | None => failed (message e)
      end
  end.

Lemma validateAppId_cases appId h this :
  ∃ r this' A tail,
    validateAppId w appId h this = (r, this', (A ++ tail)%list) ∧
    auth_log this A ∧ stable this this' ∧
    ((tail = [] ∧
      ∃ m, r = Throw (Error ("Failed to validate app ID " ++ js_to_string appId
                             ++ ": Authentication failed: " ++ m)) ∧
           failed_probe A m)
     ∨ (tail = [LHttp (SiteValidateApp appId) (app_call this appId)
                  (http w (h ++ A)%list (app_call this appId))] ∧
        r = validate_result appId (http w (h ++ A)%list (app_call this appId)))).
Proof.
  destruct (ensureAuthenticated_cases h this) as (r & this1 & A & E & HA & Hst & Hr).
  exists (match r with
          | Ok _ => validate_result appId (http w (h ++ A)%list (app_call this appId))
          | _ => Throw (Error ("Failed to validate app ID " ++ js_to_string appId ++ ": "
                               ++ match r with Throw e => message e | _ => "" end))
          end), this1, A,
         (match r with
          | Ok _ => [LHttp (SiteValidateApp appId) (app_call this appId)
                       (http w (h ++ A)%list (app_call this appId))]
          | _ => []
          end).
  split; [|split; [done|split; [done|]]].
  - unfold validateAppId, try_catch, mbind, M_bind at 1. rewrite E.
    destruct Hr as [->|[_ [m [-> _]]]]; simpl.
    + unfold mbind, M_bind, get_this, axios, throw, mret, M_ret. simpl.
      rewrite !app_nil_r. fold (app_call this1 appId).
      rewrite (app_call_stable this this1 appId Hst).
      unfold validate_result.
      destruct (http w (h ++ A)%list (app_call this appId)) as [resp|e]; simpl.
      * destruct (truthy (js_and (data resp) (field (data resp) "id"))); simpl;
          rewrite ?app_nil_r; done.
      * destruct (response e) as [[st dt]|]; simpl; [|by rewrite ?app_nil_r].
        destruct (st =? 404); simpl; by rewrite ?app_nil_r.
    + unfold throw. simpl. by rewrite !app_nil_r.
  - destruct Hr as [->|[_ [m [-> ?]]]]; [right|left]; eauto.
Qed.

(** The two accepted shapes of the body answering a link creation. *)
Definition nested_shape (d : JsVal) : bool :=
  truthy (js_and (js_and d (field d "objectDef")) (field (field d "objectDef") "id")).

Definition flat_shape (d : JsVal) : bool :=
  truthy (js_and d (field d "id")).

(** How [createODAGLink] completes, by the answer to its request. *)
Definition link_result (o : AxOutcome) : Result JsVal :=
  match o with
  | AxResolved r =>
      if nested_shape (data r) then Ok (field (data r) "objectDef")
      else if flat_shape (data r) then Ok (data r)
      else Throw (Error ("Failed to create ODAG link: "
                         ++ "Failed to create ODAG link - no ID returned"))
  | AxRejected e =>
      match response e with
      | Some (st, dt) => Throw (Error (link_error_message st dt (message e)))
      | None => Throw (Error ("Failed to create ODAG link: " ++ message e))
      end
  end.

Lemma createODAGLink_cases linkConfig h this :
  ∃ r this' A tail,
    createODAGLink w linkConfig h this = (r, this', (A ++ tail)%list) ∧
    auth_log this A ∧ stable this this' ∧
    ((tail = [] ∧
      ∃ m, r = Throw (Error ("Failed to create ODAG link: " ++ m)) ∧
           (nullish linkConfig = true ∨
            ∃ m', m = "Authentication failed: " ++ m' ∧ failed_probe A m'))
     ∨ (nullish linkConfig = false ∧
        tail = [LHttp SiteCreateLink (link_call this linkConfig)
                  (http w (h ++ A)%list (link_call this linkConfig))] ∧
        r = link_result (http w (h ++ A)%list (link_call this linkConfig)))).
Proof.
  destruct (ensureAuthenticated_cases h this) as (r & this1 & A & E & HA & Hst & Hr).
  set (o := http w (h ++ A)%list (link_call this linkConfig)).
  exists (match r with
          | Ok _ => if nullish linkConfig
                    then Throw (Error ("Failed to create ODAG link: "
                                       ++ message (type_error linkConfig "name")))
                    else link_result o
          | _ => Throw (Error ("Failed to create ODAG link: "
                               ++ match r with Throw e => message e | _ => "" end))
          end), this1, A,
         (match r with
          | Ok _ => if nullish linkConfig then []
                    else [LHttp SiteCreateLink (link_call this linkConfig) o]
          | _ => []
          end).
  split; [|split; [done|split; [done|]]].
  - unfold createODAGLink, try_catch, mbind, M_bind at 1. rewrite E.
    destruct Hr as [->|[_ [m [-> _]]]]; simpl.
    + unfold mbind, M_bind, get_this, eval, get, axios, throw, mret, M_ret. simpl.
      destruct (nullish linkConfig) eqn:Hn; simpl; [by rewrite !app_nil_r|].
      rewrite !app_nil_r. fold (link_call this1 linkConfig).
      rewrite (link_call_stable this this1 linkConfig Hst). fold o.
      unfold link_result, nested_shape, flat_shape.
      destruct o as [resp|e]; simpl.
      * destruct (truthy (js_and (js_and (data resp) (field (data resp) "objectDef"))
                                 (field (field (data resp) "objectDef") "id"))); simpl;
          [by rewrite ?app_nil_r|].
        destruct (truthy (js_and (data resp) (field (data resp) "id"))); simpl;
          by rewrite ?app_nil_r.
      * destruct (response e) as [[st dt]|]; simpl; by rewrite ?app_nil_r.
    + unfold throw. simpl. by rewrite !app_nil_r.
  - destruct Hr as [->|[_ [m [-> ?]]]]; [|left; eauto 10].
    destruct (nullish linkConfig) eqn:Hn; [left; eauto 10 | right; eauto].
Qed.

End RestFacts.

(** * A scripted remote system and a sample instance

    Used by the examples: the [i]-th exchange of a run is answered by the
    [i]-th scripted answer, and a socket delivers the scripted events. *)

Definition scripted (answers : list AxOutcome) (events : list WsEvent) : World :=
  mkWorld
    (fun h _ => nth (length h) answers (AxRejected (Error "connect ECONNREFUSED")))
    (fun _ _ => events).

Definition ok200 (d : JsVal) : AxOutcome := AxResolved (mkAxResponse 200 d).

Definition rejected (st : Z) (d : JsVal) : AxOutcome :=
  AxRejected (mkJsError ("Request failed with status code " ++ pretty st) (Some (st, d))).

Definition about_ok : AxOutcome := ok200 (JObj [ ("buildVersion", JStr "31.0.2.0") ]).

Definition app_found (id name : string) : AxOutcome :=
  ok200 (JObj [ ("id", JStr id); ("name", JStr name); ("published", JBool true) ]).

(** The values of [config.js] *)
Definition sample_config : JsVal :=
  JObj [ ("qlikHost", JStr "win-7cu4ono2k4r");
         ("qrsPort", JNum 4242);
         ("enginePort", JNum 4747);
         ("odagPort", JNum 9098);
         ("certsPath", JStr "C:/certs");
         ("userDirectory", JStr "win-7cu4ono2k4r");
         ("userId", JStr "qlik_svc");
         ("virtualProxy", JStr "");
         ("servicePort", JNum 3000);
         ("logLevel", JStr "debug");
         ("rejectUnauthorized", JBool true);
         ("requestTimeout", JNum 30000);
         ("maxRetries", JNum 3);
         ("retryDelay", JNum 1000) ].

Definition sample_readFileSync (path : string) : Result string :=
  Ok ("-----BEGIN " ++ path ++ "-----").

Definition sample_random (i : nat) : Q := Z.of_nat (7 * i + 3) # 128.

Definition sample_instance : ODAGLinkCreator :=
  match constructor sample_readFileSync sample_random sample_config with
  | Ok this => this
  | _ => mkODAGLinkCreator [] (mkAgent "" "" "" true true 50) ""
           (mkAxiosConfig (mkAgent "" "" "" true true 50) [] 30000) false
  end.

Example sample_instance_constructed :
  constructor sample_readFileSync sample_random sample_config = Ok sample_instance.
Proof. vm_compute. reflexivity. Qed.

Example sample_instance_key : xrfKey sample_instance = "beilpsvzCFJMQTW0".
Proof. vm_compute. reflexivity. Qed.

Definition sample_options : JsVal :=
  JObj [ ("linkName", JStr "Sales Detail");
         ("selectionAppId", JStr "A");
         ("templateAppId", JStr "B");
         ("rowEstExpr", JStr "Sum(X)") ].

Definition sample_linkConfig : JsVal :=
  JObj [ ("name", JStr "Sales Detail");
         ("selectionAppId", JStr "A");
         ("templateAppId", JStr "B");
         ("rowEstExpr", JStr "Sum(X)");
         ("appRetentionTime",
          JArr [ JObj [ ("context", JStr "User_*"); ("minutes", JNum 7200) ] ]) ].

(** * Link creation: accepted responses, typed failures, payload defaults *)

(** The failures of link creation as the specification names them, and the
    specification's table from the HTTP status to the failure. *)
Inductive LinkError : Type :=
| InvalidConfiguration
| Unauthorized
| Forbidden
| ServiceUnavailable
| EndpointMisconfigured
| RemoteServerError
| UnexpectedStatus (code : Z).

Definition spec_error_of_status (st : Z) : LinkError :=
  if st =? 400 then InvalidConfiguration
  else if st =? 401 then Unauthorized
  else if st =? 403 then Forbidden
  else if st =? 404 then ServiceUnavailable
  else if st =? 405 then EndpointMisconfigured
  else if st =? 500 then RemoteServerError
  else UnexpectedStatus st.

(** The opening words by which a thrown message announces its kind. *)
Definition error_prefix (k : LinkError) : string :=
  match k with
  | InvalidConfiguration => "Bad Request: "
  | Unauthorized => "Unauthorized: "
  | Forbidden => "Forbidden: "
  | ServiceUnavailable => "Not Found: "
  | EndpointMisconfigured => "Method Not Allowed: "
  | RemoteServerError => "Server Error: "
  | UnexpectedStatus code => "HTTP " ++ pretty code ++ ": "
  end.

Lemma truthy_js_and a b : truthy (js_and a b) = truthy a && truthy b.
Proof. unfold js_and. destruct (truthy a) eqn:E; simpl; done. Qed.

Lemma string_app_assoc (a b c : string) : (a ++ b) ++ c = a ++ b ++ c.
Proof.
  induction a as [|x a IH]; [done|].
  change (String x ((a ++ b) ++ c) = String x (a ++ b ++ c)). by rewrite IH.
Qed.

(** The message thrown for a rejected request opens with the words of the
    kind the specification assigns to the status, whatever the body. *)
Lemma link_error_message_kind st dt m :
  ∃ detail, link_error_message st dt m = error_prefix (spec_error_of_status st) ++ detail.
Proof.
  unfold link_error_message, spec_error_of_status.
  repeat (case_match; [simpl; eauto|]).
  exists (js_to_string (js_or (opt_get dt "message") (JStr m))).
  unfold error_prefix. rewrite !string_app_assoc. reflexivity.
Qed.

Lemma last_auth_log this A site c o :
  auth_log this A → last A = Some (LHttp site c o) → site = SiteAuthenticate.
Proof.
  intros [HA _] Hl. apply last_Some in Hl as [l' ->].
  apply Forall_app in HA as [_ HA]. inversion HA as [|? ? Hx _]; subst.
  by destruct site.
Qed.

(** C5: [createODAGLink] returns exactly when its POST resolves with a body
    that carries an identifier in the nested or in the flat shape, and then
    returns the object holding that identifier; when the POST is rejected
    with a response, the thrown message opens with the words of the kind
    that the specification's table assigns to the status code. *)
Theorem C5_createODAGLink_outcomes (w : World) (linkConfig : JsVal)
    (h : list LogEntry) (this this' : ODAGLinkCreator) (r : Result JsVal)
    (L : list LogEntry) :
  createODAGLink w linkConfig h this = (r, this', L) →
  ((∃ link, r = Ok link) ↔
   (∃ c resp, last L = Some (LHttp SiteCreateLink c (AxResolved resp)) ∧
              nested_shape (data resp) || flat_shape (data resp) = true)) ∧
  (∀ c resp,
     last L = Some (LHttp SiteCreateLink c (AxResolved resp)) →
     (nested_shape (data resp) = true →
      r = Ok (field (data resp) "objectDef") ∧
      truthy (field (field (data resp) "objectDef") "id") = true) ∧
     (nested_shape (data resp) = false → flat_shape (data resp) = true →
      r = Ok (data resp) ∧ truthy (field (data resp) "id") = true)) ∧
  (∀ c e st dt,
     last L = Some (LHttp SiteCreateLink c (AxRejected e)) →
     response e = Some (st, dt) →
     ∃ detail, r = Throw (Error (error_prefix (spec_error_of_status st) ++ detail))).
Proof.
  intros Hrun.
  destruct (createODAGLink_cases w linkConfig h this)
    as (r0 & this0 & A & tail & E & HA & _ & Hcase).
  rewrite E in Hrun. simplify_eq.
  destruct Hcase as [[-> [m [-> _]]] | (Hn & -> & ->)].
  - rewrite app_nil_r.
    split; [|split].
    + split; [intros [? ?]; done|].
      intros (c & resp & Hl & _). by apply (last_auth_log _ _ _ _ _ HA) in Hl.
    + intros c resp Hl. by apply (last_auth_log _ _ _ _ _ HA) in Hl.
    + intros c e st dt Hl. by apply (last_auth_log _ _ _ _ _ HA) in Hl.
  - rewrite last_snoc.
    destruct (http w (h ++ A)%list (link_call this linkConfig)) as [resp|e]; simpl.
    + split; [|split].
      * split.
        -- intros [link Hl]. exists (link_call this linkConfig), resp.
           split; [done|]. destruct (nested_shape (data resp)); [done|].
           destruct (flat_shape (data resp)); done.
        -- intros (c & resp' & Hl & Hs). simplify_eq.
           destruct (nested_shape (data resp')); [eauto|].
           destruct (flat_shape (data resp')); [eauto|done].
      * intros c resp' Hl. simplify_eq. split.
        -- intros Hs. rewrite Hs. split; [done|].
           unfold nested_shape in Hs. rewrite truthy_js_and in Hs.
           by apply andb_true_iff in Hs as [_ ?].
        -- intros Hs Hf. rewrite Hs, Hf. split; [done|].
           unfold flat_shape in Hf. rewrite truthy_js_and in Hf.
           by apply andb_true_iff in Hf as [_ ?].
      * intros c e st dt Hl. simplify_eq.
    + split; [|split].
      * split.
        -- intros [link Hl]. destruct (response e) as [[? ?]|]; done.
        -- intros (c & resp & Hl & _). simplify_eq.
      * intros c resp Hl. simplify_eq.
      * intros c e' st dt Hl He. simplify_eq. rewrite He.
        destruct (link_error_message_kind st dt (message e')) as [detail ->]. eauto.
Qed.

(** A policy block supplied by the caller: an array or an object. *)
Definition is_block (v : JsVal) : bool :=
  match v with
  | JArr _ | JObj _ => true
  | _ => false
  end.

Lemma is_block_truthy v : is_block v = true → truthy v = true.
Proof. by destruct v. Qed.

Lemma odagPayload_blocks linkConfig :
  let properties := field (odagPayload linkConfig) "properties" in
  field properties "rowEstRange"
  = js_or (field linkConfig "rowEstRange") default_rowEstRange ∧
  field properties "appRetentionTime"
  = js_or (field linkConfig "appRetentionTime") default_appRetentionTime ∧
  field properties "genAppName"
  = js_or (field linkConfig "genAppName") (default_genAppName (field linkConfig "name")).
Proof. repeat split; reflexivity. Qed.

(** C9: the body of the POST issued by [createODAGLink] holds, for each of
    the three policy blocks independently, the block of [linkConfig] when it
    is set and the default otherwise: bounds 1 to 500000 for "User_*",
    10080 minutes for "User_*", and the link name followed by
    " - $(user.name) - $(=Now())" for "User_*".  An omitted block gets its
    default and a supplied array or object is passed through. *)
Theorem C9_policy_defaults (w : World) (linkConfig : JsVal) (h : list LogEntry)
    (this this' : ODAGLinkCreator) (r : Result JsVal) (L : list LogEntry)
    (c : HttpCall) (o : AxOutcome) :
  createODAGLink w linkConfig h this = (r, this', L) →
  In (LHttp SiteCreateLink c o) L →
  let properties := field (body c) "properties" in
  let supplied k := field linkConfig k in
  let d_range :=
    JArr [ JObj [ ("context", JStr "User_*"); ("lowBound", JNum 1);
                  ("highBound", JNum 500000) ] ] in
  let d_retention :=
    JArr [ JObj [ ("context", JStr "User_*"); ("minutes", JNum 10080) ] ] in
  let d_name :=
    JArr [ JObj [ ("context", JStr "User_*");
                  ("formatString",
                   JStr (js_to_string (field linkConfig "name")
                         ++ " - $(user.name) - $(=Now())")) ] ] in
  let filled k dflt :=
    field properties k = (if truthy (supplied k) then supplied k else dflt) ∧
    (supplied k = JUndefined → field properties k = dflt) ∧
    (is_block (supplied k) = true → field properties k = supplied k) in
  filled "rowEstRange" d_range ∧
  filled "appRetentionTime" d_retention ∧
  filled "genAppName" d_name.
Proof.
  intros Hrun Hin.
  destruct (createODAGLink_cases w linkConfig h this)
    as (r0 & this0 & A & tail & E & HA & _ & Hcase).
  rewrite E in Hrun. simplify_eq.
  assert (Hc : c = link_call this linkConfig).
  { apply in_app_or in Hin as [Hin | Hin].
    - destruct HA as [HA _]. rewrite Forall_forall in HA.
      apply list_elem_of_In, HA in Hin. done.
    - destruct Hcase as [[-> _] | (_ & -> & _)]; [done|].
      destruct Hin as [Hin | []]. by simplify_eq. }
  subst c. cbv zeta.
  change (body (link_call this linkConfig)) with (odagPayload linkConfig).
  destruct (odagPayload_blocks linkConfig) as (-> & -> & ->).
  unfold js_or, default_rowEstRange, default_appRetentionTime, default_genAppName.
  repeat split; try done.
  all: try (intros ->; done).
  all: intros Hb; by rewrite (is_block_truthy _ Hb).
Qed.

Lemma C5_createODAGLink_outcomes_witness :
  let w := scripted [ about_ok;
                      AxResolved (mkAxResponse 201
                        (JObj [ ("objectDef", JObj [ ("id", JStr "link-1") ]) ])) ] [] in
  let w' := scripted [ about_ok; rejected 403 JNull ] [] in
  let run := createODAGLink w sample_linkConfig [] sample_instance in
  let run' := createODAGLink w' sample_linkConfig [] sample_instance in
  run.1.1 = Ok (JObj [ ("id", JStr "link-1") ]) ∧
  ∃ detail, run'.1.1 = Throw (Error ("Forbidden: " ++ detail)).
Proof.
  intros w w' run run'. split.
  - assert (E : createODAGLink w sample_linkConfig [] sample_instance
                = (run.1.1, run.1.2, run.2)) by (vm_compute; reflexivity).
    destruct (C5_createODAGLink_outcomes _ _ _ _ _ _ _ E) as (_ & Hshape & _).
    refine (proj1 (proj1 (Hshape (link_call sample_instance sample_linkConfig)
                            (mkAxResponse 201
                               (JObj [ ("objectDef", JObj [ ("id", JStr "link-1") ]) ]))
                            _) _)); vm_compute; reflexivity.
  - assert (E : createODAGLink w' sample_linkConfig [] sample_instance
                = (run'.1.1, run'.1.2, run'.2)) by (vm_compute; reflexivity).
    destruct (C5_createODAGLink_outcomes _ _ _ _ _ _ _ E) as (_ & _ & Herr).
    refine (Herr (link_call sample_instance sample_linkConfig)
              (mkJsError "Request failed with status code 403" (Some (403, JNull)))
              403 JNull _ _); vm_compute; reflexivity.
Defined.

Lemma C9_policy_defaults_witness :
  let w := scripted [ about_ok; ok200 (JObj [ ("id", JStr "link-1") ]) ] [] in
  let run := createODAGLink w sample_linkConfig [] sample_instance in
  let c := link_call sample_instance sample_linkConfig in
  In (LHttp SiteCreateLink c (ok200 (JObj [ ("id", JStr "link-1") ]))) run.2 ∧
  field (field (body c) "properties") "rowEstRange"
  = JArr [ JObj [ ("context", JStr "User_*"); ("lowBound", JNum 1);
                  ("highBound", JNum 500000) ] ] ∧
  field (field (body c) "properties") "appRetentionTime"
  = JArr [ JObj [ ("context", JStr "User_*"); ("minutes", JNum 7200) ] ] ∧
  field (field (body c) "properties") "genAppName"
  = JArr [ JObj [ ("context", JStr "User_*");
                  ("formatString", JStr "Sales Detail - $(user.name) - $(=Now())") ] ].
Proof.
  intros w run c.
  assert (E : createODAGLink w sample_linkConfig [] sample_instance
              = (run.1.1, run.1.2, run.2)) by (vm_compute; reflexivity).
  assert (Hin : In (LHttp SiteCreateLink c (ok200 (JObj [ ("id", JStr "link-1") ]))) run.2).
  { vm_compute. right. left. reflexivity. }
  destruct (C9_policy_defaults _ _ _ _ _ _ _ _ _ E Hin)
    as ((_ & H1 & _) & (_ & _ & H2) & (_ & H3 & _)).
  split; [exact Hin|]. split; [exact (H1 eq_refl)|].
  split; [exact (H2 eq_refl)|]. exact (H3 eq_refl).
Defined.

(** ** Rounding to binary64 *)

Lemma pow2_pos (e : Z) : (0 < 2 ^ e)%Q.
Proof. by apply Qpower_0_lt. Qed.

Lemma pow2_add (a b : Z) : (2 ^ (a + b) == 2 ^ a * 2 ^ b)%Q.
Proof. by apply Qpower_plus. Qed.

Lemma pow2_Z (n : Z) : 0 ≤ n → (2 ^ n == inject_Z (2 ^ n))%Q.
Proof. intros Hn. by rewrite Zpower_Qpower. Qed.

Lemma pow2_lt_inv (a b : Z) (q : Q) : (2 ^ a <= q)%Q → (q < 2 ^ b)%Q → a < b.
Proof.
  intros H1 H2. apply (Qpower_lt_compat_l_inv 2); [|done].
  eapply Qle_lt_trans; eassumption.
Qed.

(** [floor_log2 q] is the exponent of the power of two at or below [q]. *)
Lemma floor_log2_spec (q : Q) :
  (0 < q)%Q → (2 ^ floor_log2 q <= q)%Q ∧ (q < 2 ^ (floor_log2 q + 1))%Q.
Proof.
  intros Hq. destruct q as [n d]. unfold floor_log2. cbn [Qnum Qden].
  assert (Hn : 0 < n) by (unfold Qlt in Hq; simpl in Hq; lia).
  pose proof (Z.log2_spec n Hn) as [Hn1 Hn2].
  pose proof (Z.log2_spec (Zpos d) (Pos2Z.is_pos d)) as [Hd1 Hd2].
  pose proof (Z.log2_nonneg n) as Ha. pose proof (Z.log2_nonneg (Zpos d)) as Hb.
  set (a := Z.log2 n) in *. set (b := Z.log2 (Zpos d)) in *.
  assert (Hqe : (n # d == inject_Z n / inject_Z (Zpos d))%Q) by apply Qmake_Qdiv.
  assert (Hdpos : (0 < inject_Z (Zpos d))%Q) by (unfold Qlt; simpl; lia).
  (* 2^(a-b-1) < n/d < 2^(a-b+1) *)
  assert (Hlow : (2 ^ (a - b - 1) <= n # d)%Q).
  { rewrite Hqe. apply Qle_shift_div_l; [done|].
    assert (E : (2 ^ (a - b - 1) * 2 ^ (b + 1) == 2 ^ a)%Q).
    { rewrite <- pow2_add. by replace (a - b - 1 + (b + 1)) with a by lia. }
    apply Qle_trans with (2 ^ (a - b - 1) * 2 ^ (b + 1))%Q.
    - apply Qmult_le_l; [apply pow2_pos|]. rewrite pow2_Z by lia.
      rewrite <- Zle_Qle. lia.
    - rewrite E, pow2_Z by lia. rewrite <- Zle_Qle. lia. }
  assert (Hup : (n # d < 2 ^ (a - b + 1))%Q).
  { rewrite Hqe. apply Qlt_shift_div_r; [done|].
    assert (E : (2 ^ (a - b + 1) * 2 ^ b == 2 ^ (a + 1))%Q).
    { rewrite <- pow2_add. by replace (a - b + 1 + b) with (a + 1) by lia. }
    apply Qlt_le_trans with (2 ^ (a - b + 1) * 2 ^ b)%Q.
    - rewrite E, pow2_Z by lia. rewrite <- Zlt_Qlt. lia.
    - apply Qmult_le_l; [apply pow2_pos|]. rewrite pow2_Z by lia.
      rewrite <- Zle_Qle. lia. }
  destruct (Qle_bool (2 ^ (a - b)) (n # d)) eqn:Hc.
  - apply Qle_bool_iff in Hc. split; [done|]. done.
  - split; [done|]. replace (a - b - 1 + 1) with (a - b) by lia.
    apply Qnot_le_lt. intros H. apply Qle_bool_iff in H. congruence.
Qed.

(** Rounding moves to one of the two integers around [x], and leaves an
    integer in place. *)
Lemma round_half_even_bounds (x : Q) :
  Qfloor x ≤ round_half_even x ≤ Qfloor x + 1.
Proof. unfold round_half_even. repeat case_match; lia. Qed.

Lemma round_half_even_Z (k : Z) : round_half_even (inject_Z k) = k.
Proof.
  unfold round_half_even. rewrite Qfloor_Z.
  assert (E : (inject_Z k - inject_Z k ?= 1 # 2)%Q = Lt).
  { rewrite <- Qlt_alt. lra. }
  by rewrite E.
Qed.

Lemma round_half_even_comp (x y : Q) : (x == y)%Q → round_half_even x = round_half_even y.
Proof.
  intros E. unfold round_half_even. rewrite (Qfloor_comp _ _ E).
  assert (E2 : (x - inject_Z (Qfloor y) == y - inject_Z (Qfloor y))%Q) by (rewrite E; reflexivity).
  by rewrite (Qcompare_comp _ _ E2 (1#2) (1#2) (Qeq_refl _)).
Qed.

(** Below an integer by more than a half: rounded to the one before, at
    most. *)
Lemma round_half_even_below (x : Q) (K : Z) :
  (x < inject_Z K - (1 # 2))%Q → round_half_even x ≤ K - 1.
Proof.
  intros Hx. unfold round_half_even.
  assert (Hf : Qfloor x ≤ K - 1).
  { assert (Qfloor x < K); [|lia]. rewrite Zlt_Qlt.
    eapply Qle_lt_trans; [apply Qfloor_le|]. lra. }
  destruct (Z.eq_dec (Qfloor x) (K - 1)) as [E|]; [|repeat case_match; lia].
  assert (Hlt : (x - inject_Z (Qfloor x) ?= 1 # 2)%Q = Lt).
  { rewrite <- Qlt_alt. rewrite E. unfold Z.sub. rewrite inject_Z_plus, inject_Z_opp.
    change (inject_Z 1) with 1%Q. lra. }
  rewrite Hlt. lia.
Qed.

Lemma round64_pos_nonneg (q : Q) : (0 < q)%Q → (0 <= round64_pos q)%Q.
Proof.
  intros Hq. unfold round64_pos. cbv zeta.
  set (e := Z.max _ _). apply Qmult_le_0_compat; [|apply Qlt_le_weak, pow2_pos].
  change 0%Q with (inject_Z 0). rewrite <- Zle_Qle.
  etransitivity; [|apply round_half_even_bounds].
  change 0 with (Qfloor (inject_Z 0)). apply Qfloor_resp_le.
  apply Qle_shift_div_l; [apply pow2_pos|]. change (inject_Z 0) with 0%Q. lra.
Qed.

Lemma round64_nonneg (q : Q) : (0 <= q)%Q → (0 <= round64 q)%Q.
Proof.
  intros Hq. unfold round64. destruct q as [[|n|n] d]; simpl.
  - lra.
  - apply round64_pos_nonneg. done.
  - exfalso. unfold Qle in Hq. simpl in Hq. lia.
Qed.

Lemma pow2_le (a b : Z) : a ≤ b → (2 ^ a <= 2 ^ b)%Q.
Proof. intros H. by apply Qpower_le_compat_l. Qed.

Lemma pow2_neg (e : Z) : (2 ^ e * 2 ^ (- e) == 1)%Q.
Proof. rewrite <- pow2_add. by replace (e + - e) with 0 by lia. Qed.

Lemma div_pow2 (q : Q) (e : Z) : (q / 2 ^ e == q * 2 ^ (- e))%Q.
Proof.
  pose proof (pow2_pos e). pose proof (pow2_neg e).
  apply Qmult_inj_r with (2 ^ e)%Q; [lra|].
  rewrite Qmult_comm, Qmult_div_r by lra.
  rewrite <- Qmult_assoc, (Qmult_comm (2 ^ (- e))), H0. lra.
Qed.

(** A binary64 value below 1 is at most [1 - 2^-53]. *)
Lemma binary64_below_1 (r : Q) :
  binary64 r → (r < 1)%Q → (r <= 1 - 2 ^ (-53))%Q.
Proof.
  intros (m & e & Hm & He & Hr) H1.
  pose proof (pow2_pos e) as He0. pose proof (pow2_pos (-53)) as H53.
  destruct (Z_lt_le_dec e (-53)) as [Hlt|Hge].
  - (* r <= 2^53 * 2^-54 = 1/2 *)
    assert (Hp : (2 ^ e <= 2 ^ (-54))%Q) by (apply pow2_le; lia).
    assert (Hm' : (inject_Z m <= inject_Z (2 ^ 53))%Q) by (rewrite <- Zle_Qle; lia).
    assert (Hprod : (inject_Z m * 2 ^ e <= inject_Z (2 ^ 53) * 2 ^ (-54))%Q).
    { destruct (Z_lt_le_dec m 0) as [Hneg|Hpos].
      - apply Qle_trans with 0%Q.
        + assert (inject_Z m <= 0)%Q by (change 0%Q with (inject_Z 0); rewrite <- Zle_Qle; lia).
          nra.
        + vm_compute. discriminate.
      - assert (0 <= inject_Z m)%Q by (change 0%Q with (inject_Z 0); rewrite <- Zle_Qle; lia).
        apply Qle_trans with (inject_Z (2 ^ 53) * 2 ^ e)%Q.
        + apply Qmult_le_compat_r; [done | lra].
        + apply Qmult_le_l; [vm_compute; reflexivity | done]. }
    rewrite Hr. eapply Qle_trans; [exact Hprod|]. vm_compute. discriminate.
  - (* r * 2^53 is an integer below 2^53 *)
    assert (Hk : (r * 2 ^ 53 == inject_Z (m * 2 ^ (e + 53)))%Q).
    { rewrite Hr, inject_Z_mult, <- pow2_Z by lia. rewrite pow2_add. ring. }
    assert (Hlt : m * 2 ^ (e + 53) < 2 ^ 53).
    { rewrite Zlt_Qlt, <- Hk. change (inject_Z (2 ^ 53)) with (1 * 2 ^ 53)%Q.
      apply Qmult_lt_compat_r; [vm_compute; reflexivity | done]. }
    assert (Hle : (r * 2 ^ 53 <= inject_Z (2 ^ 53 - 1))%Q).
    { rewrite Hk, <- Zle_Qle. lia. }
    assert (E : (r == r * 2 ^ 53 * 2 ^ (-53))%Q).
    { rewrite <- Qmult_assoc, (pow2_neg 53). ring. }
    rewrite E. apply Qle_trans with (inject_Z (2 ^ 53 - 1) * 2 ^ (-53))%Q.
    + apply Qmult_le_compat_r; [done | lra].
    + vm_compute. discriminate.
Qed.

(** [Math.floor(r * 62)] for a draw [r] of [Math.random()]: a binary64
    value from 0 (included) to 1 (excluded).  The product is rounded, and
    stays below 62. *)
Lemma round64_draw (r : Q) :
  binary64 r → (0 <= r)%Q → (r < 1)%Q →
  (0 <= round64 (r * 62))%Q ∧ (round64 (r * 62) < 62)%Q.
Proof.
  intros Hb H0 H1. split; [apply round64_nonneg; lra|].
  pose proof (binary64_below_1 r Hb H1) as Hr.
  unfold round64. destruct (Qnum (r * 62)) as [|p|p] eqn:Hn; [lra| |].
  2: { exfalso. assert (0 <= r * 62)%Q as Hq by lra. unfold Qle in Hq.
       rewrite Hn in Hq. simpl in Hq. lia. }
  assert (Hq : (0 < r * 62)%Q).
  { unfold Qlt. rewrite Hn. simpl. lia. }
  unfold round64_pos. cbv zeta.
  destruct (floor_log2_spec _ Hq) as [Hl _].
  assert (Hl6 : floor_log2 (r * 62) < 6).
  { eapply pow2_lt_inv; [exact Hl|]. change (2 ^ 6)%Q with 64%Q. lra. }
  set (e := Z.max (floor_log2 (r * 62) - 52) (-1074)).
  assert (He : e ≤ -47) by lia.
  pose proof (pow2_pos e) as He0.
  set (K := 62 * 2 ^ (- e)).
  assert (HK : (inject_Z K == 62 * 2 ^ (- e))%Q).
  { unfold K. rewrite inject_Z_mult, <- pow2_Z by lia. reflexivity. }
  assert (Hx : (r * 62 / 2 ^ e < inject_Z K - (1 # 2))%Q).
  { rewrite div_pow2, HK.
    assert (H6 : (2 ^ (-53) * 2 ^ (- e) == 2 ^ (-53 - e))%Q).
    { rewrite <- pow2_add. by replace (-53 + - e) with (-53 - e) by lia. }
    assert (H6' : (2 ^ (-6) <= 2 ^ (-53 - e))%Q) by (apply pow2_le; lia).
    change (2 ^ (-6))%Q with (1 # 64)%Q in H6'.
    pose proof (pow2_pos (- e)) as Hne.
    assert (Hmul : (r * 2 ^ (- e) <= (1 - 2 ^ (-53)) * 2 ^ (- e))%Q).
    { apply Qmult_le_compat_r; [done | lra]. }
    set (a := (2 ^ (- e))%Q) in *. set (b := (2 ^ (-53 - e))%Q) in *.
    set (c := (2 ^ (-53))%Q) in *.
    assert (Hmul' : (r * a <= a - b)%Q).
    { eapply Qle_trans; [exact Hmul|]. rewrite <- H6. lra. }
    lra. }
  apply round_half_even_below in Hx.
  apply Qle_lt_trans with (inject_Z (K - 1) * 2 ^ e)%Q.
  - apply Qmult_le_compat_r; [by rewrite <- Zle_Qle | lra].
  - unfold Z.sub. rewrite inject_Z_plus, HK.
    change (inject_Z (- (1))) with (- (1))%Q.
    pose proof (pow2_neg e) as Hinv. rewrite Qmult_comm in Hinv.
    set (a := (2 ^ (- e))%Q) in *. set (b := (2 ^ e)%Q) in *.
    assert (E : ((62 * a + - (1)) * b == 62 * (a * b) - b)%Q) by ring.
    rewrite E, Hinv. lra.
Qed.

(** An integer below [2^53] in absolute value is a binary64 value. *)
Lemma round64_exact (n : Z) :
  Z.abs n < 2 ^ 53 → (round64 (inject_Z n) == inject_Z n)%Q.
Proof.
  assert (Hpos : ∀ k, 0 < k < 2 ^ 53 → (round64_pos (inject_Z k) == inject_Z k)%Q).
  { intros k Hk. unfold round64_pos. cbv zeta.
    assert (Hq : (0 < inject_Z k)%Q) by (change 0%Q with (inject_Z 0); rewrite <- Zlt_Qlt; lia).
    destruct (floor_log2_spec _ Hq) as [Hl _].
    assert (Hl53 : floor_log2 (inject_Z k) < 53).
    { eapply pow2_lt_inv; [exact Hl|]. rewrite pow2_Z by lia. rewrite <- Zlt_Qlt. lia. }
    set (e := Z.max (floor_log2 (inject_Z k) - 52) (-1074)).
    assert (He : e ≤ 0) by lia.
    assert (Hx : (inject_Z k / 2 ^ e == inject_Z (k * 2 ^ (- e)))%Q).
    { rewrite div_pow2, inject_Z_mult, <- pow2_Z by lia. reflexivity. }
    rewrite (round_half_even_comp _ _ Hx), round_half_even_Z.
    rewrite inject_Z_mult, <- pow2_Z by lia.
    rewrite <- Qmult_assoc, (Qmult_comm (2 ^ (- e))), pow2_neg. ring. }
  intros Hn. unfold round64. destruct n as [|p|p]; simpl Qnum; cbv iota.
  - reflexivity.
  - apply Hpos. lia.
  - change (- inject_Z (Z.neg p))%Q with (inject_Z (Z.pos p)).
    rewrite Hpos by lia. reflexivity.
Qed.

(** Such an integer is its own Number value. *)
Lemma to_number_exact (n : Z) : Z.abs n < 2 ^ 53 → to_number n = Num n.
Proof.
  intros Hn. unfold to_number. cbv zeta. pose proof (round64_exact n Hn) as E.
  assert (Hsmall : Qle_bool (2 ^ 1024) (Qabs (round64 (inject_Z n))) = false).
  { apply not_true_is_false. intros H. apply Qle_bool_iff in H.
    rewrite E in H. change (Qabs (inject_Z n)) with (inject_Z (Z.abs n)) in H.
    rewrite pow2_Z in H by lia.
    rewrite <- Zle_Qle in H.
    assert (2 ^ 53 < 2 ^ 1024) by (apply Z.pow_lt_mono_r; lia). lia. }
  rewrite Hsmall. f_equal. rewrite (Qfloor_comp _ _ E). apply Qfloor_Z.
Qed.

(** A positive integer becomes a positive number or [Infinity]. *)
Lemma to_number_positive (n : Z) :
  0 < n → to_number n = Infinity false ∨ ∃ k, to_number n = Num k ∧ 0 < k.
Proof.
  intros Hn. unfold to_number. cbv zeta.
  destruct (Qle_bool _ _).
  { left. f_equal. apply Z.ltb_ge. lia. }
  right. eexists. split; [reflexivity|].
  assert (H1 : (1 <= round64 (inject_Z n))%Q).
  { unfold round64. destruct n as [|p|p]; try lia. simpl Qnum. cbv iota.
    unfold round64_pos. cbv zeta.
    assert (Hq : (0 < inject_Z (Z.pos p))%Q) by done.
    destruct (floor_log2_spec _ Hq) as [Hl Hu].
    set (l := floor_log2 (inject_Z (Z.pos p))) in *.
    assert (Hl0 : 0 ≤ l).
    { assert (0 < l + 1); [|lia]. eapply pow2_lt_inv; [|exact Hu].
      change (2 ^ 0)%Q with (inject_Z 1). rewrite <- Zle_Qle. lia. }
    set (e := Z.max (l - 52) (-1074)).
    pose proof (pow2_pos e) as He0.
    destruct (Z_le_gt_dec e 0) as [He|He].
    - assert (Hx : (inject_Z (Z.pos p) / 2 ^ e == inject_Z (Z.pos p * 2 ^ (- e)))%Q).
      { rewrite div_pow2, inject_Z_mult, <- pow2_Z by lia. reflexivity. }
      rewrite (round_half_even_comp _ _ Hx), round_half_even_Z.
      rewrite inject_Z_mult, <- pow2_Z by lia.
      rewrite <- Qmult_assoc, (Qmult_comm (2 ^ (- e))), pow2_neg.
      assert (1 <= inject_Z (Z.pos p))%Q; [|lra].
      change 1%Q with (inject_Z 1). rewrite <- Zle_Qle. lia.
    - assert (Hf : 1 ≤ round_half_even (inject_Z (Z.pos p) / 2 ^ e)).
      { etransitivity; [|apply round_half_even_bounds].
        change 1 with (Qfloor (inject_Z 1)). apply Qfloor_resp_le.
        apply Qle_shift_div_l; [done|]. change (inject_Z 1) with 1%Q.
        rewrite Qmult_1_l. eapply Qle_trans; [|exact Hl]. apply pow2_le. lia. }
      assert (1 <= 2 ^ e)%Q by (change 1%Q with (2 ^ 0)%Q; apply pow2_le; lia).
      apply Qle_trans with (1 * 2 ^ e)%Q; [lra|].
      apply Qmult_le_compat_r; [|lra].
      change 1%Q with (inject_Z 1). by rewrite <- Zle_Qle. }
  assert (1 ≤ Qfloor (round64 (inject_Z n))); [|lia].
  change 1 with (Qfloor (inject_Z 1)). by apply Qfloor_resp_le.
Qed.

(** Rounding at work: ties go to the even neighbour above [2^53]; the
    product of a draw and 62 can reach an integer that the exact product
    stays below; the integers from [2^1024 - 2^970] on are too large. *)
Example round64_examples :
  Qfloor (round64 (inject_Z 9007199254740993)) = 9007199254740992 ∧
  Qfloor (round64 (inject_Z 9007199254740995)) = 9007199254740996 ∧
  Qfloor (round64 ((1162219258676257 # 4503599627370496) * 62)) = 16 ∧
  Qfloor ((1162219258676257 # 4503599627370496) * 62) = 15 ∧
  to_number (10 ^ 400) = Infinity false ∧
  to_number (2 ^ 1024 - 2 ^ 970) = Infinity false ∧
  to_number (2 ^ 1024 - 2 ^ 970 - 1) = Num (2 ^ 1024 - 2 ^ 971) ∧
  to_number (- (2 ^ 1024)) = Infinity true.
Proof. repeat split; vm_compute; reflexivity. Qed.

(** * The anti-forgery key *)

Definition is_alnum (c : ascii) : bool :=
  let n := nat_of_ascii c in
  ((48 <=? n) && (n <=? 57) || (65 <=? n) && (n <=? 90) || (97 <=? n) && (n <=? 122))%nat.

Fixpoint all_alnum (s : string) : bool :=
  match s with
  | EmptyString => true
  | String c rest => is_alnum c && all_alnum rest
  end.

Lemma string_length_app (a b : string) :
  String.length (a ++ b) = (String.length a + String.length b)%nat.
Proof.
  induction a as [|x a IH]; [done|].
  change (S (String.length (a ++ b)) = S (String.length a + String.length b)).
  by rewrite IH.
Qed.

Lemma all_alnum_app (a b : string) :
  all_alnum (a ++ b) = all_alnum a && all_alnum b.
Proof.
  induction a as [|x a IH]; [done|].
  change (is_alnum x && all_alnum (a ++ b) = is_alnum x && all_alnum a && all_alnum b).
  by rewrite IH, andb_assoc.
Qed.

(** Every position of [chars] holds one letter or digit. *)
Lemma charAt_chars (i : Z) :
  0 ≤ i < 62 →
  String.length (charAt chars i) = 1%nat ∧ all_alnum (charAt chars i) = true.
Proof.
  intros Hi.
  assert (Hn : ∃ n : nat, i = Z.of_nat n ∧ (n < 62)%nat).
  { exists (Z.to_nat i). lia. }
  destruct Hn as (n & -> & Hn).
  do 62 (destruct n as [|n]; [by vm_compute|]). lia.
Qed.

(** The index [Math.floor(r * 62)] of a draw [r] lies inside [chars]. *)
Lemma floor_draw (r : Q) :
  is_draw r →
  0 ≤ Qfloor (round64 (r * inject_Z (Z.of_nat (String.length chars)))) < 62.
Proof.
  intros (Hb & H0 & H1).
  change (inject_Z (Z.of_nat (String.length chars))) with 62%Q.
  destruct (round64_draw r Hb H0 H1) as [Hlo Hhi]. split.
  - change 0 with (Qfloor (inject_Z 0)). by apply Qfloor_resp_le.
  - rewrite Zlt_Qlt. eapply Qle_lt_trans; [apply Qfloor_le|]. exact Hhi.
Qed.

Lemma generateXrfKey_loop_spec (random : nat → Q) (n : nat) :
  ∀ i result,
    (∀ j, (i ≤ j < i + n)%nat → is_draw (random j)) →
    String.length (generateXrfKey_loop random n i result)
    = (String.length result + n)%nat ∧
    all_alnum (generateXrfKey_loop random n i result) = all_alnum result.
Proof.
  induction n as [|n IH]; intros i result Hr; cbn [generateXrfKey_loop].
  - split; [lia | done].
  - destruct (IH (S i)
                (result ++ charAt chars
                   (Qfloor (round64 (random i * inject_Z (Z.of_nat (String.length chars)))))))
      as [Hlen Hal].
    { intros j Hj. apply Hr. lia. }
    assert (Hi : is_draw (random i)) by (apply Hr; lia).
    destruct (charAt_chars _ (floor_draw _ Hi)) as [Hc1 Hc2].
    rewrite Hlen, Hal, string_length_app, all_alnum_app, Hc1, Hc2.
    split; [lia | by rewrite andb_true_r].
Qed.

Lemma generateXrfKey_spec (random : nat → Q) :
  (∀ i, (i < 16)%nat → is_draw (random i)) →
  String.length (generateXrfKey random) = 16%nat ∧
  all_alnum (generateXrfKey random) = true.
Proof.
  intros Hr. destruct (generateXrfKey_loop_spec random 16 0%nat "") as [H1 H2].
  { intros j Hj. apply Hr. lia. }
  split; [exact H1 | exact H2].
Qed.

(** ** Every exchange carries the key of the instance *)

Fixpoint header (name : string) (hs : list (string * string)) : option string :=
  match hs with
  | [] => None
  | (n, v) :: rest => if String.eqb name n then Some v else header name rest
  end.

(** The key as it appears on an exchange: in the query string and in the
    header of a REST request, in the header of a socket upgrade. *)
Definition carries_key (key : string) (e : LogEntry) : Prop :=
  match e with
  | LHttp _ c _ =>
      (∃ base, url c = base ++ "?xrfkey=" ++ key) ∧
      header "X-Qlik-Xrfkey" (headers (call_config c)) = Some key
  | LWs _ _ c _ => header "X-Qlik-Xrfkey" (ws_headers c) = Some key
  end.

(** The instance holds [key], both in [xrfKey] and in the header copied
    into [axiosConfig] by the constructor. *)
Definition holds_key (key : string) (this : ODAGLinkCreator) : Prop :=
  xrfKey this = key ∧
  header "X-Qlik-Xrfkey" (headers (axiosConfig this)) = Some key.

(** A computation that keeps the key and puts it on all its exchanges; [Q]
    holds of the value it returns. *)
Definition safe {A : Type} (key : string) (m : M A) (Q : A → Prop) : Prop :=
  ∀ h this, holds_key key this →
    match m h this with
    | (r, this', L) =>
        holds_key key this' ∧ Forall (carries_key key) L ∧ (∀ a, r = Ok a → Q a)
    end.

Section KeySafety.

Variable w : World.
Variable key : string.

Lemma safe_ret {A} (a : A) (Q : A → Prop) : Q a → safe key (mret a) Q.
Proof. intros HQ h this Hk. split; [done|]. split; [done|]. by intros ? [= <-]. Qed.

Lemma safe_throw {A} e (Q : A → Prop) : safe key (throw e) Q.
Proof. intros h this Hk. split; [done|]. split; done. Qed.

Lemma safe_eval {A} (r : Result A) : safe key (eval r) (λ _, True).
Proof. intros h this Hk. split; [done|]. split; done. Qed.

Lemma safe_get_this : safe key get_this (holds_key key).
Proof. intros h this Hk. split; [done|]. split; [done|]. by intros ? [= <-]. Qed.

Lemma safe_assign b : safe key (assign_authenticated b) (λ _, True).
Proof. intros h this Hk. split; [done|]. split; done. Qed.

Lemma safe_bind {A B} (m : M A) (f : A → M B) (P : A → Prop) (Q : B → Prop) :
  safe key m P → (∀ a, P a → safe key (f a) Q) → safe key (m ≫= f) Q.
Proof.
  intros Hm Hf h this Hk. unfold mbind, M_bind.
  specialize (Hm h this Hk). destruct (m h this) as [[[a|e|] this1] l1].
  - destruct Hm as (Hk1 & Hl1 & Ha).
    specialize (Hf a (Ha a eq_refl) (h ++ l1)%list this1 Hk1).
    destruct (f a (h ++ l1)%list this1) as [[r this2] l2].
    destruct Hf as (Hk2 & Hl2 & Hr). split; [done|]. split; [|done].
    by apply Forall_app.
  - destruct Hm as (Hk1 & Hl1 & _). done.
  - destruct Hm as (Hk1 & Hl1 & _). done.
Qed.

Lemma safe_try_catch {A} (m : M A) (handler : JsError → M A) (Q : A → Prop) :
  safe key m Q → (∀ e, safe key (handler e) Q) → safe key (try_catch m handler) Q.
Proof.
  intros Hm Hh h this Hk. unfold try_catch.
  specialize (Hm h this Hk). destruct (m h this) as [[[a|e|] this1] l1]; try done.
  destruct Hm as (Hk1 & Hl1 & _).
  specialize (Hh e (h ++ l1)%list this1 Hk1).
  destruct (handler e (h ++ l1)%list this1) as [[r this2] l2].
  destruct Hh as (Hk2 & Hl2 & Hr). split; [done|]. split; [|done].
  by apply Forall_app.
Qed.

Lemma safe_weaken {A} (m : M A) (P Q : A → Prop) :
  safe key m P → (∀ a, P a → Q a) → safe key m Q.
Proof.
  intros Hm HPQ h this Hk. specialize (Hm h this Hk).
  destruct (m h this) as [[r this1] l1]. destruct Hm as (? & ? & Hr).
  split; [done|]. split; [done|]. intros a Ha. auto.
Qed.

Lemma safe_axios site meth url body :
  (∃ base, url = base ++ "?xrfkey=" ++ key) →
  safe key (axios w site meth url body) (λ _, True).
Proof.
  intros Hurl h this Hk. unfold axios. split; [done|]. split; [|done].
  constructor; [|done]. destruct Hk as [Hx Hh]. simpl. done.
Qed.

Ltac safe_step :=
  first
    [ apply safe_throw
    | apply safe_ret; done
    | eapply safe_bind;
      [ first [ apply safe_get_this | apply safe_eval | apply safe_assign ] | intros ] ].

Lemma safe_authenticate : safe key (authenticate w) (λ _, True).
Proof.
  unfold authenticate. apply safe_try_catch; [|intros; apply safe_throw].
  eapply safe_bind; [apply safe_get_this|]. intros this [Hx Hh]. cbv zeta.
  eapply safe_bind.
  { apply safe_axios. exists (baseUrl (config this) ++ "/qrs/about").
    rewrite Hx, string_app_assoc. reflexivity. }
  intros resp _. destruct (status resp =? 200); repeat safe_step.
Qed.

Lemma safe_ensureAuthenticated : safe key (ensureAuthenticated w) (λ _, True).
Proof.
  unfold ensureAuthenticated.
  eapply safe_bind; [apply safe_get_this|]. intros this _.
  destruct (negb (authenticated this)); [|by apply safe_ret].
  eapply safe_bind; [apply safe_authenticate|]. intros. by apply safe_ret.
Qed.

Lemma safe_validateAppId appId : safe key (validateAppId w appId) (λ _, True).
Proof.
  unfold validateAppId. apply safe_try_catch.
  - eapply safe_bind; [apply safe_ensureAuthenticated|]. intros _ _.
    eapply safe_bind; [apply safe_get_this|]. intros this [Hx Hh]. cbv zeta.
    eapply safe_bind.
    { apply safe_axios.
      exists (baseUrl (config this) ++ "/qrs/app/" ++ js_to_string appId).
      rewrite Hx, !string_app_assoc. reflexivity. }
    intros resp _. case_match; repeat safe_step.
  - intros e. repeat case_match; repeat safe_step.
Qed.

Lemma safe_createODAGLink linkConfig : safe key (createODAGLink w linkConfig) (λ _, True).
Proof.
  unfold createODAGLink. apply safe_try_catch.
  - eapply safe_bind; [apply safe_ensureAuthenticated|]. intros _ _.
    eapply safe_bind; [apply safe_get_this|]. intros this [Hx Hh]. cbv zeta.
    eapply safe_bind; [apply safe_eval|]. intros _ _.
    eapply safe_bind.
    { apply safe_axios.
      exists ("https://" ++ js_to_string (assoc "qlikHost" (config this)) ++ ":"
              ++ js_to_string (assoc "odagPort" (config this)) ++ "/v1/links").
      unfold linksUrl. rewrite Hx, !string_app_assoc. reflexivity. }
    intros resp _. repeat case_match; repeat safe_step.
  - intros e. repeat case_match; repeat safe_step.
Qed.

Lemma safe_addNavigationLinkToApp a b c d :
  safe key (addNavigationLinkToApp w a b c d) (λ _, True).
Proof.
  intros h this [Hx Hh]. unfold addNavigationLinkToApp.
  split; [done|]. split; [|done]. constructor; [|done]. simpl. by rewrite Hx.
Qed.

Lemma safe_check_required options fields :
  safe key (check_required options fields) (λ _, True).
Proof.
  induction fields as [|f fields IH]; simpl; [by apply safe_ret|].
  case_match; [apply safe_throw | done].
Qed.

Lemma safe_createCompleteODAGLink options :
  safe key (createCompleteODAGLink w options) (λ _, True).
Proof.
  unfold createCompleteODAGLink. apply safe_try_catch; [|intros; by apply safe_ret].
  eapply safe_bind; [apply safe_ensureAuthenticated|]. intros _ _. cbv zeta.
  eapply safe_bind; [apply safe_eval|]. intros selectionAppId _.
  case_match; [apply safe_throw|].
  eapply safe_bind; [apply safe_check_required|]. intros _ _.
  eapply safe_bind; [apply safe_validateAppId|]. intros selV _.
  eapply safe_bind; [apply safe_validateAppId|]. intros tmplV _.
  case_match; [apply safe_throw|]. case_match; [apply safe_throw|].
  eapply safe_bind; [apply safe_createODAGLink|]. intros odagLink _.
  apply safe_try_catch; [|intros; by apply safe_ret].
  eapply safe_bind; [apply safe_addNavigationLinkToApp|]. intros. by apply safe_ret.
Qed.

Lemma safe_testConnection : safe key (testConnection w) (λ _, True).
Proof.
  unfold testConnection. apply safe_try_catch; [|intros; by apply safe_ret].
  eapply safe_bind; [apply safe_authenticate|]. intros _ _.
  eapply safe_bind; [apply safe_get_this|]. intros this [Hx Hh].
  eapply (safe_bind _ _ (λ _, True)); [|intros; by apply safe_ret].
  apply safe_try_catch; [|intros; by apply safe_ret].
  eapply (safe_bind _ _ (λ _, True)); [|intros; by apply safe_ret].
  apply safe_axios.
  exists ("https://" ++ js_to_string (assoc "qlikHost" (config this)) ++ ":"
          ++ js_to_string (assoc "odagPort" (config this)) ++ "/v1/links").
  unfold linksUrl. rewrite Hx, !string_app_assoc. reflexivity.
Qed.

End KeySafety.

(** The public methods, called in any order on one instance; a call that
    throws or never completes leaves the instance usable. *)
Inductive Op : Type :=
| CallAuthenticate
| CallEnsureAuthenticated
| CallValidateAppId (appId : JsVal)
| CallCreateODAGLink (linkConfig : JsVal)
| CallAddNavigationLinkToApp (selectionAppId odagLinkId linkName description : JsVal)
| CallCreateCompleteODAGLink (options : JsVal)
| CallTestConnection.

Definition call (w : World) (op : Op) : M unit :=
  match op with
  | CallAuthenticate => _ ← authenticate w; mret tt
  | CallEnsureAuthenticated => ensureAuthenticated w
  | CallValidateAppId appId => _ ← validateAppId w appId; mret tt
  | CallCreateODAGLink linkConfig => _ ← createODAGLink w linkConfig; mret tt
  | CallAddNavigationLinkToApp a b c d => _ ← addNavigationLinkToApp w a b c d; mret tt
  | CallCreateCompleteODAGLink options => _ ← createCompleteODAGLink w options; mret tt
  | CallTestConnection => _ ← testConnection w; mret tt
  end.

Fixpoint calls (w : World) (ops : list Op) (h : list LogEntry) (this : ODAGLinkCreator)
    : ODAGLinkCreator * list LogEntry :=
  match ops with
  | [] => (this, [])
  | op :: rest =>
      match call w op h this with
      | (_, this1, l1) =>
          match calls w rest (h ++ l1)%list this1 with
          | (this2, l2) => (this2, (l1 ++ l2)%list)
          end
      end
  end.

Lemma safe_call w key op : safe key (call w op) (λ _, True).
Proof.
  destruct op; simpl;
    try (eapply safe_bind; [|intros; by apply safe_ret]);
    eauto using safe_authenticate, safe_ensureAuthenticated, safe_validateAppId,
      safe_createODAGLink, safe_addNavigationLinkToApp, safe_createCompleteODAGLink,
      safe_testConnection.
Qed.

Lemma calls_safe w key ops : ∀ h this,
  holds_key key this →
  holds_key key (calls w ops h this).1 ∧ Forall (carries_key key) (calls w ops h this).2.
Proof.
  induction ops as [|op ops IH]; intros h this Hk; simpl; [done|].
  pose proof (safe_call w key op h this Hk) as Hc.
  destruct (call w op h this) as [[r this1] l1]. destruct Hc as (Hk1 & Hl1 & _).
  specialize (IH (h ++ l1)%list this1 Hk1).
  destruct (calls w ops (h ++ l1)%list this1) as [this2 l2]. simpl in *.
  destruct IH as [Hk2 Hl2]. split; [done|]. by apply Forall_app.
Qed.

Lemma constructor_holds_key readFileSync random config this :
  constructor readFileSync random config = Ok this →
  xrfKey this = generateXrfKey random ∧ holds_key (xrfKey this) this.
Proof.
  unfold constructor, mbind, Result_bind, mret, Result_ret.
  destruct (get config "qlikHost"); try done.
  repeat (match goal with
          | |- context [readFileSync ?p] => destruct (readFileSync p); try done
          end).
  intros [= <-]. done.
Qed.

(** C8: the key of a constructed instance is the one string produced by
    [generateXrfKey] in the constructor, sixteen letters and digits long
    whatever [Math.random()] draws; through any sequence of calls of the
    methods it stays in place, and every REST request carries it in the
    query string and in the [X-Qlik-Xrfkey] header, every socket upgrade in
    that header. *)
Theorem C8_key_generated_once (readFileSync : string → Result string)
    (random : nat → Q) (config : JsVal) (this : ODAGLinkCreator) :
  (∀ i, (i < 16)%nat → is_draw (random i)) →
  constructor readFileSync random config = Ok this →
  xrfKey this = generateXrfKey random ∧
  String.length (xrfKey this) = 16%nat ∧
  all_alnum (xrfKey this) = true ∧
  ∀ w ops h,
    xrfKey (calls w ops h this).1 = xrfKey this ∧
    Forall (carries_key (xrfKey this)) (calls w ops h this).2.
Proof.
  intros Hr Hc. destruct (constructor_holds_key _ _ _ _ Hc) as [Hx Hk].
  destruct (generateXrfKey_spec random Hr) as [Hlen Hal].
  rewrite Hx at 1 2 3. repeat split; try done.
  - destruct (calls_safe w (xrfKey this) ops h this Hk) as [[? _] _]. done.
  - by destruct (calls_safe w (xrfKey this) ops h this Hk) as [_ ?].
Qed.

Lemma C8_key_generated_once_witness :
  let w := scripted [ about_ok; app_found "A" "Sales"; app_found "B" "Detail";
                      ok200 (JObj [ ("id", JStr "link-1") ]);
                      about_ok; about_ok; rejected 500 JNull ]
                    [ EvOpen; reply_handle 1 (JNum 7); reply_ok 2; reply_ok 3 ] in
  let ops := [ CallCreateCompleteODAGLink sample_options; CallTestConnection ] in
  (∀ i, (i < 16)%nat → is_draw (sample_random i)) ∧
  xrfKey sample_instance = "beilpsvzCFJMQTW0" ∧
  length (calls w ops [] sample_instance).2 = 7%nat ∧
  Forall (carries_key "beilpsvzCFJMQTW0") (calls w ops [] sample_instance).2.
Proof.
  intros w ops.
  assert (Hr : ∀ i, (i < 16)%nat → is_draw (sample_random i)).
  { intros i Hi. split.
    - exists (Z.of_nat (7 * i + 3)), (-7). split; [lia|]. split; [lia|].
      unfold sample_random, Qeq. simpl. lia.
    - do 16 (destruct i as [|i]; [split; [discriminate | reflexivity]|]).
      exfalso. lia. }
  destruct (C8_key_generated_once sample_readFileSync sample_random sample_config
              sample_instance Hr sample_instance_constructed) as (_ & _ & _ & Hcalls).
  split; [exact Hr|].
  split; [vm_compute; reflexivity|]. split; [vm_compute; reflexivity|].
  exact (proj2 (Hcalls w ops [])).
Defined.

(** * The orchestration, summarised *)

(** The three objects [createCompleteODAGLink] returns. *)
Definition failure (msg : string) : JsVal :=
  JObj [ ("success", JBool false); ("error", JStr msg) ].

Definition success_result (options odagLink selV tmplV : JsVal) : JsVal :=
  JObj [ ("success", JBool true);
         ("odagLinkId", field odagLink "id");
         ("selectionAppId", field options "selectionAppId");
         ("templateAppId", field options "templateAppId");
         ("selectionAppName", field selV "name");
         ("templateAppName", field tmplV "name");
         ("message", JStr "ODAG link created and registered in Hub successfully") ].

Definition partial_result (options odagLink selV tmplV : JsVal) (navError : string)
    : JsVal :=
  JObj [ ("success", JBool true);
         ("partial", JBool true);
         ("odagLinkId", field odagLink "id");
         ("selectionAppId", field options "selectionAppId");
         ("templateAppId", field options "templateAppId");
         ("selectionAppName", field selV "name");
         ("templateAppName", field tmplV "name");
         ("message",
          JStr "ODAG link created successfully. Navigation link must be added manually.");
         ("navigationLinkError", JStr navError) ].

(** [linkConfig] as [createCompleteODAGLink] builds it. *)
Definition linkConfig_of (options : JsVal) : JsVal :=
  JObj [ ("name", field options "linkName");
         ("selectionAppId", field options "selectionAppId");
         ("templateAppId", field options "templateAppId");
         ("rowEstExpr", field options "rowEstExpr");
         ("rowEstRange", field options "rowEstRange");
         ("appRetentionTime", field options "appRetentionTime");
         ("genAppName", field options "genAppName") ].

(** The socket opened by [addNavigationLinkToApp]. *)
Definition ws_connect (this : ODAGLinkCreator) (selectionAppId : JsVal) : WsConnect :=
  mkWsConnect (wsUrl_of this selectionAppId)
    [ ("X-Qlik-Xrfkey", xrfKey this); ("X-Qlik-User", qlik_user (config this)) ]
    (httpsAgent this) 10000.

Lemma ws_connect_stable this this' sel :
  stable this this' → ws_connect this' sel = ws_connect this sel.
Proof.
  intros (Hc&Hg&Hx&_&_). unfold ws_connect, wsUrl_of. by rewrite Hc, Hg, Hx.
Qed.

(** All four required fields are set. *)
Definition fields_ok (options : JsVal) : Prop :=
  truthy (js_and (field options "selectionAppId") (field options "templateAppId")) = true ∧
  truthy (field options "linkName") = true ∧
  truthy (field options "rowEstExpr") = true.

Section Orchestration.

Variables (w : World) (options : JsVal) (h : list LogEntry) (this : ODAGLinkCreator).

Let S := field options "selectionAppId".
Let T := field options "templateAppId".

(** The failures that precede the first lookup. *)
Definition early_failure (A : list LogEntry) (msg : string) : Prop :=
  (authenticated this = false ∧
   ∃ m, msg = "Authentication failed: " ++ m ∧ failed_probe A m) ∨
  (nullish options = true ∧ msg = message (type_error options "selectionAppId")) ∨
  (nullish options = false ∧ truthy (js_and S T) = false ∧
   msg = "Missing required fields: selectionAppId and templateAppId are required") ∨
  (truthy (js_and S T) = true ∧ truthy (field options "linkName") = false ∧
   msg = "Missing required field: linkName") ∨
  (truthy (js_and S T) = true ∧ truthy (field options "linkName") = true ∧
   truthy (field options "rowEstExpr") = false ∧
   msg = "Missing required field: rowEstExpr").

(** The exchanges [V] and the completion [r] of [validateAppId appId]
    started after the history [hist]. *)
Definition validate_shape (appId : JsVal) (hist V : list LogEntry) (r : Result JsVal)
    : Prop :=
  ∃ A, Forall is_auth A ∧
    ((V = A ∧
      ∃ m, r = Throw (Error ("Failed to validate app ID " ++ js_to_string appId
                             ++ ": Authentication failed: " ++ m)) ∧
           failed_probe A m)
     ∨ (V = (A ++ [LHttp (SiteValidateApp appId) (app_call this appId)
                     (http w (hist ++ A)%list (app_call this appId))])%list ∧
        r = validate_result appId (http w (hist ++ A)%list (app_call this appId)))).

(** The same for [createODAGLink linkConfig]. *)
Definition create_shape (linkConfig : JsVal) (hist C : list LogEntry) (r : Result JsVal)
    : Prop :=
  ∃ A, Forall is_auth A ∧
    ((C = A ∧
      ∃ m, r = Throw (Error ("Failed to create ODAG link: Authentication failed: " ++ m)) ∧
           failed_probe A m)
     ∨ (C = (A ++ [LHttp SiteCreateLink (link_call this linkConfig)
                     (http w (hist ++ A)%list (link_call this linkConfig))])%list ∧
        r = link_result (http w (hist ++ A)%list (link_call this linkConfig)))).

(** The ways [createCompleteODAGLink options] completes, with its exchanges. *)
Inductive completes : Result JsVal → list LogEntry → Prop :=
| done_early A msg :
    auth_log this A → early_failure A msg →
    completes (Ok (failure msg)) A
| done_selection_threw A V1 e :
    auth_log this A → fields_ok options →
    validate_shape S (h ++ A) V1 (Throw e) →
    completes (Ok (failure (message e))) (A ++ V1)
| done_template_threw A V1 v1 V2 e :
    auth_log this A → fields_ok options →
    validate_shape S (h ++ A) V1 (Ok v1) →
    validate_shape T (h ++ A ++ V1) V2 (Throw e) →
    completes (Ok (failure (message e))) (A ++ V1 ++ V2)
| done_selection_invalid A V1 v1 V2 v2 :
    auth_log this A → fields_ok options →
    validate_shape S (h ++ A) V1 (Ok v1) →
    validate_shape T (h ++ A ++ V1) V2 (Ok v2) →
    truthy (field v1 "valid") = false →
    completes (Ok (failure ("Selection app validation failed: "
                            ++ js_to_string (field v1 "error"))))
              (A ++ V1 ++ V2)
| done_template_invalid A V1 v1 V2 v2 :
    auth_log this A → fields_ok options →
    validate_shape S (h ++ A) V1 (Ok v1) →
    validate_shape T (h ++ A ++ V1) V2 (Ok v2) →
    truthy (field v1 "valid") = true →
    truthy (field v2 "valid") = false →
    completes (Ok (failure ("Template app validation failed: "
                            ++ js_to_string (field v2 "error"))))
              (A ++ V1 ++ V2)
| done_creation_threw A V1 v1 V2 v2 C e :
    auth_log this A → fields_ok options →
    validate_shape S (h ++ A) V1 (Ok v1) →
    validate_shape T (h ++ A ++ V1) V2 (Ok v2) →
    truthy (field v1 "valid") = true →
    truthy (field v2 "valid") = true →
    create_shape (linkConfig_of options) (h ++ A ++ V1 ++ V2) C (Throw e) →
    completes (Ok (failure (message e))) (A ++ V1 ++ V2 ++ C)
| done_navigated A V1 v1 V2 v2 C odagLink :
    auth_log this A → fields_ok options →
    validate_shape S (h ++ A) V1 (Ok v1) →
    validate_shape T (h ++ A ++ V1) V2 (Ok v2) →
    truthy (field v1 "valid") = true →
    truthy (field v2 "valid") = true →
    create_shape (linkConfig_of options) (h ++ A ++ V1 ++ V2) C (Ok odagLink) →
    let script := ws w (h ++ A ++ V1 ++ V2 ++ C) (ws_connect this S) in
    completes
      (match promise (run_session S (field odagLink "id") script) with
       | Resolved _ => Ok (success_result options odagLink v1 v2)
       | Rejected e => Ok (partial_result options odagLink v1 v2 (message e))
       | Pending => Hang
       end)
      (A ++ V1 ++ V2 ++ C ++ [LWs S (field odagLink "id") (ws_connect this S) script]).

End Orchestration.

(** ** Running a method: [run m h this r this' L] *)

Definition run {A : Type} (m : M A) (h : list LogEntry) (this : ODAGLinkCreator)
    (r : Result A) (this' : ODAGLinkCreator) (L : list LogEntry) : Prop :=
  m h this = (r, this', L).

Lemma run_ret {A : Type} (a : A) h this : run (mret a) h this (Ok a) this [].
Proof. reflexivity. Qed.

Lemma run_throw {A : Type} e h this : run (@throw A e) h this (Throw e) this [].
Proof. reflexivity. Qed.

Lemma run_bind_ok {A B : Type} (m : M A) (f : A → M B) h this a this1 l1 r this2 l2 :
  run m h this (Ok a) this1 l1 →
  run (f a) (h ++ l1) this1 r this2 l2 →
  run (m ≫= f) h this r this2 (l1 ++ l2).
Proof.
  unfold run, mbind, M_bind. intros -> Hf. by rewrite Hf.
Qed.

Lemma run_bind_throw {A B : Type} (m : M A) (f : A → M B) h this e this1 l1 :
  run m h this (Throw e) this1 l1 →
  run (m ≫= f) h this (Throw e) this1 l1.
Proof. unfold run, mbind, M_bind. by intros ->. Qed.

Lemma run_bind_hang {A B : Type} (m : M A) (f : A → M B) h this this1 l1 :
  run m h this Hang this1 l1 →
  run (m ≫= f) h this Hang this1 l1.
Proof. unfold run, mbind, M_bind. by intros ->. Qed.

Lemma run_try_ok {A : Type} (m : M A) handler h this a this1 l1 :
  run m h this (Ok a) this1 l1 →
  run (try_catch m handler) h this (Ok a) this1 l1.
Proof. unfold run, try_catch. by intros ->. Qed.

Lemma run_try_hang {A : Type} (m : M A) handler h this this1 l1 :
  run m h this Hang this1 l1 →
  run (try_catch m handler) h this Hang this1 l1.
Proof. unfold run, try_catch. by intros ->. Qed.

Lemma run_try_throw {A : Type} (m : M A) handler h this e this1 l1 r this2 l2 :
  run m h this (Throw e) this1 l1 →
  run (handler e) (h ++ l1) this1 r this2 l2 →
  run (try_catch m handler) h this r this2 (l1 ++ l2).
Proof. unfold run, try_catch. intros -> Hh. by rewrite Hh. Qed.

Lemma run_check_required options hist this :
  run (check_required options ["linkName"; "rowEstExpr"]) hist this
      (if truthy (field options "linkName") then
         if truthy (field options "rowEstExpr") then Ok tt
         else Throw (Error "Missing required field: rowEstExpr")
       else Throw (Error "Missing required field: linkName"))
      this [].
Proof.
  unfold run. simpl.
  destruct (truthy (field options "linkName")); [|done].
  destruct (truthy (field options "rowEstExpr")); done.
Qed.

Lemma run_addNavigationLinkToApp w sel link name description hist this :
  run (addNavigationLinkToApp w sel link name description) hist this
      (match promise (run_session sel link (ws w hist (ws_connect this sel))) with
       | Pending => Hang
       | Resolved v => Ok v
       | Rejected e => Throw e
       end)
      this
      [LWs sel link (ws_connect this sel) (ws w hist (ws_connect this sel))].
Proof. reflexivity. Qed.

Lemma validate_result_valid appId o v :
  validate_result appId o = Ok v →
  (truthy (field v "valid") = true ∧
   ∃ resp, o = AxResolved resp ∧
           truthy (js_and (data resp) (field (data resp) "id")) = true ∧
           v = JObj [ ("valid", JBool true);
                      ("name", field (data resp) "name");
                      ("id", field (data resp) "id");
                      ("published", field (data resp) "published") ])
  ∨ (truthy (field v "valid") = false ∧
     field v "error" = JStr ("App ID not found: " ++ js_to_string appId) ∧
     ∃ e dt, o = AxRejected e ∧ response e = Some (404, dt)).
Proof.
  unfold validate_result. destruct o as [resp|e].
  - case_match; [|done]. intros [= <-]. left. eauto.
  - destruct (response e) as [[st dt]|] eqn:He; [|done].
    destruct (st =? 404) eqn:Hst; [|done]. intros [= <-]. right.
    apply Z.eqb_eq in Hst as ->. eauto 10.
Qed.

Lemma validate_result_not_hang appId o : validate_result appId o ≠ Hang.
Proof. unfold validate_result. repeat case_match; done. Qed.

Lemma link_result_not_hang o : link_result o ≠ Hang.
Proof. unfold link_result. repeat case_match; done. Qed.

Lemma auth_log_is_auth this A : auth_log this A → Forall is_auth A.
Proof. by intros [? _]. Qed.

Lemma validateAppId_shape w this appId hist thisX :
  stable this thisX →
  ∃ r thisY V,
    run (validateAppId w appId) hist thisX r thisY V ∧
    stable this thisY ∧ validate_shape w this appId hist V r ∧ r ≠ Hang.
Proof.
  intros Hst.
  destruct (validateAppId_cases w appId hist thisX)
    as (r & thisY & A & tail & E & HA & Hst' & Hcase).
  exists r, thisY, (A ++ tail)%list. split; [exact E|].
  split; [by eapply stable_trans|].
  rewrite (app_call_stable this thisX appId Hst) in Hcase.
  destruct Hcase as [[-> [m [-> Hp]]] | [-> ->]].
  - split; [|done]. exists A. split; [by eapply auth_log_is_auth|].
    left. rewrite app_nil_r. eauto.
  - split; [|apply validate_result_not_hang].
    exists A. split; [by eapply auth_log_is_auth|]. right. done.
Qed.

Lemma createODAGLink_shape w this linkConfig hist thisX :
  stable this thisX → nullish linkConfig = false →
  ∃ r thisY C,
    run (createODAGLink w linkConfig) hist thisX r thisY C ∧
    stable this thisY ∧ create_shape w this linkConfig hist C r ∧ r ≠ Hang.
Proof.
  intros Hst Hn.
  destruct (createODAGLink_cases w linkConfig hist thisX)
    as (r & thisY & A & tail & E & HA & Hst' & Hcase).
  exists r, thisY, (A ++ tail)%list. split; [exact E|].
  split; [by eapply stable_trans|].
  rewrite (link_call_stable this thisX linkConfig Hst) in Hcase.
  destruct Hcase as [[-> [m [-> [Hn' | [m' [-> Hp]]]]]] | (_ & -> & ->)].
  - congruence.
  - split; [|done]. exists A. split; [by eapply auth_log_is_auth|].
    left. rewrite app_nil_r. eauto.
  - split; [|apply link_result_not_hang].
    exists A. split; [by eapply auth_log_is_auth|]. right. done.
Qed.

(** The steps of [createCompleteODAGLink] up to the first lookup, and up to
    the creation of the link. *)
Ltac past_fields E0 Heval Hids Hcheck :=
  eapply run_bind_ok; [exact E0|]; cbv zeta;
  eapply run_bind_ok; [apply Heval|]; cbv beta;
  rewrite Hids; cbn [negb];
  eapply run_bind_ok; [apply Hcheck|].

Ltac past_validation E1 E2 Hv1 Hv2 :=
  eapply run_bind_ok; [exact E1|];
  eapply run_bind_ok; [exact E2|]; cbv beta;
  rewrite Hv1, Hv2; cbn [negb].

Lemma createCompleteODAGLink_completes w options h this :
  ∃ r this' L,
    run (createCompleteODAGLink w options) h this r this' L ∧
    stable this this' ∧ completes w options h this r L.
Proof.
  unfold createCompleteODAGLink.
  destruct (ensureAuthenticated_cases w h this) as (r0 & this0 & A0 & E0 & HA0 & Hst0 & Hr0).
  destruct Hr0 as [->|[Hna [m [-> Hprobe]]]].
  2: { eexists _, _, _. split.
       { eapply run_try_throw; [eapply run_bind_throw; exact E0 | apply run_ret]. }
       split; [done|]. rewrite app_nil_r. apply done_early; [done|]. left. eauto. }
  destruct (nullish options) eqn:Hnull.
  { eexists _, _, _. split.
    { eapply run_try_throw; [|apply run_ret].
      eapply run_bind_ok; [exact E0|]. cbv zeta.
      eapply run_bind_throw. unfold run, eval, get. rewrite Hnull. reflexivity. }
    split; [done|]. rewrite !app_nil_r. apply done_early; [done|]. right. left. done. }
  assert (Heval : ∀ hist, run (eval (get options "selectionAppId")) hist this0
                            (Ok (field options "selectionAppId")) this0 []).
  { intros hist. unfold run, eval, get. by rewrite Hnull. }
  destruct (truthy (js_and (field options "selectionAppId")
                           (field options "templateAppId"))) eqn:Hids.
  2: { eexists _, _, _. split.
       { eapply run_try_throw; [|apply run_ret].
         eapply run_bind_ok; [exact E0|]. cbv zeta.
         eapply run_bind_ok; [apply Heval|]. cbv beta. rewrite Hids. cbn [negb].
         apply run_throw. }
       split; [done|]. rewrite !app_nil_r. apply done_early; [done|].
       right. right. left. done. }
  pose proof (λ hist, run_check_required options hist this0) as Hcheck.
  destruct (truthy (field options "linkName")) eqn:Hname.
  2: { eexists _, _, _. split.
       { eapply run_try_throw; [|apply run_ret].
         eapply run_bind_ok; [exact E0|]. cbv zeta.
         eapply run_bind_ok; [apply Heval|]. cbv beta. rewrite Hids. cbn [negb].
         eapply run_bind_throw. apply Hcheck. }
       split; [done|]. rewrite !app_nil_r. apply done_early; [done|].
       right. right. right. left. done. }
  destruct (truthy (field options "rowEstExpr")) eqn:Hexpr.
  2: { eexists _, _, _. split.
       { eapply run_try_throw; [|apply run_ret].
         eapply run_bind_ok; [exact E0|]. cbv zeta.
         eapply run_bind_ok; [apply Heval|]. cbv beta. rewrite Hids. cbn [negb].
         eapply run_bind_throw. apply Hcheck. }
       split; [done|]. rewrite !app_nil_r. apply done_early; [done|].
       right. right. right. right. done. }
  assert (Hfields : fields_ok options) by done.
  set (S := field options "selectionAppId") in *.
  set (T := field options "templateAppId") in *.
  destruct (validateAppId_shape w this S (h ++ A0) this0 Hst0)
    as (r1 & this1 & V1 & E1 & Hst1 & Hsh1 & Hnh1).
  assert (E1' : run (validateAppId w S) (((h ++ A0) ++ []) ++ []) this0 r1 this1 V1).
  { by rewrite !app_nil_r. }
  destruct r1 as [v1|e1|]; [| |done].
  2: { eexists _, _, _. split.
       { eapply run_try_throw; [|apply run_ret].
         past_fields E0 Heval Hids Hcheck.
         eapply run_bind_throw. exact E1'. }
       split; [done|]. simpl. rewrite !app_nil_r. by apply done_selection_threw. }
  destruct (validateAppId_shape w this T (h ++ A0 ++ V1) this1 Hst1)
    as (r2 & this2 & V2 & E2 & Hst2 & Hsh2 & Hnh2).
  assert (E2' : run (validateAppId w T) ((((h ++ A0) ++ []) ++ []) ++ V1) this1 r2 this2 V2).
  { by rewrite !app_nil_r, <- !app_assoc. }
  destruct r2 as [v2|e2|]; [| |done].
  2: { eexists _, _, _. split.
       { eapply run_try_throw; [|apply run_ret].
         past_fields E0 Heval Hids Hcheck.
         eapply run_bind_ok; [exact E1'|].
         eapply run_bind_throw. exact E2'. }
       split; [done|]. simpl. rewrite !app_nil_r, <- ?app_assoc.
       by eapply done_template_threw. }
  destruct (truthy (field v1 "valid")) eqn:Hv1.
  2: { eexists _, _, _. split.
       { eapply run_try_throw; [|apply run_ret].
         past_fields E0 Heval Hids Hcheck.
         eapply run_bind_ok; [exact E1'|].
         eapply run_bind_ok; [exact E2'|]. cbv beta. rewrite Hv1. cbn [negb].
         apply run_throw. }
       split; [done|]. simpl. rewrite !app_nil_r, <- ?app_assoc.
       by eapply done_selection_invalid. }
  destruct (truthy (field v2 "valid")) eqn:Hv2.
  2: { eexists _, _, _. split.
       { eapply run_try_throw; [|apply run_ret].
         past_fields E0 Heval Hids Hcheck.
         past_validation E1' E2' Hv1 Hv2.
         apply run_throw. }
       split; [done|]. simpl. rewrite !app_nil_r, <- ?app_assoc.
       by eapply done_template_invalid. }
  destruct (createODAGLink_shape w this (linkConfig_of options) (h ++ A0 ++ V1 ++ V2)
              this2 Hst2 eq_refl)
    as (r3 & this3 & C & E3 & Hst3 & Hsh3 & Hnh3).
  assert (E3' : run (createODAGLink w (linkConfig_of options))
                    (((((h ++ A0) ++ []) ++ []) ++ V1) ++ V2) this2 r3 this3 C).
  { by rewrite !app_nil_r, <- !app_assoc. }
  destruct r3 as [odagLink|e3|]; [| |done].
  2: { eexists _, _, _. split.
       { eapply run_try_throw; [|apply run_ret].
         past_fields E0 Heval Hids Hcheck.
         past_validation E1' E2' Hv1 Hv2.
         eapply run_bind_throw. exact E3'. }
       split; [done|]. simpl. rewrite !app_nil_r, <- ?app_assoc.
       by eapply done_creation_threw. }
  pose proof (done_navigated w options h this A0 V1 v1 V2 v2 C odagLink
                HA0 Hfields Hsh1 Hsh2 Hv1 Hv2 Hsh3) as Hnav.
  cbv zeta in Hnav. fold S in Hnav.
  pose proof (run_addNavigationLinkToApp w S (field odagLink "id")
                (field options "linkName")
                (js_or (field options "description")
                       (JStr "On-demand app generation link"))
                ((((((h ++ A0) ++ []) ++ []) ++ V1) ++ V2) ++ C) this3) as E4.
  rewrite (ws_connect_stable this this3 S Hst3) in E4.
  assert (Hh : ((((((h ++ A0) ++ []) ++ []) ++ V1) ++ V2) ++ C
                = h ++ A0 ++ V1 ++ V2 ++ C)%list).
  { by rewrite !app_nil_r, <- !app_assoc. }
  rewrite Hh in E4 at 2 3. clear Hh.
  destruct (promise (run_session S (field odagLink "id")
                       (ws w (h ++ A0 ++ V1 ++ V2 ++ C) (ws_connect this S))))
    as [|v|e4] eqn:Hp.
  - eexists _, _, _. split.
    { eapply run_try_hang.
      past_fields E0 Heval Hids Hcheck.
      past_validation E1' E2' Hv1 Hv2.
      eapply run_bind_ok; [exact E3'|].
      eapply run_try_hang. eapply run_bind_hang. exact E4. }
    split; [done|]. simpl. rewrite ?app_nil_r, <- ?app_assoc. exact Hnav.
  - eexists _, _, _. split.
    { eapply run_try_ok.
      past_fields E0 Heval Hids Hcheck.
      past_validation E1' E2' Hv1 Hv2.
      eapply run_bind_ok; [exact E3'|].
      eapply run_try_ok. eapply run_bind_ok; [exact E4|]. apply run_ret. }
    split; [done|]. simpl. rewrite ?app_nil_r, <- ?app_assoc. exact Hnav.
  - eexists _, _, _. split.
    { eapply run_try_ok.
      past_fields E0 Heval Hids Hcheck.
      past_validation E1' E2' Hv1 Hv2.
      eapply run_bind_ok; [exact E3'|].
      eapply run_try_throw; [eapply run_bind_throw; exact E4 | apply run_ret]. }
    split; [done|]. simpl. rewrite ?app_nil_r, <- ?app_assoc. exact Hnav.
Qed.

(** * Claims about the orchestration *)

(** A required field is absent or falsy. *)
Definition missing_field (options : JsVal) : Prop :=
  truthy (field options "selectionAppId") = false ∨
  truthy (field options "templateAppId") = false ∨
  truthy (field options "linkName") = false ∨
  truthy (field options "rowEstExpr") = false.

Lemma missing_field_not_ok options : missing_field options → ¬ fields_ok options.
Proof.
  intros Hm (Hids & Hn & He). rewrite truthy_js_and in Hids.
  apply andb_true_iff in Hids as [? ?].
  destruct Hm as [?|[?|[?|?]]]; congruence.
Qed.

(** The fail-fast clause as the specification words it: a missing-field
    failure, and no exchange with the remote systems at all. *)
Definition fails_fast_as_specified (w : World) (options : JsVal) (h : list LogEntry)
    (this : ODAGLinkCreator) : Prop :=
  let result := createCompleteODAGLink w options h this in
  result.2 = [] ∧
  ∃ msg, result.1.1 = Ok (failure msg) ∧ String.prefix "Missing required field" msg = true.

(** C4, counterexample: a request without application ids, on an instance
    that has not authenticated yet.  The probe of [ensureAuthenticated] is
    issued before the fields are looked at; when it is refused, the failure
    is the authentication error. *)
Lemma C4_counterexample :
  let options := JObj [ ("linkName", JStr "Sales Detail"); ("rowEstExpr", JStr "Sum(X)") ] in
  ¬ fails_fast_as_specified (scripted [about_ok] []) options [] sample_instance ∧
  (createCompleteODAGLink (scripted [about_ok] []) options [] sample_instance).2
  = [LHttp SiteAuthenticate (about_call sample_instance) about_ok] ∧
  (createCompleteODAGLink (scripted [] []) options [] sample_instance).1.1
  = Ok (failure "Authentication failed: connect ECONNREFUSED").
Proof.
  split; [|split; vm_compute; reflexivity].
  intros [Hlog _]. vm_compute in Hlog. discriminate Hlog.
Qed.

(** [ensureAuthenticated], by the answer to the probe it may issue. *)
Lemma ensureAuthenticated_eq w h this :
  ensureAuthenticated w h this
  = if authenticated this then (Ok tt, this, [])
    else
      let o := http w h (about_call this) in
      (match authenticate_result o with
       | Ok _ => Ok tt
       | Throw e => Throw e
       | Hang => Hang
       end,
       match authenticate_result o with
       | Ok (JBool true) => set_authenticated true this
       | _ => this
       end,
       [LHttp SiteAuthenticate (about_call this) o]).
Proof.
  unfold ensureAuthenticated, mbind, M_bind, get_this, mret, M_ret. simpl.
  destruct (authenticated this); simpl; [done|].
  rewrite authenticate_eq. cbv zeta. rewrite ?app_nil_r.
  destruct (authenticate_result (http w h (about_call this))) as [v|e|]; simpl;
    rewrite ?app_nil_r; done.
Qed.

Lemma authenticate_result_throw o e :
  authenticate_result o = Throw e → ∃ m, message e = "Authentication failed: " ++ m.
Proof. unfold authenticate_result. repeat case_match; intros [= <-]; simpl; eauto. Qed.

(** C4, amended: a request in which a required field is missing makes no
    exchange other than the one authentication probe of
    [ensureAuthenticated], which comes first and is skipped on an
    authenticated instance.  When that probe fails, the result is the
    authentication error.  Otherwise the result is a failure whose error
    names both application ids when either is missing; [linkName] when both
    ids are given and it is missing; and [rowEstExpr] when only that one is
    missing. *)
Theorem C4_missing_field (w : World) (options : JsVal) (h : list LogEntry)
    (this this' : ODAGLinkCreator) (r : Result JsVal) (L : list LogEntry) :
  createCompleteODAGLink w options h this = (r, this', L) →
  nullish options = false →
  missing_field options →
  let given name := truthy (field options name) in
  let missing :=
    if negb (given "selectionAppId" && given "templateAppId")
    then "Missing required fields: selectionAppId and templateAppId are required"
    else if negb (given "linkName") then "Missing required field: linkName"
    else "Missing required field: rowEstExpr" in
  let probe := http w h (about_call this) in
  if authenticated this then
    L = [] ∧ r = Ok (failure missing)
  else
    L = [LHttp SiteAuthenticate (about_call this) probe] ∧
    match authenticate_result probe with
    | Throw e =>
        r = Ok (failure (message e)) ∧ ∃ m, message e = "Authentication failed: " ++ m
    | _ => r = Ok (failure missing)
    end.
Proof.
  intros Hrun Hnull Hmissing. cbv zeta.
  assert (Hids : truthy (js_and (field options "selectionAppId") (field options "templateAppId"))
                 = truthy (field options "selectionAppId")
                   && truthy (field options "templateAppId")) by apply truthy_js_and.
  assert (Hfields : ∀ hist this0,
    createCompleteODAGLink w options hist this0
    = match ensureAuthenticated w hist this0 with
      | (Ok _, this1, l1) =>
          (Ok (failure
                 (if negb (truthy (field options "selectionAppId")
                           && truthy (field options "templateAppId"))
                  then "Missing required fields: selectionAppId and templateAppId are required"
                  else if negb (truthy (field options "linkName"))
                       then "Missing required field: linkName"
                       else "Missing required field: rowEstExpr")), this1, l1)
      | (Throw e, this1, l1) => (Ok (failure (message e)), this1, l1)
      | (Hang, this1, l1) => (Hang, this1, l1)
      end).
  { intros hist this0.
    unfold createCompleteODAGLink, try_catch, mbind, M_bind.
    destruct (ensureAuthenticated w hist this0) as [[[[]|e|] this1] l1]; simpl;
      rewrite ?app_nil_r; [|done..].
    unfold eval, get. rewrite Hnull. simpl. rewrite Hids.
    destruct (truthy (field options "selectionAppId")) eqn:HS;
      destruct (truthy (field options "templateAppId")) eqn:HT; simpl;
      rewrite ?app_nil_r; try done.
    destruct (truthy (field options "linkName")) eqn:HN; simpl; rewrite ?app_nil_r;
      [|done].
    destruct (truthy (field options "rowEstExpr")) eqn:HE; simpl; rewrite ?app_nil_r;
      [|done].
    exfalso. destruct Hmissing as [?|[?|[?|?]]]; congruence. }
  rewrite Hfields, ensureAuthenticated_eq in Hrun.
  destruct (authenticated this).
  - by injection Hrun as <- <- <-.
  - cbv zeta in Hrun.
    destruct (authenticate_result (http w h (about_call this))) as [v|e|] eqn:Hprobe.
    + by injection Hrun as <- <- <-.
    + injection Hrun as <- <- <-. split; [done|]. split; [done|].
      by eapply authenticate_result_throw.
    + exfalso. unfold authenticate_result in Hprobe. repeat case_match; done.
Qed.

Lemma C4_missing_field_witness :
  let options := JObj [ ("selectionAppId", JStr "A"); ("templateAppId", JStr "B");
                        ("linkName", JStr ""); ("rowEstExpr", JStr "") ] in
  let this := set_authenticated true sample_instance in
  nullish options = false ∧ missing_field options ∧
  createCompleteODAGLink (scripted [] []) options [] this
  = (Ok (failure "Missing required field: linkName"), this, []).
Proof.
  intros options this.
  assert (Hm : missing_field options) by (right; right; left; reflexivity).
  assert (E : createCompleteODAGLink (scripted [] []) options [] this
              = ((createCompleteODAGLink (scripted [] []) options [] this).1.1, this, 
                 (createCompleteODAGLink (scripted [] []) options [] this).2))
    by (vm_compute; reflexivity).
  destruct (C4_missing_field _ _ _ _ _ _ _ E eq_refl Hm) as [HL Hr].
  split; [reflexivity|]. split; [exact Hm|]. rewrite E, HL, Hr. reflexivity.
Defined.

(** ** Lookups that report an application as not found *)

(** [e] is a lookup of [appId] answered 404, which [validateAppId] turns
    into [{valid: false}]. *)
Definition reported_invalid (appId : JsVal) (e : LogEntry) : Prop :=
  ∃ c err dt, e = LHttp (SiteValidateApp appId) c (AxRejected err) ∧
              response err = Some (404, dt).

(** The exchanges that change the remote systems: the creation request and
    the engine socket. *)
Definition is_mutating (e : LogEntry) : Prop :=
  match e with
  | LHttp SiteCreateLink _ _ => True
  | LWs _ _ _ _ => True
  | _ => False
  end.

Definition is_read (e : LogEntry) : Prop :=
  match e with
  | LHttp SiteAuthenticate _ _ => True
  | LHttp (SiteValidateApp _) _ _ => True
  | _ => False
  end.

Lemma is_auth_is_read A : Forall is_auth A → Forall is_read A.
Proof.
  intros H. eapply Forall_impl; [exact H|].
  intros e He. destruct e as [[| | |] ? ?|]; done.
Qed.

Lemma is_read_not_mutating A : Forall is_read A → Forall (λ e, ¬ is_mutating e) A.
Proof.
  intros H. eapply Forall_impl; [exact H|].
  intros e He Hm. destruct e as [[| | |] ? ?|]; done.
Qed.

Lemma is_auth_not_reported A appId e :
  Forall is_auth A → In e A → ¬ reported_invalid appId e.
Proof.
  intros HA Hin (c & err & dt & -> & _).
  rewrite Forall_forall in HA. apply list_elem_of_In, HA in Hin. done.
Qed.

Lemma validate_result_throw appId o e :
  validate_result appId o = Throw e →
  (∃ m, message e = "Failed to validate app ID " ++ js_to_string appId ++ ": " ++ m) ∧
  (∀ c a, ¬ reported_invalid a (LHttp (SiteValidateApp appId) c o)) ∧
  (∀ resp, o = AxResolved resp →
           truthy (js_and (data resp) (field (data resp) "id")) = false).
Proof.
  unfold validate_result. intros Hr. split; [|split].
  - repeat case_match; simplify_eq; simpl; eauto.
  - intros c a (c' & err & dt & [= _ _ ->] & Herr). rewrite Herr in Hr.
    simpl in Hr. done.
  - intros resp ->. by case_match.
Qed.

Section ShapeFacts.

Variables (w : World) (this : ODAGLinkCreator).

Lemma validate_shape_ok appId hist V v :
  validate_shape w this appId hist V (Ok v) →
  ∃ A o, Forall is_auth A ∧
         V = (A ++ [LHttp (SiteValidateApp appId) (app_call this appId) o])%list ∧
         validate_result appId o = Ok v.
Proof.
  intros (A & HA & [[_ (m & Hr & _)] | [-> Hr]]); [done|]. eauto.
Qed.

Lemma validate_shape_throw appId hist V e :
  validate_shape w this appId hist V (Throw e) →
  (∃ m, message e = "Failed to validate app ID " ++ js_to_string appId ++ ": " ++ m) ∧
  Forall is_read V ∧
  (∀ a x, In x V → ¬ reported_invalid a x) ∧
  (∃ x, In x V ∧
        match x with
        | LHttp SiteAuthenticate _ o => ∃ e', authenticate_result o = Throw e'
        | LHttp (SiteValidateApp _) _ (AxResolved resp) =>
            truthy (js_and (data resp) (field (data resp) "id")) = false
        | LHttp (SiteValidateApp _) _ (AxRejected _) => True
        | _ => False
        end).
Proof.
  intros (A & HA & [[-> (m & [= ->] & c & o & -> & Ho)] | [-> Hr]]).
  - split; [simpl; eauto|]. split; [by apply is_auth_is_read|].
    split; [intros a x Hin; by eapply is_auth_not_reported|].
    eexists. split; [by left|]. simpl. eauto.
  - symmetry in Hr. destruct (validate_result_throw _ _ _ Hr) as (Hm & Hnr & Hres).
    split; [done|]. split.
    { apply Forall_app. split; [by apply is_auth_is_read|]. by repeat constructor. }
    split.
    { intros a x [Hin | [<- | []]]%in_app_or; [by eapply is_auth_not_reported|].
      intros (c & err & dt & [= <- _ Ho] & Herr).
      apply (Hnr (app_call this appId) appId). exists (app_call this appId), err, dt.
      rewrite Ho. done. }
    eexists. split; [apply in_or_app; right; by left|]. simpl.
    destruct (http w (hist ++ A)%list (app_call this appId)) as [resp|?]; [|done].
    by apply Hres.
Qed.

Lemma validate_shape_read appId hist V r :
  validate_shape w this appId hist V r → Forall is_read V.
Proof.
  intros (A & HA & [[-> _] | [-> _]]); [by apply is_auth_is_read|].
  apply Forall_app. split; [by apply is_auth_is_read|]. by repeat constructor.
Qed.

Lemma create_shape_ok linkConfig hist C odagLink :
  create_shape w this linkConfig hist C (Ok odagLink) →
  ∃ A o, Forall is_auth A ∧
         C = (A ++ [LHttp SiteCreateLink (link_call this linkConfig) o])%list ∧
         link_result o = Ok odagLink.
Proof.
  intros (A & HA & [[_ (m & Hr & _)] | [-> Hr]]); [done|]. eauto.
Qed.

End ShapeFacts.

(** An application id is named in a message. *)
Fixpoint contains (needle hay : string) : bool :=
  String.prefix needle hay ||
  match hay with
  | EmptyString => false
  | String _ rest => contains needle rest
  end.

(** The validation clause as the specification words it: whenever a lookup
    reports an id invalid, nothing mutating is issued and the failure names
    that id. *)
Definition invalid_app_as_specified (w : World) (options : JsVal) (h : list LogEntry)
    (this : ODAGLinkCreator) : Prop :=
  let result := createCompleteODAGLink w options h this in
  ∀ appId e, In e result.2 → reported_invalid appId e →
    Forall (λ e, ¬ is_mutating e) result.2 ∧
    ∃ msg, result.1.1 = Ok (failure msg) ∧ contains (js_to_string appId) msg = true.

(** C2, counterexample: the lookup of the selection application answers
    404 and the lookup of the template application answers 500.  Both
    lookups are awaited before either result is examined, so the failure is
    the error of the second lookup, which names the template id only. *)
Lemma C2_counterexample :
  let w := scripted [ about_ok; rejected 404 JNull; rejected 500 JNull ] [] in
  let options := JObj [ ("linkName", JStr "Sales Detail"); ("rowEstExpr", JStr "Sum(X)");
                        ("selectionAppId", JStr "sel-1");
                        ("templateAppId", JStr "tmpl-2") ] in
  (createCompleteODAGLink w options [] sample_instance).1.1
  = Ok (failure ("Failed to validate app ID tmpl-2: "
                 ++ "Request failed with status code 500")) ∧
  ¬ invalid_app_as_specified w options [] sample_instance.
Proof.
  split; [vm_compute; reflexivity|].
  intros Hspec.
  destruct (Hspec (JStr "sel-1")
              (LHttp (SiteValidateApp (JStr "sel-1"))
                 (app_call sample_instance (JStr "sel-1"))
                 (rejected 404 JNull)))
    as (_ & msg & Hr & Hnames).
  - vm_compute. right. left. reflexivity.
  - eexists _, _, _. split; reflexivity.
  - vm_compute in Hr. injection Hr as <-. vm_compute in Hnames. discriminate Hnames.
Qed.

Lemma validate_result_valid_entry appId o v c a :
  validate_result appId o = Ok v → truthy (field v "valid") = true →
  ¬ reported_invalid a (LHttp (SiteValidateApp appId) c o).
Proof.
  intros Hr Hv (c' & err & dt & [= _ _ ->] & Herr).
  destruct (validate_result_valid _ _ _ Hr) as [(_ & resp & ? & _) | (Hf & _)];
    [done | congruence].
Qed.

Lemma validate_result_invalid_entry appId o v c :
  validate_result appId o = Ok v → truthy (field v "valid") = false →
  reported_invalid appId (LHttp (SiteValidateApp appId) c o) ∧
  field v "error" = JStr ("App ID not found: " ++ js_to_string appId).
Proof.
  intros Hr Hv.
  destruct (validate_result_valid _ _ _ Hr) as [(Ht & _) | (_ & He & err & dt & -> & Hd)];
    [congruence|].
  split; [|done]. by exists c, err, dt.
Qed.

Ltac not_reported :=
  match goal with
  | HA : Forall is_auth ?A, Hin : In ?e ?A, Hrep : reported_invalid _ ?e |- _ =>
      exfalso; exact (is_auth_not_reported A _ e HA Hin Hrep)
  | HA : auth_log _ ?A, Hin : In ?e ?A, Hrep : reported_invalid _ ?e |- _ =>
      exfalso; exact (is_auth_not_reported A _ e (auth_log_is_auth _ _ HA) Hin Hrep)
  end.

(** C2, amended: when a lookup reports an application id as not found, the
    creation request is not issued and no engine socket is opened, and the
    result is a failure.  The exchanges are probes, the lookup of the
    selection id, and what the validation of the template id exchanges.
    When the selection id is reported and the validation of the template id
    returns (whatever it reports), the error names the selection id; when
    the selection id is reported and the validation of the template id
    throws, the error is the one thrown, which names the template id; when
    the selection id is not reported, the template id is, and the error
    names it. *)
Theorem C2_invalid_app_no_creation (w : World) (options : JsVal) (h : list LogEntry)
    (this this' : ODAGLinkCreator) (r : Result JsVal) (L : list LogEntry) :
  createCompleteODAGLink w options h this = (r, this', L) →
  (∃ appId e, In e L ∧ reported_invalid appId e) →
  let S := field options "selectionAppId" in
  let T := field options "templateAppId" in
  let lookup appId o := LHttp (SiteValidateApp appId) (app_call this appId) o in
  Forall (λ e, ¬ is_mutating e) L ∧
  ∃ msg A o1 V2,
    r = Ok (failure msg) ∧
    L = (A ++ lookup S o1 :: V2)%list ∧ Forall is_auth A ∧
    ((reported_invalid S (lookup S o1) ∧
      (∃ A2 o2 v2, V2 = (A2 ++ [lookup T o2])%list ∧ Forall is_auth A2 ∧
                   validate_result T o2 = Ok v2) ∧
      msg = "Selection app validation failed: App ID not found: " ++ js_to_string S) ∨
     (reported_invalid S (lookup S o1) ∧
      (∃ e, msg = message e ∧
            ((Forall is_auth V2 ∧
              ∃ m, failed_probe V2 m ∧
                   e = Error ("Failed to validate app ID " ++ js_to_string T
                              ++ ": Authentication failed: " ++ m)) ∨
             (∃ A2 o2, V2 = (A2 ++ [lookup T o2])%list ∧ Forall is_auth A2 ∧
                       validate_result T o2 = Throw e))) ∧
      ∃ m, msg = "Failed to validate app ID " ++ js_to_string T ++ ": " ++ m) ∨
     (¬ reported_invalid S (lookup S o1) ∧
      (∃ A2 o2, V2 = (A2 ++ [lookup T o2])%list ∧ Forall is_auth A2 ∧
                reported_invalid T (lookup T o2)) ∧
      msg = "Template app validation failed: App ID not found: " ++ js_to_string T)).
Proof.
  intros Hrun (appId & e & Hin & Hrep) S T lookup.
  destruct (createCompleteODAGLink_completes w options h this)
    as (r0 & this0 & L0 & E & _ & Hdone).
  unfold run in E. rewrite E in Hrun. simplify_eq.
  assert (Hread : ∀ A V1 V2 : list LogEntry,
            auth_log this A → Forall is_read V1 → Forall is_read V2 →
            Forall (λ e, ¬ is_mutating e) (A ++ V1 ++ V2)).
  { intros A V1 V2 HA H1 H2. apply is_read_not_mutating.
    repeat (apply Forall_app; split); try done. apply is_auth_is_read, HA. }
  inversion Hdone as
    [ A msg HA Hearly
    | A V1 e1 HA Hf H1
    | A V1 v1 V2 e2 HA Hf H1 H2
    | A V1 v1 V2 v2 HA Hf H1 H2 Hv1
    | A V1 v1 V2 v2 HA Hf H1 H2 Hv1 Hv2
    | A V1 v1 V2 v2 C e3 HA Hf H1 H2 Hv1 Hv2 H3
    | A V1 v1 V2 v2 C odagLink HA Hf H1 H2 Hv1 Hv2 H3 ]; subst.
  - exfalso. eapply is_auth_not_reported; [apply HA | exact Hin | exact Hrep].
  - exfalso. destruct (validate_shape_throw _ _ _ _ _ _ H1) as (_ & _ & Hnr & _).
    apply in_app_or in Hin as [Hin | Hin].
    + eapply is_auth_not_reported; [apply HA | exact Hin | exact Hrep].
    + by eapply Hnr.
  - (* the validation of the template id threw *)
    pose proof (validate_shape_read _ _ _ _ _ _ H1) as Hr1.
    destruct (validate_shape_ok _ _ _ _ _ _ H1) as (A1 & o1 & HA1 & -> & Hres1).
    destruct (validate_shape_throw _ _ _ _ _ _ H2) as ((m & Hm) & Hread2 & Hnr2 & _).
    assert (Hs : reported_invalid S (lookup S o1)).
    { apply in_app_or in Hin as [Hin | Hin];
        [exfalso; eapply is_auth_not_reported; [apply HA | exact Hin | exact Hrep]|].
      apply in_app_or in Hin as [Hin | Hin]; [|exfalso; by eapply Hnr2].
      apply in_app_or in Hin as [Hin | [<- | []]];
        [exfalso; by eapply is_auth_not_reported|].
      destruct (truthy (field v1 "valid")) eqn:Hv.
      - exfalso. by eapply validate_result_valid_entry.
      - by eapply validate_result_invalid_entry. }
    split; [by apply Hread|].
    exists (message e2), (A ++ A1)%list, o1, V2. split; [done|].
    split; [by rewrite <- !app_assoc|].
    split; [apply Forall_app; split; [apply HA | done]|].
    right. left. split; [exact Hs|]. split; [|eauto].
    exists e2. split; [done|].
    destruct H2 as (A2 & HA2 & [[-> (m2 & [= ->] & Hp)] | [-> Hr2]]).
    + left. split; [done|]. eauto.
    + right. eexists _, _. split; [reflexivity|]. split; [done|]. done.
  - (* the selection id is reported, the validation of the template id returned *)
    pose proof (validate_shape_read _ _ _ _ _ _ H1) as Hr1.
    pose proof (validate_shape_read _ _ _ _ _ _ H2) as Hr2.
    destruct (validate_shape_ok _ _ _ _ _ _ H1) as (A1 & o1 & HA1 & -> & Hres1).
    destruct (validate_shape_ok _ _ _ _ _ _ H2) as (A2 & o2 & HA2 & -> & Hres2).
    destruct (validate_result_invalid_entry _ _ _ (app_call this S) Hres1 Hv1) as [Hs He].
    split; [by apply Hread|].
    eexists _, (A ++ A1)%list, o1, _. split; [reflexivity|].
    split; [by rewrite <- !app_assoc|].
    split; [apply Forall_app; split; [apply HA | done]|].
    left. split; [exact Hs|]. split; [eauto 10|]. by rewrite He.
  - (* only the template id is reported *)
    pose proof (validate_shape_read _ _ _ _ _ _ H1) as Hr1.
    pose proof (validate_shape_read _ _ _ _ _ _ H2) as Hr2.
    destruct (validate_shape_ok _ _ _ _ _ _ H1) as (A1 & o1 & HA1 & -> & Hres1).
    destruct (validate_shape_ok _ _ _ _ _ _ H2) as (A2 & o2 & HA2 & -> & Hres2).
    destruct (validate_result_invalid_entry _ _ _ (app_call this T) Hres2 Hv2) as [Ht He].
    split; [by apply Hread|].
    eexists _, (A ++ A1)%list, o1, _. split; [reflexivity|].
    split; [by rewrite <- !app_assoc|].
    split; [apply Forall_app; split; [apply HA | done]|].
    right. right. split; [by eapply validate_result_valid_entry|].
    split; [eauto 10|]. by rewrite He.
  - exfalso.
    destruct (validate_shape_ok _ _ _ _ _ _ H1) as (A1 & o1 & HA1 & -> & Hr1).
    destruct (validate_shape_ok _ _ _ _ _ _ H2) as (A2 & o2 & HA2 & -> & Hr2).
    destruct H3 as (A3 & HA3 & [[-> _] | [-> _]]).
    all: repeat (apply in_app_or in Hin as [Hin | Hin]);
      try not_reported;
      try (destruct Hin as [<- | []]);
      try (exact (validate_result_valid_entry _ _ _ _ _ Hr1 Hv1 Hrep));
      try (exact (validate_result_valid_entry _ _ _ _ _ Hr2 Hv2 Hrep));
      try (by destruct Hrep as (? & ? & ? & ? & _)).
  - exfalso.
    destruct (validate_shape_ok _ _ _ _ _ _ H1) as (A1 & o1 & HA1 & -> & Hr1).
    destruct (validate_shape_ok _ _ _ _ _ _ H2) as (A2 & o2 & HA2 & -> & Hr2).
    destruct (create_shape_ok _ _ _ _ _ _ H3) as (A3 & o3 & HA3 & -> & Hr3).
    repeat (apply in_app_or in Hin as [Hin | Hin]);
      try not_reported;
      try (destruct Hin as [<- | []]);
      try (exact (validate_result_valid_entry _ _ _ _ _ Hr1 Hv1 Hrep));
      try (exact (validate_result_valid_entry _ _ _ _ _ Hr2 Hv2 Hrep));
      try (by destruct Hrep as (? & ? & ? & ? & _)).
Qed.

Lemma C2_invalid_app_no_creation_witness :
  let w := scripted [ about_ok; rejected 404 JNull; rejected 404 JNull ] [] in
  let options := JObj [ ("linkName", JStr "Sales Detail"); ("rowEstExpr", JStr "Sum(X)");
                        ("selectionAppId", JStr "sel-1");
                        ("templateAppId", JStr "tmpl-2") ] in
  let result := createCompleteODAGLink w options [] sample_instance in
  (∃ appId e, In e result.2 ∧ reported_invalid appId e) ∧
  Forall (λ e, ¬ is_mutating e) result.2 ∧
  result.1.1 = Ok (failure "Selection app validation failed: App ID not found: sel-1").
Proof.
  intros w options result.
  assert (Hrep : ∃ appId e, In e result.2 ∧ reported_invalid appId e).
  { exists (JStr "tmpl-2"),
      (LHttp (SiteValidateApp (JStr "tmpl-2")) (app_call sample_instance (JStr "tmpl-2"))
         (rejected 404 JNull)).
    split; [vm_compute; right; right; left; reflexivity|].
    eexists _, _, _. split; reflexivity. }
  assert (E : createCompleteODAGLink w options [] sample_instance
              = (result.1.1, result.1.2, result.2)) by (vm_compute; reflexivity).
  destruct (C2_invalid_app_no_creation _ _ _ _ _ _ _ E Hrep) as (Hmut & _).
  split; [exact Hrep|]. split; [exact Hmut|]. vm_compute. reflexivity.
Defined.

(** ** The successful prefix of a provisioning run *)

(** An exchange that did not fail. *)
Definition succeeded (e : LogEntry) : Prop :=
  match e with
  | LHttp SiteAuthenticate _ o => ∀ e', authenticate_result o ≠ Throw e'
  | LHttp (SiteValidateApp _) _ o =>
      ∃ resp, o = AxResolved resp ∧
              truthy (js_and (data resp) (field (data resp) "id")) = true
  | LHttp SiteCreateLink _ o => ∃ odagLink, link_result o = Ok odagLink
  | LHttp SiteTestConnection _ _ => True
  | LWs sel link _ script => ∃ v, promise (run_session sel link script) = Resolved v
  end.

(** The exchanges up to and including a creation request: both lookups
    resolved, with [resp1] and [resp2], and the creation answered [o3];
    authentication probes may precede each of the three. *)
Definition provisioning_log (this : ODAGLinkCreator) (options : JsVal)
    (P : list LogEntry) (resp1 resp2 : AxResponse) (o3 : AxOutcome) : Prop :=
  let S := field options "selectionAppId" in
  let T := field options "templateAppId" in
  ∃ A1 A2 A3,
    Forall is_auth (A1 ++ A2 ++ A3) ∧
    P = (A1 ++ [LHttp (SiteValidateApp S) (app_call this S) (AxResolved resp1)]
         ++ A2 ++ [LHttp (SiteValidateApp T) (app_call this T) (AxResolved resp2)]
         ++ A3 ++ [LHttp SiteCreateLink (link_call this (linkConfig_of options)) o3])%list.

Lemma fields_ok_not_nullish options : fields_ok options → nullish options = false.
Proof.
  intros (_ & Hn & _). destruct options; simpl in *; done.
Qed.

Section Navigated.

Variables (w : World) (options : JsVal) (h : list LogEntry) (this : ODAGLinkCreator).

Let S := field options "selectionAppId".
Let T := field options "templateAppId".

(** What the constructor [done_navigated] knows, in terms of the log. *)
Lemma navigated_log A V1 v1 V2 v2 C odagLink :
  auth_log this A →
  validate_shape w this S (h ++ A) V1 (Ok v1) →
  validate_shape w this T (h ++ A ++ V1) V2 (Ok v2) →
  truthy (field v1 "valid") = true →
  truthy (field v2 "valid") = true →
  create_shape w this (linkConfig_of options) (h ++ A ++ V1 ++ V2) C (Ok odagLink) →
  ∃ resp1 resp2 o3,
    provisioning_log this options (A ++ V1 ++ V2 ++ C) resp1 resp2 o3 ∧
    link_result o3 = Ok odagLink ∧
    field v1 "name" = field (data resp1) "name" ∧
    field v2 "name" = field (data resp2) "name".
Proof.
  intros HA H1 H2 Hv1 Hv2 H3.
  destruct (validate_shape_ok _ _ _ _ _ _ H1) as (A1 & o1 & HA1 & -> & Hr1).
  destruct (validate_shape_ok _ _ _ _ _ _ H2) as (A2 & o2 & HA2 & -> & Hr2).
  destruct (create_shape_ok _ _ _ _ _ _ H3) as (A3 & o3 & HA3 & -> & Hr3).
  destruct (validate_result_valid _ _ _ Hr1) as [(_ & resp1 & -> & _ & ->) | (Hf & _)];
    [|congruence].
  destruct (validate_result_valid _ _ _ Hr2) as [(_ & resp2 & -> & _ & ->) | (Hf & _)];
    [|congruence].
  exists resp1, resp2, o3. split; [|done].
  exists (A ++ A1)%list, A2, A3. split.
  - repeat (apply Forall_app; split); try done. apply HA.
  - rewrite <- !app_assoc. reflexivity.
Qed.

End Navigated.

Lemma failed_probe_not_succeeded A m : failed_probe A m → ¬ Forall succeeded A.
Proof.
  intros (c & o & -> & Ho) HA. inversion HA as [|? ? Hs _]; subst.
  by apply (Hs _) in Ho.
Qed.

Lemma validate_shape_throw_not_succeeded w this appId hist V e :
  validate_shape w this appId hist V (Throw e) → ¬ Forall succeeded V.
Proof.
  intros Hsh HV. destruct (validate_shape_throw _ _ _ _ _ _ Hsh) as (_ & _ & _ & x & Hin & Hx).
  rewrite Forall_forall in HV. apply list_elem_of_In, HV in Hin.
  destruct x as [[| | |] c [resp|err]|]; simpl in *; try done.
  - destruct Hx as [e' He']. by apply (Hin e').
  - destruct Hx as [e' He']. by apply (Hin e').
  - destruct Hin as (resp' & [= <-] & Ht). congruence.
  - by destruct Hin as (resp' & ? & _).
Qed.

Lemma validate_shape_invalid_not_succeeded w this appId hist V v :
  validate_shape w this appId hist V (Ok v) → truthy (field v "valid") = false →
  ¬ Forall succeeded V.
Proof.
  intros Hsh Hv HV.
  destruct (validate_shape_ok _ _ _ _ _ _ Hsh) as (A & o & _ & -> & Hr).
  apply Forall_app in HV as [_ HV]. inversion HV as [|? ? Hs _]; subst.
  destruct (validate_result_valid _ _ _ Hr) as [(Ht & _) | (_ & _ & err & dt & -> & _)];
    [congruence|].
  by destruct Hs as (resp & ? & _).
Qed.

Lemma create_shape_throw_not_succeeded w this linkConfig hist C e :
  create_shape w this linkConfig hist C (Throw e) → ¬ Forall succeeded C.
Proof.
  intros (A & _ & [[-> (m & _ & Hp)] | [-> Hr]]) HC.
  - by eapply failed_probe_not_succeeded.
  - apply Forall_app in HC as [_ HC]. inversion HC as [|? ? Hs _]; subst.
    destruct Hs as [odagLink Hl]. congruence.
Qed.

(** C3: when all four required fields are set and no exchange of the run
    fails (probes, both lookups, the creation request, the engine session),
    [createCompleteODAGLink] returns the success object: its [odagLinkId] is
    the [id] of the object that [createODAGLink] took from the creation
    response, and its two names are the [name] members of the bodies of the
    two lookups, selection first. *)
Theorem C3_success (w : World) (options : JsVal) (h : list LogEntry)
    (this this' : ODAGLinkCreator) (r : Result JsVal) (L : list LogEntry) :
  createCompleteODAGLink w options h this = (r, this', L) →
  fields_ok options →
  Forall succeeded L →
  let S := field options "selectionAppId" in
  let T := field options "templateAppId" in
  ∃ P resp1 resp2 o3 odagLink script,
    L = (P ++ [LWs S (field odagLink "id") (ws_connect this S) script])%list ∧
    provisioning_log this options P resp1 resp2 o3 ∧
    link_result o3 = Ok odagLink ∧
    r = Ok (JObj [ ("success", JBool true);
                   ("odagLinkId", field odagLink "id");
                   ("selectionAppId", S);
                   ("templateAppId", T);
                   ("selectionAppName", field (data resp1) "name");
                   ("templateAppName", field (data resp2) "name");
                   ("message",
                    JStr "ODAG link created and registered in Hub successfully") ]).
Proof.
  intros Hrun Hf HL S T.
  destruct (createCompleteODAGLink_completes w options h this)
    as (r0 & this0 & L0 & E & _ & Hdone).
  unfold run in E. rewrite E in Hrun. simplify_eq.
  pose proof (fields_ok_not_nullish _ Hf) as Hnn.
  destruct Hf as (Hids & Hname & Hexpr).
  inversion Hdone as
    [ A msg HA Hearly
    | A V1 e1 HA Hf H1
    | A V1 v1 V2 e2 HA Hf H1 H2
    | A V1 v1 V2 v2 HA Hf H1 H2 Hv1
    | A V1 v1 V2 v2 HA Hf H1 H2 Hv1 Hv2
    | A V1 v1 V2 v2 C e3 HA Hf H1 H2 Hv1 Hv2 H3
    | A V1 v1 V2 v2 C odagLink HA Hf H1 H2 Hv1 Hv2 H3 ]; subst.
  - exfalso.
    destruct Hearly as [(_ & m & _ & Hp) | [(? & _) | [(_ & ? & _)
      | [(_ & ? & _) | (_ & _ & ? & _)]]]]; try congruence.
    exact (failed_probe_not_succeeded _ _ Hp HL).
  - exfalso. apply Forall_app in HL as [_ HL].
    exact (validate_shape_throw_not_succeeded _ _ _ _ _ _ H1 HL).
  - exfalso. apply Forall_app in HL as [_ HL]. apply Forall_app in HL as [_ HL].
    exact (validate_shape_throw_not_succeeded _ _ _ _ _ _ H2 HL).
  - exfalso. apply Forall_app in HL as [_ HL]. apply Forall_app in HL as [HL _].
    exact (validate_shape_invalid_not_succeeded _ _ _ _ _ _ H1 Hv1 HL).
  - exfalso. apply Forall_app in HL as [_ HL]. apply Forall_app in HL as [_ HL].
    exact (validate_shape_invalid_not_succeeded _ _ _ _ _ _ H2 Hv2 HL).
  - exfalso. apply Forall_app in HL as [_ HL]. apply Forall_app in HL as [_ HL].
    apply Forall_app in HL as [_ HL].
    exact (create_shape_throw_not_succeeded _ _ _ _ _ _ H3 HL).
  - destruct (navigated_log w options h this _ _ _ _ _ _ _ HA H1 H2 Hv1 Hv2 H3)
      as (resp1 & resp2 & o3 & Hlog & Hlink & Hn1 & Hn2).
    assert (Hsock : ∃ v, promise (run_session S (field odagLink "id")
                       (ws w (h ++ A ++ V1 ++ V2 ++ C) (ws_connect this S))) = Resolved v).
    { do 4 (apply Forall_app in HL as [_ HL]). inversion HL as [|? ? Hs _]; subst.
      exact Hs. }
    destruct Hsock as [v Hv].
    exists (A ++ V1 ++ V2 ++ C)%list, resp1, resp2, o3, odagLink,
           (ws w (h ++ A ++ V1 ++ V2 ++ C) (ws_connect this S)).
    split; [by rewrite <- !app_assoc|]. split; [done|]. split; [done|].
    subst script. fold S. rewrite Hv.
    unfold success_result. by rewrite Hn1, Hn2.
Qed.

Lemma C3_success_witness :
  let w := scripted [ about_ok; app_found "A" "Sales"; app_found "B" "Detail";
                      ok200 (JObj [ ("id", JStr "link-1") ]) ]
                    [ EvOpen; reply_handle 1 (JNum 7); reply_ok 2; reply_ok 3 ] in
  let result := createCompleteODAGLink w sample_options [] sample_instance in
  fields_ok sample_options ∧
  Forall succeeded result.2 ∧
  result.1.1
  = Ok (JObj [ ("success", JBool true);
               ("odagLinkId", JStr "link-1");
               ("selectionAppId", JStr "A");
               ("templateAppId", JStr "B");
               ("selectionAppName", JStr "Sales");
               ("templateAppName", JStr "Detail");
               ("message", JStr "ODAG link created and registered in Hub successfully") ]).
Proof.
  intros w result.
  assert (Hf : fields_ok sample_options) by (repeat split; reflexivity).
  assert (Hs : Forall succeeded result.2).
  { subst result. set (L := (createCompleteODAGLink _ _ _ _).2).
    vm_compute in (value of L). subst L.
    apply Forall_cons. split. { intros e'. vm_compute. discriminate. }
    apply Forall_cons. split. { eexists. split; reflexivity. }
    apply Forall_cons. split. { eexists. split; reflexivity. }
    apply Forall_cons. split. { eexists. vm_compute. reflexivity. }
    apply Forall_cons. split. { eexists. vm_compute. reflexivity. }
    apply Forall_nil. done. }
  assert (E : createCompleteODAGLink w sample_options [] sample_instance
              = (result.1.1, result.1.2, result.2)) by (vm_compute; reflexivity).
  destruct (C3_success _ _ _ _ _ _ _ E Hf Hs)
    as (P & resp1 & resp2 & o3 & odagLink & script & _ & _ & _ & Hr).
  split; [exact Hf|]. split; [exact Hs|]. vm_compute. reflexivity.
Defined.

Lemma read_not_socket V sel link c script :
  Forall is_read V → ¬ In (LWs sel link c script) V.
Proof.
  intros HV Hin. rewrite Forall_forall in HV. by apply list_elem_of_In, HV in Hin.
Qed.

Lemma create_shape_not_socket w this linkConfig hist C r sel link c script :
  create_shape w this linkConfig hist C r → ¬ In (LWs sel link c script) C.
Proof.
  intros (A & HA & [[-> _] | [-> _]]) Hin.
  - by eapply read_not_socket; [apply is_auth_is_read|].
  - apply in_app_or in Hin as [Hin | [? | []]]; [|done].
    by eapply read_not_socket; [apply is_auth_is_read|].
Qed.

Ltac no_socket :=
  match goal with
  | Hin : In (LWs _ _ _ _) ?V, HV : validate_shape _ _ _ _ ?V _ |- _ =>
      exfalso;
      exact (read_not_socket V _ _ _ _ (validate_shape_read _ _ _ _ _ _ HV) Hin)
  | Hin : In (LWs _ _ _ _) ?V, HV : Forall is_read ?V |- _ =>
      exfalso; exact (read_not_socket V _ _ _ _ HV Hin)
  | Hin : In (LWs _ _ _ _) ?C, HC : create_shape _ _ _ _ ?C _ |- _ =>
      exfalso; exact (create_shape_not_socket _ _ _ _ _ _ _ _ _ _ HC Hin)
  end.

(** The ways the navigation leg fails: a socket error, the connection
    timer, a closure that is not normal, a frame that does not parse, an
    error frame.  A normal closure before the save is confirmed leaves the
    promise pending. *)
Example navigation_rejections (sel link : JsVal) :
  promise (run_session sel link [EvError "socket hang up"])
  = Rejected (Error "WebSocket error: socket hang up") ∧
  promise (run_session sel link [EvTimeout])
  = Rejected (Error "WebSocket connection timeout") ∧
  promise (run_session sel link [EvOpen; EvClose 1006 ""])
  = Rejected (Error "WebSocket closed with code 1006: ") ∧
  promise (run_session sel link [EvOpen; EvMessage (Malformed "Unexpected token <")])
  = Rejected (Error "Failed to parse WebSocket response: Unexpected token <") ∧
  promise (run_session sel link
             [EvOpen; reply_handle 1 (JNum 7); EvMessage (Parsed (error_response 2 "boom"))])
  = Rejected (Error "WebSocket error: boom") ∧
  promise (run_session sel link [EvOpen; EvClose 1000 ""]) = Pending.
Proof. repeat split; vm_compute; reflexivity. Qed.

(** The partial-success clause as the specification words it: beside the
    flags, the result holds a non-empty list (the remediation steps). *)
Definition partial_success_as_specified (result : JsVal) : Prop :=
  field result "success" = JBool true ∧
  field result "partial" = JBool true ∧
  ∃ k items, field result k = JArr items ∧ items ≠ [].

(** C1, counterexample: the link is created and the socket then reports an
    error.  The object returned has nine members, none of which is a list. *)
Lemma C1_counterexample :
  let w := scripted [ about_ok; app_found "A" "Sales"; app_found "B" "Detail";
                      ok200 (JObj [ ("id", JStr "link-1") ]) ]
                    [ EvError "socket hang up" ] in
  ∃ result,
    (createCompleteODAGLink w sample_options [] sample_instance).1.1 = Ok result ∧
    field result "navigationLinkError" = JStr "WebSocket error: socket hang up" ∧
    ¬ partial_success_as_specified result.
Proof.
  eexists. split; [vm_compute; reflexivity|]. split; [reflexivity|].
  intros (_ & _ & k & items & Hk & _). unfold field, assoc in Hk.
  repeat case_match; discriminate.
Qed.

(** C1, amended: when the engine session opened by a run rejects, the run
    returns the partial-success object, never a failure: [success] and
    [partial] are true, [odagLinkId] is the [id] of the object taken from
    the creation response (as on the success path), the two names are those
    of the two lookups, [navigationLinkError] is the message of the
    rejection, and [message] says that the navigation link must be added
    manually. *)
Theorem C1_partial_success (w : World) (options : JsVal) (h : list LogEntry)
    (this this' : ODAGLinkCreator) (r : Result JsVal) (L : list LogEntry)
    (sel link : JsVal) (c : WsConnect) (script : list WsEvent) (e : JsError) :
  createCompleteODAGLink w options h this = (r, this', L) →
  In (LWs sel link c script) L →
  promise (run_session sel link script) = Rejected e →
  let S := field options "selectionAppId" in
  let T := field options "templateAppId" in
  ∃ P resp1 resp2 o3 odagLink,
    L = (P ++ [LWs sel link c script])%list ∧
    provisioning_log this options P resp1 resp2 o3 ∧
    link_result o3 = Ok odagLink ∧
    sel = S ∧ link = field odagLink "id" ∧
    r = Ok (JObj [ ("success", JBool true);
                   ("partial", JBool true);
                   ("odagLinkId", field odagLink "id");
                   ("selectionAppId", S);
                   ("templateAppId", T);
                   ("selectionAppName", field (data resp1) "name");
                   ("templateAppName", field (data resp2) "name");
                   ("message",
                    JStr "ODAG link created successfully. Navigation link must be added manually.");
                   ("navigationLinkError", JStr (message e)) ]).
Proof.
  intros Hrun Hin Hrej S T.
  destruct (createCompleteODAGLink_completes w options h this)
    as (r0 & this0 & L0 & E & _ & Hdone).
  unfold run in E. rewrite E in Hrun. simplify_eq.
  inversion Hdone as
    [ A msg HA Hearly
    | A V1 e1 HA Hf H1
    | A V1 v1 V2 e2 HA Hf H1 H2
    | A V1 v1 V2 v2 HA Hf H1 H2 Hv1
    | A V1 v1 V2 v2 HA Hf H1 H2 Hv1 Hv2
    | A V1 v1 V2 v2 C e3 HA Hf H1 H2 Hv1 Hv2 H3
    | A V1 v1 V2 v2 C odagLink HA Hf H1 H2 Hv1 Hv2 H3 ]; subst.
  1-6: pose proof (is_auth_is_read _ (auth_log_is_auth _ _ HA)) as HrA;
    repeat (apply in_app_or in Hin as [Hin | Hin]); no_socket.
  destruct (navigated_log w options h this _ _ _ _ _ _ _ HA H1 H2 Hv1 Hv2 H3)
    as (resp1 & resp2 & o3 & Hlog & Hlink & Hn1 & Hn2).
  assert (Hlast : LWs sel link c script
                  = LWs S (field odagLink "id") (ws_connect this S) script0).
  { pose proof (is_auth_is_read _ (auth_log_is_auth _ _ HA)) as HrA.
    repeat (apply in_app_or in Hin as [Hin | Hin]); try no_socket.
    by destruct Hin as [<- | []]. }
  injection Hlast as -> -> -> ->.
  exists (A ++ V1 ++ V2 ++ C)%list, resp1, resp2, o3, odagLink.
  split; [by rewrite <- !app_assoc|]. split; [done|]. split; [done|].
  split; [done|]. split; [done|].
  unfold S in *. rewrite Hrej.
  unfold partial_result. by rewrite Hn1, Hn2.
Qed.

Lemma C1_partial_success_witness :
  let w := scripted [ about_ok; app_found "A" "Sales"; app_found "B" "Detail";
                      ok200 (JObj [ ("id", JStr "link-1") ]) ]
                    [ EvOpen; reply_handle 1 (JNum 7);
                      EvMessage (Parsed (error_response 2 "boom")) ] in
  let script := [ EvOpen; reply_handle 1 (JNum 7);
                  EvMessage (Parsed (error_response 2 "boom")) ] in
  let entry := LWs (JStr "A") (JStr "link-1") (ws_connect sample_instance (JStr "A"))
                   script in
  let result := createCompleteODAGLink w sample_options [] sample_instance in
  In entry result.2 ∧
  promise (run_session (JStr "A") (JStr "link-1") script)
  = Rejected (Error "WebSocket error: boom") ∧
  ∃ P, result.2 = (P ++ [entry])%list ∧
       result.1.1
       = Ok (partial_result sample_options (JObj [ ("id", JStr "link-1") ])
               (JObj [ ("name", JStr "Sales") ]) (JObj [ ("name", JStr "Detail") ])
               "WebSocket error: boom").
Proof.
  intros w script entry result.
  assert (Hin : In entry result.2) by (vm_compute; do 4 right; left; reflexivity).
  assert (Hrej : promise (run_session (JStr "A") (JStr "link-1") script)
                 = Rejected (Error "WebSocket error: boom")) by (vm_compute; reflexivity).
  assert (E : createCompleteODAGLink w sample_options [] sample_instance
              = (result.1.1, result.1.2, result.2)) by (vm_compute; reflexivity).
  destruct (C1_partial_success _ _ _ _ _ _ _ _ _ _ _ _ E Hin Hrej)
    as (P & resp1 & resp2 & o3 & odagLink & HL & _ & _ & _ & _ & Hr).
  split; [exact Hin|]. split; [exact Hrej|].
  exists P. split; [exact HL|]. vm_compute. reflexivity.
Defined.

(** * The engine session: further behaviour *)

Ltac session_unfold :=
  unfold deliver, on_open, on_message, on_message_catch, on_error, on_close,
    on_timeout, send_request, ws_send, requests_set, requests_get, requestId_incr,
    set_appHandle, set_readyState, clearTimeout, ws_close, resolve, reject in *.

Ltac session_split :=
  session_unfold; simpl in *;
  repeat (case_match; simpl in *; simplify_eq; try done).

(** ** Frames that answer no pending request *)

(** A frame of the engine that answers no request: it parses to a value
    other than [null], has no [error] member set, and its [id] is not a
    number (the [OnConnected] notification of the engine has no [id]). *)
Definition is_notification (ev : WsEvent) : bool :=
  match ev with
  | EvMessage (Parsed v) =>
      negb (nullish v) && negb (truthy (field v "error")) &&
      match field v "id" with JNum _ => false | _ => true end
  | _ => false
  end.

Lemma on_message_unmatched link s v :
  nullish v = false → truthy (field v "error") = false →
  requests_get s (field v "id") = None →
  on_message link s (Parsed v) = s.
Proof. intros Hn He Hr. unfold on_message. by rewrite Hn, He, Hr. Qed.

Lemma deliver_notification sel link s ev :
  is_notification ev = true → deliver sel link s ev = s.
Proof.
  destruct ev as [|[m|v]| | |]; try done. simpl. intros H.
  apply andb_true_iff in H as [H Hid]. apply andb_true_iff in H as [Hn He].
  apply negb_true_iff in Hn, He. apply on_message_unmatched; [done..|].
  unfold requests_get. destruct (field v "id"); done.
Qed.

(** X1: notifications are transparent: a session ends in the same state
    whether or not the engine interleaves them with its replies; and a
    frame without [error] whose [id] has not been handed out yet changes
    nothing. *)
Theorem unsolicited_frames_ignored (sel link : JsVal) :
  (∀ script,
     run_session sel link (List.filter (λ ev, negb (is_notification ev)) script)
     = run_session sel link script) ∧
  (∀ script v k,
     let s := run_session sel link script in
     nullish v = false ∧ truthy (field v "error") = false ∧
     field v "id" = JNum k ∧ requestId s ≤ k →
     deliver sel link s (EvMessage (Parsed v)) = s).
Proof.
  split.
  - intros script. unfold run_session. generalize session_init.
    induction script as [|ev script IH]; intros s; [done|]. simpl.
    destruct (is_notification ev) eqn:E; simpl.
    + rewrite (deliver_notification _ _ _ _ E). apply IH.
    + apply IH.
  - intros script v k s (Hn & He & Hid & Hk). simpl.
    apply on_message_unmatched; [done..|]. rewrite Hid. simpl.
    destruct (requests s !! k) eqn:E; [|done]. exfalso.
    destruct (run_session_table_ok sel link script) as [Hb _].
    specialize (Hb k (ex_intro _ _ E)). fold s in Hb. lia.
Qed.

(** The [OnConnected] notification of the engine. *)
Definition on_connected : WsEvent :=
  EvMessage (Parsed (JObj [ ("jsonrpc", JStr "2.0"); ("method", JStr "OnConnected");
                            ("params", JObj [ ("qSessionState", JStr "SESSION_CREATED") ]) ])).

Lemma unsolicited_frames_ignored_witness :
  run_session (JStr "A") (JStr "L")
    [EvOpen; on_connected; reply_handle 1 (JNum 7); reply_ok 2; reply_ok 3]
  = run_session (JStr "A") (JStr "L")
      [EvOpen; reply_handle 1 (JNum 7); reply_ok 2; reply_ok 3] ∧
  let s := run_session (JStr "A") (JStr "L") [EvOpen; reply_handle 1 (JNum 7)] in
  deliver (JStr "A") (JStr "L") s (reply_ok 9) = s.
Proof.
  destruct (unsolicited_frames_ignored (JStr "A") (JStr "L")) as [Hfilter Hstale].
  split.
  - exact (eq_sym (Hfilter [EvOpen; on_connected; reply_handle 1 (JNum 7);
                            reply_ok 2; reply_ok 3])).
  - apply (Hstale [EvOpen; reply_handle 1 (JNum 7)] _ 9).
    repeat split; vm_compute; congruence.
Defined.

(** ** The connection timer *)

(** The events whose handlers clear the connection timer, and the expiry of
    the timer itself. *)
Definition stops_timer (ev : WsEvent) : bool :=
  match ev with
  | EvMessage _ => false
  | _ => true
  end.

Lemma deliver_timer_off sel link s ev :
  timer s = false → timer (deliver sel link s ev) = false.
Proof.
  intros Ht. destruct ev as [|[m|v]| | |]; simpl; rewrite ?Ht; try done.
  all: session_split.
  all: try (destruct (readyState s); done).
Qed.

Lemma deliver_stops_timer sel link s ev :
  stops_timer ev = true → timer (deliver sel link s ev) = false.
Proof.
  intros Hs. destruct ev; try done; session_split.
  all: try (destruct (readyState s); done).
Qed.

Lemma run_from_timer_off sel link script : ∀ s,
  timer s = false → timer (run_from sel link s script) = false.
Proof.
  induction script as [|ev script IH]; intros s Ht; [done|]. simpl.
  apply IH. by apply deliver_timer_off.
Qed.

Lemma run_from_stops_timer sel link script : ∀ s,
  existsb stops_timer script = true → timer (run_from sel link s script) = false.
Proof.
  induction script as [|ev script IH]; intros s He; [done|]. simpl in *.
  destruct (stops_timer ev) eqn:E.
  - apply run_from_timer_off. by apply deliver_stops_timer.
  - by apply IH.
Qed.

Lemma deliver_closeCalls sel link s ev :
  ∃ more, closeCalls (deliver sel link s ev) = (closeCalls s ++ more)%list.
Proof.
  destruct ev; session_split;
    first [ by exists [None] | exists []; by rewrite app_nil_r ].
Qed.

Lemma run_from_closeCalls sel link script : ∀ s,
  ∃ more, closeCalls (run_from sel link s script) = (closeCalls s ++ more)%list.
Proof.
  induction script as [|ev script IH]; intros s; simpl.
  - exists []. by rewrite app_nil_r.
  - destruct (deliver_closeCalls sel link s ev) as [m1 H1].
    destruct (IH (deliver sel link s ev)) as [m2 H2].
    exists (m1 ++ m2)%list. by rewrite H2, H1, app_assoc.
Qed.

(** X2: the connection timer.  When it expires before the socket has opened,
    failed or closed, the driver calls [close()] and rejects with
    "WebSocket connection timeout"; nothing is transmitted then or by any
    later event, and no later event changes the rejection.  Once the socket
    has opened, failed or closed, the expiry of the timer has no effect. *)
Theorem connection_timeout (sel link : JsVal) :
  (∀ frames rest,
     Forall (λ ev, is_notification ev = true) frames →
     let s := run_session sel link (frames ++ EvTimeout :: rest) in
     promise s = Rejected (Error "WebSocket connection timeout") ∧
     sent s = [] ∧
     ∃ more, closeCalls s = None :: more) ∧
  (∀ script rest,
     existsb stops_timer script = true →
     run_session sel link (script ++ EvTimeout :: rest)
     = run_session sel link (script ++ rest)).
Proof.
  split.
  - intros frames rest Hf s.
    assert (Hs : s = run_from sel link (deliver sel link session_init EvTimeout) rest).
    { subst s. unfold run_session, run_from. rewrite fold_left_app.
      assert (Hq : fold_left (deliver sel link) frames session_init = session_init).
      { generalize session_init. induction Hf as [|ev frames Hev _ IH]; intros s0; [done|].
        simpl. rewrite (deliver_notification _ _ _ _ Hev). apply IH. }
      by rewrite Hq. }
    rewrite Hs.
    set (s1 := deliver sel link session_init EvTimeout).
    assert (Hc : closing s1) by (left; reflexivity).
    destruct (run_from_closing sel link rest s1 Hc) as [_ Hsent].
    split; [|split].
    + rewrite run_from_settled; done.
    + by rewrite Hsent.
    + destruct (run_from_closeCalls sel link rest s1) as [more Hm].
      exists more. by rewrite Hm.
  - intros script rest He. unfold run_session, run_from.
    rewrite !fold_left_app. simpl.
    pose proof (run_from_stops_timer sel link script session_init He) as Ht.
    unfold run_from in Ht. by rewrite Ht.
Qed.

Lemma connection_timeout_witness :
  promise (run_session (JStr "A") (JStr "L")
             [on_connected; EvTimeout; EvOpen; reply_handle 1 (JNum 7)])
  = Rejected (Error "WebSocket connection timeout") ∧
  run_session (JStr "A") (JStr "L") [EvOpen; EvTimeout; reply_handle 1 (JNum 7)]
  = run_session (JStr "A") (JStr "L") [EvOpen; reply_handle 1 (JNum 7)].
Proof.
  destruct (connection_timeout (JStr "A") (JStr "L")) as [Hfirst Hlater].
  split.
  - refine (proj1 (Hfirst [on_connected] [EvOpen; reply_handle 1 (JNum 7)] _)).
    repeat constructor.
  - exact (Hlater [EvOpen] [reply_handle 1 (JNum 7)] eq_refl).
Defined.

(** ** A session that is never answered *)

(** After the socket has opened: the expiry of the timer, a normal closure,
    a notification. *)
Definition is_silent (ev : WsEvent) : bool :=
  match ev with
  | EvTimeout => true
  | EvClose code _ => code =? 1000
  | _ => is_notification ev
  end.

Lemma deliver_silent sel link s ev :
  is_silent ev = true → timer s = false →
  let s' := deliver sel link s ev in
  promise s' = promise s ∧ sent s' = sent s ∧ closeCalls s' = closeCalls s ∧
  timer s' = false.
Proof.
  intros He Ht. destruct ev as [|f| |code reason|]; try done.
  - rewrite (deliver_notification sel link s (EvMessage f) He). done.
  - simpl in He. simpl. unfold on_close. rewrite He. done.
  - simpl. by rewrite Ht.
Qed.

Lemma run_from_silent sel link rest : ∀ s,
  forallb is_silent rest = true → timer s = false →
  let s' := run_from sel link s rest in
  promise s' = promise s ∧ sent s' = sent s ∧ closeCalls s' = closeCalls s.
Proof.
  induction rest as [|ev rest IH]; intros s Hr Ht; [done|].
  simpl in Hr. apply andb_true_iff in Hr as [Hev Hr]. simpl.
  destruct (deliver_silent sel link s ev Hev Ht) as (Hp' & Hs' & Hc' & Ht').
  destruct (IH _ Hr Ht') as (? & ? & ?). repeat split; congruence.
Qed.

(** X3: the driver has no deadline of its own once the socket has opened:
    the handler of [open] clears the only timer.  If the engine then sends
    nothing but notifications, or closes the socket normally (code 1000),
    the promise is never settled: [OpenDoc] is the only frame sent and
    [close()] is never called. *)
Theorem unanswered_session_stays_pending (sel link : JsVal) (rest : list WsEvent) :
  forallb is_silent rest = true →
  let s := run_session sel link (EvOpen :: rest) in
  promise s = Pending ∧ sent s = [openAppRequest sel 1] ∧ closeCalls s = [].
Proof.
  intros Hr s. subst s.
  change (run_session sel link (EvOpen :: rest))
    with (run_from sel link (deliver sel link session_init EvOpen) rest).
  destruct (run_from_silent sel link rest (deliver sel link session_init EvOpen) Hr eq_refl)
    as (-> & -> & ->).
  done.
Qed.

Lemma unanswered_session_stays_pending_witness :
  let s := run_session (JStr "A") (JStr "L")
             [EvOpen; on_connected; EvTimeout; EvClose 1000 ""] in
  promise s = Pending ∧ sent s = [openAppRequest (JStr "A") 1] ∧ closeCalls s = [].
Proof.
  exact (unanswered_session_stays_pending (JStr "A") (JStr "L")
           [on_connected; EvTimeout; EvClose 1000 ""] eq_refl).
Defined.

(** ** Frames the handler cannot process *)

(** The inbound frames on which the body of the message handler raises, with
    the message of the error raised: text that is not JSON, the JSON value
    [null], and a reply to a pending [OpenDoc] request that has no [result]
    or no [result.qReturn]. *)
Inductive unprocessable (s : Session) : Frame → string → Prop :=
| not_json m :
    unprocessable s (Malformed m) m
| null_frame v :
    nullish v = true →
    unprocessable s (Parsed v) (message (type_error v "id"))
| no_result v k :
    nullish v = false → truthy (field v "error") = false →
    field v "id" = JNum k → requests s !! k = Some openApp →
    nullish (field v "result") = true →
    unprocessable s (Parsed v) (message (type_error (field v "result") "qReturn"))
| no_qReturn v k :
    nullish v = false → truthy (field v "error") = false →
    field v "id" = JNum k → requests s !! k = Some openApp →
    nullish (field v "result") = false →
    nullish (field (field v "result") "qReturn") = true →
    unprocessable s (Parsed v)
      (message (type_error (field (field v "result") "qReturn") "qHandle")).

Lemma on_message_unprocessable link s f detail :
  unprocessable s f detail →
  on_message link s f = on_message_catch s (Error detail).
Proof.
  intros [m|v Hn|v k Hn He Hid Hk Hr|v k Hn He Hid Hk Hr Hq]; unfold on_message.
  - done.
  - by rewrite Hn.
  - unfold requests_get. by rewrite Hn, He, Hid, Hk, Hr.
  - unfold requests_get. by rewrite Hn, He, Hid, Hk, Hr, Hq.
Qed.

(** X4: a frame the handler cannot process ends the session: the driver
    calls [close()] once, without a code, and a promise that is still
    pending is rejected with "Failed to parse WebSocket response: " followed
    by the message of the error raised, for good.  The frame registers and
    transmits no request, and no later event transmits anything. *)
Theorem unprocessable_frame_is_terminal (sel link : JsVal) (s : Session) (f : Frame)
    (detail : string) (rest : list WsEvent) :
  unprocessable s f detail →
  let s' := deliver sel link s (EvMessage f) in
  let final := run_from sel link s' rest in
  closeCalls s' = (closeCalls s ++ [None])%list ∧
  requests s' = requests s ∧
  sent s' = sent s ∧
  promise s' = match promise s with
               | Pending =>
                   Rejected (Error ("Failed to parse WebSocket response: " ++ detail))
               | p => p
               end ∧
  sent final = sent s ∧
  (promise s = Pending → promise final = promise s').
Proof.
  intros Hu s' final. subst s' final. simpl.
  rewrite (on_message_unprocessable link s f detail Hu).
  assert (Hc : closing (on_message_catch s (Error detail))) by apply ws_close_closing.
  destruct (run_from_closing sel link rest _ Hc) as [_ Hsent].
  repeat split; try done.
  intros Hp. apply run_from_settled. simpl. by rewrite Hp.
Qed.

Lemma unprocessable_frame_is_terminal_witness :
  let s := run_session (JStr "A") (JStr "L") [EvOpen] in
  let no_handle := JObj [ ("jsonrpc", JStr "2.0"); ("id", JNum 1); ("result", JObj []) ] in
  let final := run_from (JStr "A") (JStr "L")
                 (deliver (JStr "A") (JStr "L") s (EvMessage (Parsed no_handle)))
                 [reply_handle 1 (JNum 7); reply_ok 2] in
  unprocessable s (Parsed no_handle) "Cannot read properties of undefined (reading 'qHandle')" ∧
  sent final = [openAppRequest (JStr "A") 1] ∧
  promise final
  = Rejected (Error ("Failed to parse WebSocket response: "
                     ++ "Cannot read properties of undefined (reading 'qHandle')")).
Proof.
  intros s no_handle final.
  assert (Hu : unprocessable s (Parsed no_handle)
                 "Cannot read properties of undefined (reading 'qHandle')").
  { apply (no_qReturn s no_handle 1); reflexivity. }
  destruct (unprocessable_frame_is_terminal (JStr "A") (JStr "L") s (Parsed no_handle) _
              [reply_handle 1 (JNum 7); reply_ok 2] Hu) as (_ & _ & _ & Hp & Hsent & Hfin).
  split; [exact Hu|]. split; [exact Hsent|].
  subst final. rewrite (Hfin eq_refl). exact Hp.
Defined.

(** ** Success is reported only after the save *)

Definition method_of (f : JsVal) : JsVal := field f "method".

(** The requests that lead up to a request of each kind, by method. *)
Definition chain (kind : ReqKind) : list JsVal :=
  match kind with
  | openApp => [JStr "OpenDoc"]
  | createObject => [JStr "OpenDoc"; JStr "CreateObject"]
  | save => [JStr "OpenDoc"; JStr "CreateObject"; JStr "DoSave"]
  end.

Definition is_close (ev : WsEvent) : bool :=
  match ev with
  | EvClose _ _ => true
  | _ => false
  end.

(** While the promise is pending the socket has not been closed by the
    driver, and every pending request was transmitted after the requests
    that lead up to it; a promise is resolved only with the message of the
    [save] case, after [close()], and with all three requests transmitted. *)
Record in_order (s : Session) : Prop := mkInOrder {
  ord_state : promise s = Pending → readyState s = CONNECTING ∨ readyState s = OPEN;
  ord_table : promise s = Pending →
              ∀ k kind, requests s !! k = Some kind →
                        chain kind `sublist_of` method_of <$> sent s;
  ord_resolved : ∀ v, promise s = Resolved v →
                      v = "ODAG app link created and app saved" ∧ closing s ∧
                      closeCalls s ≠ [] ∧
                      chain save `sublist_of` method_of <$> sent s
}.

Lemma in_order_init : in_order session_init.
Proof.
  split; simpl; [by left| |done].
  intros _ k kind Hk. by rewrite lookup_empty in Hk.
Qed.

Lemma in_order_settled sel link s ev :
  in_order s → promise s ≠ Pending → in_order (deliver sel link s ev).
Proof.
  intros Hs Hp. pose proof (deliver_settled sel link s ev Hp) as Hp'.
  split.
  - intros Hq. congruence.
  - intros Hq. congruence.
  - intros v Hv. rewrite Hp' in Hv.
    destruct (ord_resolved s Hs v Hv) as (-> & Hc & Hcalls & Hsub).
    destruct (deliver_closing sel link s ev Hc) as [Hc' Hsent].
    destruct (deliver_closeCalls sel link s ev) as [more Hmore].
    split; [done|]. split; [done|]. split; [|by rewrite Hsent].
    rewrite Hmore. destruct (closeCalls s); done.
Qed.

Lemma in_order_rejected s e : in_order (reject (ws_close s) e) ∨ promise s ≠ Pending.
Proof.
  destruct (promise s) eqn:Hp; [left|right; congruence..].
  split; simpl; rewrite Hp; done.
Qed.

(** A request sent on the open socket while the promise is pending. *)
Lemma in_order_send s kind frame :
  in_order s → promise s = Pending → readyState s = OPEN →
  removelast (chain kind) `sublist_of` method_of <$> sent s →
  (∀ i, method_of (frame i) = List.last (chain kind) JNull) →
  in_order (send_request s kind frame).1.
Proof.
  intros Hs Hp Ho Hpre Hm. unfold send_request, ws_send, requests_set. simpl.
  rewrite Ho. simpl. split; simpl.
  - by right.
  - intros _ k kind' Hk. rewrite fmap_app. simpl.
    destruct (decide (k = requestId s)) as [->|Hne].
    + rewrite lookup_insert_eq in Hk. simplify_eq. rewrite Hm.
      assert (Hc : chain kind' = (removelast (chain kind') ++ [List.last (chain kind') JNull])%list).
      { by destruct kind'. }
      rewrite Hc at 1. apply sublist_app; [done|]. reflexivity.
    + rewrite lookup_insert_ne in Hk by congruence.
      apply sublist_inserts_r. by apply (ord_table s Hs Hp k).
  - intros v Hv. congruence.
Qed.

Lemma in_order_set_appHandle s h : in_order s → in_order (set_appHandle s h).
Proof. intros [H1 H2 H3]. split; simpl; done. Qed.

Lemma deliver_in_order sel link s ev :
  table_ok s → in_order s → is_close ev = false → in_order (deliver sel link s ev).
Proof.
  intros Ht Hs Hev.
  destruct (promise s) eqn:Hp; [|apply in_order_settled; congruence..].
  destruct ev as [|[m|v]|msg|code reason|]; try done.
  - (* open *)
    simpl. unfold on_open.
    destruct (ord_state s Hs Hp) as [Hc|Ho]; rewrite ?Hc, ?Ho.
    all: apply in_order_send; try done.
    all: try (apply sublist_nil_l).
    all: split; simpl; [by right | apply (ord_table s Hs) | intros; congruence].
  - (* a frame that is not JSON *)
    simpl. destruct (in_order_rejected s
      (Error ("Failed to parse WebSocket response: " ++ m))); [done|congruence].
  - (* a parsed frame *)
    simpl. unfold on_message.
    assert (Hcatch : ∀ e, in_order (on_message_catch s e)).
    { intros e. destruct (in_order_rejected s
        (Error ("Failed to parse WebSocket response: " ++ message e))); [done|congruence]. }
    destruct (nullish v); [apply Hcatch|].
    destruct (truthy (field v "error")).
    { destruct (in_order_rejected s
        (Error ("WebSocket error: " ++ js_to_string (field (field v "error") "message"))));
        [done|congruence]. }
    destruct (requests_get s (field v "id")) as [kind|] eqn:Hk; [|done].
    assert (Hopen : readyState s = OPEN).
    { destruct (ord_state s Hs Hp) as [Hc|Ho]; [|done].
      destruct Ht as [_ Hempty]. unfold requests_get in Hk.
      destruct (field v "id"); try done. rewrite (Hempty Hc), lookup_empty in Hk. done. }
    assert (Hsub : chain kind `sublist_of` method_of <$> sent s).
    { unfold requests_get in Hk. destruct (field v "id") as [| | |k| | |]; try done.
      by apply (ord_table s Hs Hp k). }
    destruct kind.
    + destruct (nullish (field v "result")); [apply Hcatch|].
      destruct (nullish (field (field v "result") "qReturn")); [apply Hcatch|].
      pose proof (in_order_send (set_appHandle s (field (field (field v "result") "qReturn")
                                                    "qHandle"))
                    createObject
                    (createObjectRequest
                       (appHandle (set_appHandle s (field (field (field v "result") "qReturn")
                                                      "qHandle"))) link)
                    (in_order_set_appHandle s _ Hs) Hp Hopen Hsub (λ _, eq_refl)) as Hsend.
      destruct (send_request _ createObject _) as [s2 [e|]] eqn:E; simpl in Hsend; [|done].
      unfold send_request, ws_send in E. simpl in E. rewrite Hopen in E. done.
    + pose proof (in_order_send s save (saveRequest (appHandle s)) Hs Hp Hopen Hsub
                    (λ _, eq_refl)) as Hsend.
      destruct (send_request _ save _) as [s2 [e|]] eqn:E; simpl in Hsend; [|done].
      unfold send_request, ws_send in E. simpl in E. rewrite Hopen in E. done.
    + split; simpl; rewrite Hp; try done.
      intros v' [= <-]. split; [done|]. split; [apply ws_close_closing|].
      split; [|done]. destruct (closeCalls s); done.
  - (* a socket error *)
    simpl. unfold on_error. split; simpl; rewrite Hp; done.
  - (* the timer *)
    simpl. destruct (timer s); [|done].
    unfold on_timeout. split; simpl; rewrite Hp; done.
Qed.

Lemma run_from_in_order sel link script : ∀ s,
  table_ok s → in_order s → existsb is_close script = false →
  in_order (run_from sel link s script).
Proof.
  induction script as [|ev script IH]; intros s Ht Hs Hc; [done|].
  simpl in Hc. apply orb_false_iff in Hc as [Hev Hc]. simpl.
  apply IH; [by apply deliver_table_ok | by apply deliver_in_order | done].
Qed.

(** X5: the promise of a session resolves only through the [save] case of
    the handler.  If it has resolved by the end of [script], and the socket
    was not closed under the driver before, then an [OpenDoc], a
    [CreateObject] and a [DoSave] request were transmitted, in this order,
    and [close()] was called; whatever follows, the promise stays resolved
    and nothing more is transmitted. *)
Theorem resolved_only_after_save (sel link : JsVal) (script rest : list WsEvent)
    (v : string) :
  existsb is_close script = false →
  promise (run_session sel link script) = Resolved v →
  v = "ODAG app link created and app saved" ∧
  [JStr "OpenDoc"; JStr "CreateObject"; JStr "DoSave"]
    `sublist_of` method_of <$> sent (run_session sel link script) ∧
  closeCalls (run_session sel link script) ≠ [] ∧
  promise (run_session sel link (script ++ rest)) = Resolved v ∧
  sent (run_session sel link (script ++ rest)) = sent (run_session sel link script).
Proof.
  intros Hc Hv.
  pose proof (run_from_in_order sel link script session_init
                (session_init_table_ok) in_order_init Hc) as Hs.
  destruct (ord_resolved _ Hs v Hv) as (-> & Hclosing & Hcalls & Hsub).
  split; [done|]. split; [done|].
  assert (Hrest : run_session sel link (script ++ rest)
                  = run_from sel link (run_session sel link script) rest).
  { unfold run_session, run_from. by rewrite fold_left_app. }
  rewrite Hrest.
  destruct (run_from_closing sel link rest _ Hclosing) as [_ Hsent].
  split; [done|]. split; [|done].
  rewrite run_from_settled; [done|]. congruence.
Qed.

Lemma resolved_only_after_save_witness :
  let script := [ EvOpen; on_connected; reply_handle 1 (JNum 7); reply_ok 2;
                  reply_handle 1 (JNum 7); reply_ok 3 ] in
  let s := run_session (JStr "A") (JStr "L") script in
  existsb is_close script = false ∧
  promise s = Resolved "ODAG app link created and app saved" ∧
  [JStr "OpenDoc"; JStr "CreateObject"; JStr "DoSave"] `sublist_of` method_of <$> sent s ∧
  sent (run_session (JStr "A") (JStr "L") (script ++ [reply_ok 2; EvClose 1000 ""]))
  = sent s.
Proof.
  intros script s.
  assert (Hp : promise s = Resolved "ODAG app link created and app saved")
    by (vm_compute; reflexivity).
  destruct (resolved_only_after_save (JStr "A") (JStr "L") script
              [reply_ok 2; EvClose 1000 ""] _ eq_refl Hp) as (_ & Hsub & _ & _ & Hsent).
  split; [reflexivity|]. split; [exact Hp|]. split; [exact Hsub | exact Hsent].
Defined.

(** * The probe *)

(** X6: [authenticate] issues one GET of [/qrs/about] and always completes.
    It returns [true] and sets [authenticated] exactly when the probe
    resolves with status 200 and a body that is not [null]; when the probe
    resolves with another status it returns [undefined] without raising and
    changes nothing, so that [ensureAuthenticated] completes on an instance
    that is still unauthenticated; when the probe is rejected, or resolves
    with status 200 and a [null] body, it raises "Authentication failed: "
    followed by the message of the cause, and changes nothing. *)
Theorem authenticate_outcomes (w : World) (h : list LogEntry)
    (this this' : ODAGLinkCreator) (r : Result JsVal) (L : list LogEntry) :
  authenticate w h this = (r, this', L) →
  let o := http w h (about_call this) in
  L = [LHttp SiteAuthenticate (about_call this) o] ∧
  match o with
  | AxResolved resp =>
      if status resp =? 200 then
        if nullish (data resp) then
          r = Throw (Error ("Authentication failed: "
                            ++ message (type_error (data resp) "buildVersion"))) ∧
          this' = this
        else r = Ok (JBool true) ∧ this' = set_authenticated true this
      else
        r = Ok JUndefined ∧ this' = this ∧
        ensureAuthenticated w h (set_authenticated false this)
        = (Ok tt, set_authenticated false this,
           [LHttp SiteAuthenticate (about_call this) o])
  | AxRejected e =>
      r = Throw (Error ("Authentication failed: " ++ message e)) ∧ this' = this
  end.
Proof.
  intros Hrun. cbv zeta. rewrite authenticate_eq in Hrun. cbv zeta in Hrun.
  unfold authenticate_result in Hrun. injection Hrun as <- <- <-. split; [done|].
  destruct (http w h (about_call this)) as [resp|e] eqn:Ho; [|done].
  destruct (status resp =? 200) eqn:Hst; [destruct (nullish (data resp)); done|].
  split; [done|]. split; [done|].
  unfold ensureAuthenticated, mbind, M_bind, get_this.
  change (authenticated (set_authenticated false this)) with false. cbv beta iota.
  change (negb false) with true. cbv beta iota.
  rewrite authenticate_eq. cbv zeta.
  change (about_call (set_authenticated false this)) with (about_call this).
  rewrite app_nil_r, Ho. unfold authenticate_result. rewrite Hst. done.
Qed.

Lemma authenticate_outcomes_witness :
  let w := scripted [ AxResolved (mkAxResponse 204 (JStr "")) ] [] in
  (authenticate w [] sample_instance).1.1 = Ok JUndefined ∧
  authenticated (authenticate w [] sample_instance).1.2 = false.
Proof.
  intros w.
  assert (E : authenticate w [] sample_instance
              = ((authenticate w [] sample_instance).1.1,
                 (authenticate w [] sample_instance).1.2,
                 (authenticate w [] sample_instance).2))
    by (vm_compute; reflexivity).
  destruct (authenticate_outcomes _ _ _ _ _ _ E) as [_ Ho].
  change (http w [] (about_call sample_instance))
    with (AxResolved (mkAxResponse 204 (JStr ""))) in Ho.
  destruct Ho as (Hr & Ht & _). split; [exact Hr|]. rewrite Ht. reflexivity.
Defined.

(** * The failures of link creation *)

(** X7: how [createODAGLink] fails.  It always completes, after at most one
    probe and one POST, and an error it raises carries no response.  When
    the POST is rejected without a response the message is "Failed to create
    ODAG link: " and the message of the cause; the same words precede the
    message of a failed probe, the TypeError of a [null] argument, and the
    method's own "no ID returned", which is raised inside its [try] block.
    For the statuses 401, 403, 404 and 405 the message is fixed, whatever
    the body: the one for 404 names port 9098 also when another [odagPort]
    is configured.  For 400, 500 and any other status the [message] of the
    body is used when it is set. *)
Theorem createODAGLink_failures (w : World) (linkConfig : JsVal) (h : list LogEntry)
    (this this' : ODAGLinkCreator) (r : Result JsVal) (L : list LogEntry) :
  createODAGLink w linkConfig h this = (r, this', L) →
  r ≠ Hang ∧ (length L ≤ 2)%nat ∧
  (∀ e, r = Throw e → response e = None) ∧
  (∀ c e, last L = Some (LHttp SiteCreateLink c (AxRejected e)) →
     response e = None →
     r = Throw (Error ("Failed to create ODAG link: " ++ message e))) ∧
  (∀ c e st dt, last L = Some (LHttp SiteCreateLink c (AxRejected e)) →
     response e = Some (st, dt) →
     let detail dflt := js_to_string (js_or (opt_get dt "message") (JStr dflt)) in
     let raised msg := r = Throw (Error msg) in
     (st = 400 → raised ("Bad Request: " ++ detail "Invalid ODAG configuration")) ∧
     (st = 401 → raised "Unauthorized: Please check your authentication credentials") ∧
     (st = 403 → raised "Forbidden: User may not have ODAG permissions") ∧
     (st = 404 → raised "Not Found: ODAG service may not be running on port 9098") ∧
     (st = 405 →
      raised "Method Not Allowed: Check ODAG service configuration and URL path") ∧
     (st = 500 → raised ("Server Error: " ++ detail "Internal server error")) ∧
     (¬ In st [400; 401; 403; 404; 405; 500] →
      raised ("HTTP " ++ pretty st ++ ": " ++ detail (message e)))) ∧
  (∀ c resp, last L = Some (LHttp SiteCreateLink c (AxResolved resp)) →
     nested_shape (data resp) = false → flat_shape (data resp) = false →
     r = Throw (Error ("Failed to create ODAG link: "
                       ++ "Failed to create ODAG link - no ID returned"))) ∧
  ((∀ c o, last L ≠ Some (LHttp SiteCreateLink c o)) →
   ∃ m, r = Throw (Error ("Failed to create ODAG link: " ++ m)) ∧
        (nullish linkConfig = true ∨ ∃ m', m = "Authentication failed: " ++ m')).
Proof.
  intros Hrun.
  destruct (createODAGLink_cases w linkConfig h this)
    as (r0 & this0 & A & tail & E & HA & _ & Hcase).
  rewrite E in Hrun. simplify_eq.
  pose proof HA as (_ & Hlen & _).
  destruct Hcase as [[-> (m & -> & Hwhy)] | (Hn & -> & ->)].
  - rewrite app_nil_r.
    assert (Hlast : ∀ site c o, last A = Some (LHttp site c o) → site = SiteAuthenticate).
    { intros site c o. by apply last_auth_log with (this := this). }
    split; [done|]. split; [lia|]. split; [by intros e [= <-]|].
    split; [intros c e Hl; by apply Hlast in Hl|].
    split; [intros c e st dt Hl; by apply Hlast in Hl|].
    split; [intros c resp Hl; by apply Hlast in Hl|].
    intros _. exists m. split; [done|].
    destruct Hwhy as [?|(m' & -> & _)]; eauto.
  - rewrite last_snoc, length_app. simpl.
    set (o := http w (h ++ A)%list (link_call this linkConfig)).
    split; [apply link_result_not_hang|]. split; [lia|].
    split.
    { intros e He. unfold link_result in He. repeat case_match; by simplify_eq. }
    split.
    { intros c e [= <- Ho] He. rewrite Ho. unfold link_result. by rewrite He. }
    split.
    { intros c e st dt [= <- Ho] He. rewrite Ho. unfold link_result. rewrite He.
      unfold link_error_message. cbv zeta.
      repeat split; try (intros ->; reflexivity).
      intros Hst. simpl in Hst.
      repeat (match goal with
              | |- context [st =? ?n] => destruct (Z.eqb_spec st n) as [->|?]; [tauto|]
              end).
      done. }
    split.
    { intros c resp [= <- Ho] Hnest Hflat. rewrite Ho. unfold link_result.
      by rewrite Hnest, Hflat. }
    intros Hno. exfalso. by eapply Hno.
Qed.

Lemma createODAGLink_failures_witness :
  let w := scripted [ about_ok ] [] in
  let w' := scripted [ about_ok; rejected 404 (JObj [ ("message", JStr "no route") ]) ] [] in
  (createODAGLink w sample_linkConfig [] sample_instance).1.1
  = Throw (Error "Failed to create ODAG link: connect ECONNREFUSED") ∧
  (createODAGLink w' sample_linkConfig [] sample_instance).1.1
  = Throw (Error "Not Found: ODAG service may not be running on port 9098").
Proof.
  intros w w'. split.
  - assert (E : createODAGLink w sample_linkConfig [] sample_instance
                = ((createODAGLink w sample_linkConfig [] sample_instance).1.1,
                   (createODAGLink w sample_linkConfig [] sample_instance).1.2,
                   (createODAGLink w sample_linkConfig [] sample_instance).2))
      by (vm_compute; reflexivity).
    destruct (createODAGLink_failures _ _ _ _ _ _ _ E) as (_ & _ & _ & Hnet & _).
    refine (Hnet (link_call sample_instance sample_linkConfig)
              (Error "connect ECONNREFUSED") _ eq_refl).
    vm_compute. reflexivity.
  - assert (E : createODAGLink w' sample_linkConfig [] sample_instance
                = ((createODAGLink w' sample_linkConfig [] sample_instance).1.1,
                   (createODAGLink w' sample_linkConfig [] sample_instance).1.2,
                   (createODAGLink w' sample_linkConfig [] sample_instance).2))
      by (vm_compute; reflexivity).
    destruct (createODAGLink_failures _ _ _ _ _ _ _ E) as (_ & _ & _ & _ & Hst & _).
    destruct (Hst (link_call sample_instance sample_linkConfig)
                (mkJsError "Request failed with status code 404"
                   (Some (404, JObj [ ("message", JStr "no route") ])))
                404 (JObj [ ("message", JStr "no route") ])) as (_ & _ & _ & H404 & _).
    { vm_compute. reflexivity. }
    { reflexivity. }
    exact (H404 eq_refl).
Defined.

(** * The lookup of an application *)



(** * The HTTP front end

    The two API routes of the Express application, applied to the instance
    [odagService].  [res.json(result)] answers with status 200;
    [res.status(500).json(...)] with status 500. *)

Record Reply : Type := mkReply {
  statusCode : Z;
  json : JsVal
}.

Section Routes.

Variable w : World.

(** [app.get('/api/odag/test-connection', ...)] *)
Definition get_api_odag_test_connection : M Reply :=
  try_catch
    (result ← testConnection w; mret (mkReply 200 result))
    (fun error =>
       mret (mkReply 500 (JObj [ ("success", JBool false); ("error", JStr (message error)) ]))).

(** [app.post('/api/odag/create', ...)], on [req.body] *)
Definition post_api_odag_create (req_body : JsVal) : M Reply :=
  try_catch
    (result ← createCompleteODAGLink w req_body; mret (mkReply 200 result))
    (fun error =>
       mret (mkReply 500 (JObj [ ("success", JBool false); ("error", JStr (message error)) ]))).

End Routes.

(** The object [testConnection] returns once the probe has not thrown. *)
Definition connection_tested : JsVal :=
  JObj [ ("success", JBool true);
         ("message", JStr "Connection test completed");
         ("qrsApi", JStr "working");
         ("authentication", JStr "successful") ].

(** What [testConnection] returns and exchanges, by the answer [o] to its
    probe; [o'] is the answer to the read that may follow. *)
Definition tested (this : ODAGLinkCreator) (o : AxOutcome)
    (result : JsVal) (this' : ODAGLinkCreator) (L : list LogEntry) : Prop :=
  let probe := LHttp SiteAuthenticate (about_call this) o in
  match o with
  | AxRejected e =>
      result = failure ("Authentication failed: " ++ message e) ∧
      L = [probe] ∧ this' = this
  | AxResolved resp =>
      if (status resp =? 200) && nullish (data resp) then
        result = failure ("Authentication failed: "
                          ++ message (type_error (data resp) "buildVersion")) ∧
        L = [probe] ∧ this' = this
      else
        result = connection_tested ∧
        (∃ o', L = [ probe;
                     LHttp SiteTestConnection
                       (mkHttpCall GET (linksUrl this) JUndefined (axiosConfig this)) o' ]) ∧
        this' = (if status resp =? 200 then set_authenticated true this else this)
  end.

Lemma testConnection_tested w h this :
  ∃ result this' L,
    testConnection w h this = (Ok result, this', L) ∧
    tested this (http w h (about_call this)) result this' L.
Proof.
  unfold testConnection, try_catch, mbind, M_bind at 1.
  rewrite authenticate_eq. cbv zeta. unfold authenticate_result, tested.
  destruct (http w h (about_call this)) as [resp|e]; [|simpl; eexists _, _, _; eauto].
  destruct (status resp =? 200) eqn:Hst; simpl.
  - destruct (nullish (data resp)) eqn:Hn; simpl; [eexists _, _, _; eauto|].
    unfold mbind, M_bind, get_this, axios, mret, M_ret. simpl.
    destruct (http w _ _); simpl; eexists _, _, _; eauto 10.
  - unfold mbind, M_bind, get_this, axios, mret, M_ret. simpl.
    destruct (http w _ _); simpl; eexists _, _, _; eauto 10.
Qed.

(** X9: [testConnection] always returns, and its route always answers with
    status 200.  It issues the probe in any case, also on an authenticated
    instance.  When [authenticate] throws, the result is a failure with its
    message and nothing else is requested; otherwise the link collection of
    the ODAG service is read once and the result reports success whatever
    that read gives.  Success is also reported when the probe resolved with
    a status other than 200, which leaves [authenticated] as it was. *)
Theorem testConnection_outcomes (w : World) (h : list LogEntry) (this : ODAGLinkCreator) :
  ∃ result this' L,
    testConnection w h this = (Ok result, this', L) ∧
    get_api_odag_test_connection w h this = (Ok (mkReply 200 result), this', L) ∧
    tested this (http w h (about_call this)) result this' L.
Proof.
  destruct (testConnection_tested w h this) as (result & this' & L & E & Ht).
  exists result, this', L. split; [exact E|]. split; [|exact Ht].
  unfold get_api_odag_test_connection, try_catch, mbind, M_bind. rewrite E.
  simpl. by rewrite app_nil_r.
Qed.

(** * The orchestration: every run *)

Section Runs.

Variables (w : World) (options : JsVal) (h : list LogEntry) (this : ODAGLinkCreator).

(** The exchanges of a run are reads, followed by at most one creation
    request, followed, if and only if that request returned a link, by one
    socket; the run returns a failure in the first two cases and, in the
    third, what the session of the socket settles. *)
Definition run_shape (r : Result JsVal) (L : list LogEntry) : Prop :=
  ∃ R tail,
    L = (R ++ tail)%list ∧ Forall is_read R ∧
    ((tail = [] ∧ ∃ msg, r = Ok (failure msg)) ∨
     (∃ o, tail = [LHttp SiteCreateLink (link_call this (linkConfig_of options)) o] ∧
           (∀ odagLink, link_result o ≠ Ok odagLink) ∧
           ∃ msg, r = Ok (failure msg)) ∨
     (∃ o odagLink script v1 v2,
        tail = [ LHttp SiteCreateLink (link_call this (linkConfig_of options)) o;
                 LWs (field options "selectionAppId") (field odagLink "id")
                     (ws_connect this (field options "selectionAppId")) script ] ∧
        link_result o = Ok odagLink ∧
        r = match promise (run_session (field options "selectionAppId")
                             (field odagLink "id") script) with
            | Resolved _ => Ok (success_result options odagLink v1 v2)
            | Rejected e => Ok (partial_result options odagLink v1 v2 (message e))
            | Pending => Hang
            end)).

Lemma completes_run_shape r L : completes w options h this r L → run_shape r L.
Proof.
  intros Hdone.
  destruct Hdone as
    [ A msg HA Hearly
    | A V1 e HA Hf HV1
    | A V1 v1 V2 e HA Hf HV1 HV2
    | A V1 v1 V2 v2 HA Hf HV1 HV2 Hv1
    | A V1 v1 V2 v2 HA Hf HV1 HV2 Hv1 Hv2
    | A V1 v1 V2 v2 C e HA Hf HV1 HV2 Hv1 Hv2 HC
    | A V1 v1 V2 v2 C odagLink HA Hf HV1 HV2 Hv1 Hv2 HC script ].
  all: pose proof (is_auth_is_read A (auth_log_is_auth this A HA)) as HrA.
  all: try pose proof (validate_shape_read _ _ _ _ _ _ HV1) as HrV1.
  all: try pose proof (validate_shape_read _ _ _ _ _ _ HV2) as HrV2.
  - exists A, []. rewrite app_nil_r. split; [done|]. split; [done|]. left. eauto.
  - exists (A ++ V1)%list, []. rewrite app_nil_r. split; [done|].
    split; [by apply Forall_app|]. left. eauto.
  - exists (A ++ V1 ++ V2)%list, []. rewrite app_nil_r. split; [done|].
    split; [by rewrite !Forall_app|]. left. eauto.
  - exists (A ++ V1 ++ V2)%list, []. rewrite app_nil_r. split; [done|].
    split; [by rewrite !Forall_app|]. left. eauto.
  - exists (A ++ V1 ++ V2)%list, []. rewrite app_nil_r. split; [done|].
    split; [by rewrite !Forall_app|]. left. eauto.
  - destruct HC as (A3 & HA3 & [[-> _] | [-> Hr]]).
    + exists (A ++ V1 ++ V2 ++ A3)%list, []. rewrite app_nil_r. split; [done|].
      split; [rewrite !Forall_app; auto using is_auth_is_read|]. left. eauto.
    + set (o := http w _ _) in *.
      exists (A ++ V1 ++ V2 ++ A3)%list, [LHttp SiteCreateLink (link_call this (linkConfig_of options)) o].
      split; [by rewrite <- !app_assoc|].
      split; [rewrite !Forall_app; auto using is_auth_is_read|]. right. left.
      eexists. split; [done|]. split; [|eauto]. intros odagLink. congruence.
  - destruct (create_shape_ok _ _ _ _ _ _ HC) as (A3 & o & HA3 & -> & Hr).
    clearbody script.
    exists (A ++ V1 ++ V2 ++ A3)%list,
           [ LHttp SiteCreateLink (link_call this (linkConfig_of options)) o;
             LWs (field options "selectionAppId") (field odagLink "id")
                 (ws_connect this (field options "selectionAppId")) script ].
    split; [by rewrite <- !app_assoc|].
    split; [rewrite !Forall_app; auto using is_auth_is_read|]. right. right.
    eexists _, _, _, _, _. split; [done|]. split; [exact Hr|]. done.
Qed.

End Runs.

Lemma last_cons_cons_snoc {A : Type} (l : list A) (x y : A) :
  last (l ++ [x; y]) = Some y.
Proof.
  change (l ++ [x; y])%list with (l ++ [x] ++ [y])%list.
  by rewrite app_assoc, last_snoc.
Qed.

(** X10: the exchanges of any run of [createCompleteODAGLink]: probes and
    lookups first; then at most one creation request; then one socket, if
    and only if the creation request returned a link, opened for the
    selection application and the [id] of that link.  Nothing follows the
    socket, and no second creation request is ever issued. *)
Theorem createCompleteODAGLink_exchanges (w : World) (options : JsVal)
    (h : list LogEntry) (this this' : ODAGLinkCreator) (r : Result JsVal)
    (L : list LogEntry) :
  createCompleteODAGLink w options h this = (r, this', L) →
  ∃ R tail,
    L = (R ++ tail)%list ∧ Forall is_read R ∧
    let creation := LHttp SiteCreateLink (link_call this (linkConfig_of options)) in
    (tail = [] ∨
     (∃ o, tail = [creation o] ∧ ∀ odagLink, link_result o ≠ Ok odagLink) ∨
     (∃ o odagLink script,
        tail = [ creation o;
                 LWs (field options "selectionAppId") (field odagLink "id")
                     (ws_connect this (field options "selectionAppId")) script ] ∧
        link_result o = Ok odagLink)).
Proof.
  intros Hrun.
  destruct (createCompleteODAGLink_completes w options h this)
    as (r0 & this0 & L0 & E & _ & Hdone).
  unfold run in E. rewrite E in Hrun. simplify_eq.
  destruct (completes_run_shape _ _ _ _ _ _ Hdone) as (R & tail & -> & HR & Hcase).
  exists R, tail. split; [done|]. split; [done|].
  destruct Hcase as [[-> _] | [(o & -> & Hno & _) | (o & l & s & v1 & v2 & -> & Hl & _)]];
    [by left | right; left; eauto | right; right; eauto 10].
Qed.

Lemma createCompleteODAGLink_exchanges_witness :
  let w := scripted [ about_ok; app_found "A" "Sales"; app_found "B" "Detail";
                      rejected 403 JNull ] [ EvOpen ] in
  let L := (createCompleteODAGLink w sample_options [] sample_instance).2 in
  ∃ R o, L = (R ++ [LHttp SiteCreateLink
                       (link_call sample_instance (linkConfig_of sample_options)) o])%list ∧
         Forall is_read R ∧ length R = 3%nat.
Proof.
  intros w L.
  assert (E : createCompleteODAGLink w sample_options [] sample_instance
              = ((createCompleteODAGLink w sample_options [] sample_instance).1.1,
                 (createCompleteODAGLink w sample_options [] sample_instance).1.2, L))
    by (vm_compute; reflexivity).
  destruct (createCompleteODAGLink_exchanges _ _ _ _ _ _ _ E) as (R & tail & HL & HR & Hcase).
  assert (Hlen : length L = 4%nat) by (vm_compute; reflexivity).
  assert (Hlast : ∃ c o, last L = Some (LHttp SiteCreateLink c o)).
  { eexists _, _. vm_compute. reflexivity. }
  destruct Hlast as (c0 & o0 & Hlast).
  cbv zeta in Hcase.
  destruct Hcase as [-> | [(o & -> & _) | (o & l & s & -> & _)]].
  - exfalso. rewrite app_nil_r in HL. rewrite HL in Hlast.
    apply last_Some in Hlast as [R' ->]. apply Forall_app in HR as [_ HR].
    by inversion HR.
  - exists R, o. split; [exact HL|]. split; [exact HR|].
    rewrite HL, length_app in Hlen. simpl in Hlen. lia.
  - exfalso. rewrite HL in Hlast.
    rewrite (last_cons_cons_snoc R) in Hlast. discriminate Hlast.
Defined.

(** X11: [createCompleteODAGLink] never throws, so its route never answers
    with status 500: a failure of the operation is answered with status 200
    and [{success: false, error}].  The route leaves a request unanswered
    exactly when the run ends with a socket whose session never settles, in
    which case the link has already been created. *)
Theorem create_route_never_answers_500 (w : World) (req_body : JsVal)
    (h : list LogEntry) (this this' : ODAGLinkCreator) (r : Result Reply)
    (L : list LogEntry) :
  post_api_odag_create w req_body h this = (r, this', L) →
  (r = Hang ∨
   ∃ result, r = Ok (mkReply 200 result) ∧
             createCompleteODAGLink w req_body h this = (Ok result, this', L) ∧
             ((∃ msg, result = failure msg) ∨ field result "success" = JBool true)) ∧
  (r = Hang ↔
   ∃ sel link c script,
     last L = Some (LWs sel link c script) ∧
     promise (run_session sel link script) = Pending) ∧
  (r = Hang →
   ∃ c o odagLink, In (LHttp SiteCreateLink c o) L ∧ link_result o = Ok odagLink).
Proof.
  intros Hrun.
  destruct (createCompleteODAGLink_completes w req_body h this)
    as (r0 & this0 & L0 & E & _ & Hdone).
  unfold run in E.
  unfold post_api_odag_create, try_catch, mbind, M_bind in Hrun. rewrite E in Hrun.
  destruct (completes_run_shape _ _ _ _ _ _ Hdone) as (R & tail & -> & HR & Hcase).
  assert (Hread : ∀ sel link c script, last R ≠ Some (LWs sel link c script)).
  { intros sel link c script Hl. apply last_Some in Hl as [R' ->].
    apply Forall_app in HR as [_ HR]. by inversion HR. }
  destruct Hcase as [[-> (msg & ->)] | [(o & -> & Hno & msg & ->)
    | (o & l & s & v1 & v2 & -> & Hl & ->)]].
  all: set (c := link_call this (linkConfig_of req_body)) in *.
  all: try set (c' := ws_connect this (field req_body "selectionAppId")) in *.
  - simpl in Hrun. rewrite !app_nil_r in *. simplify_eq.
    split; [right; eauto 10|]. split; [|done].
    split; [done|]. intros (sel & link & c0 & script & Hl & _). by apply Hread in Hl.
  - simpl in Hrun. rewrite !app_nil_r in *. simplify_eq.
    split; [right; eauto 10|]. split; [|done].
    split; [done|]. intros (sel & link & c0 & script & Hl & _).
    rewrite last_snoc in Hl. done.
  - assert (Hlast : last (R ++ [LHttp SiteCreateLink c o;
                                LWs (field req_body "selectionAppId") (field l "id") c' s])%list
                    = Some (LWs (field req_body "selectionAppId") (field l "id") c' s)).
    { apply last_cons_cons_snoc. }
    assert (Hin : In (LHttp SiteCreateLink c o)
                    (R ++ [LHttp SiteCreateLink c o;
                           LWs (field req_body "selectionAppId") (field l "id") c' s])%list).
    { apply in_or_app. right. by left. }
    destruct (promise (run_session (field req_body "selectionAppId") (field l "id") s))
      eqn:Hp; simpl in Hrun; rewrite ?app_nil_r in Hrun; simplify_eq.
    + split; [by left|]. split; [|eauto]. split; [|done]. intros _. eauto 10.
    + split; [right; eauto 10|]. split; [|done]. split; [done|].
      intros (sel & link & c0 & script & Hl' & Hpend). rewrite Hlast in Hl'.
      simplify_eq. congruence.
    + split; [right; eauto 10|]. split; [|done]. split; [done|].
      intros (sel & link & c0 & script & Hl' & Hpend). rewrite Hlast in Hl'.
      simplify_eq. congruence.
Qed.

Lemma create_route_never_answers_500_witness :
  let w := scripted [ about_ok; app_found "A" "Sales"; app_found "B" "Detail";
                      ok200 (JObj [ ("id", JStr "link-1") ]) ] [ EvOpen; EvClose 1000 "" ] in
  let w' := scripted [] [] in
  (post_api_odag_create w sample_options [] sample_instance).1.1 = Hang ∧
  (post_api_odag_create w' JNull [] sample_instance).1.1
  = Ok (mkReply 200 (failure "Authentication failed: connect ECONNREFUSED")).
Proof.
  intros w w'. split.
  - assert (E : post_api_odag_create w sample_options [] sample_instance
                = ((post_api_odag_create w sample_options [] sample_instance).1.1,
                   (post_api_odag_create w sample_options [] sample_instance).1.2,
                   (post_api_odag_create w sample_options [] sample_instance).2))
      by (vm_compute; reflexivity).
    destruct (create_route_never_answers_500 _ _ _ _ _ _ _ E) as (_ & [_ Hhang] & _).
    apply Hhang. eexists _, _, _, _. split; vm_compute; reflexivity.
  - assert (E : post_api_odag_create w' JNull [] sample_instance
                = ((post_api_odag_create w' JNull [] sample_instance).1.1,
                   (post_api_odag_create w' JNull [] sample_instance).1.2,
                   (post_api_odag_create w' JNull [] sample_instance).2))
      by (vm_compute; reflexivity).
    destruct (create_route_never_answers_500 _ _ _ _ _ _ _ E) as ([Hh | Hok] & _ & _).
    + vm_compute in Hh. discriminate Hh.
    + destruct Hok as (result & Hr & _). rewrite Hr. vm_compute in Hr.
      injection Hr as <-. reflexivity.
Defined.

(** * Invariants of the instance and of its exchanges

    [triple pre m post]: started on an instance that satisfies the invariant
    [P] and [pre], the computation [m] keeps [P], every exchange it performs
    satisfies [E], and [post] holds of the value it returns and of the
    instance then. *)

Section Invariant.

Variable w : World.
Variable P : ODAGLinkCreator → Prop.
Variable E : LogEntry → Prop.

Hypothesis P_authenticated : ∀ this, P this → P (set_authenticated true this).

Definition triple {A : Type} (pre : ODAGLinkCreator → Prop) (m : M A)
    (post : A → ODAGLinkCreator → Prop) : Prop :=
  ∀ h this, P this → pre this →
    P (m h this).1.2 ∧ Forall E (m h this).2 ∧
    ∀ a, (m h this).1.1 = Ok a → post a (m h this).1.2.

Lemma triple_ret {A} pre (a : A) (post : A → ODAGLinkCreator → Prop) :
  (∀ this, pre this → post a this) → triple pre (mret a) post.
Proof. intros Hp h this HP Hpre. simpl. split; [done|]. split; [done|]. intros ? [= <-]. auto. Qed.

Lemma triple_throw {A} pre e (post : A → ODAGLinkCreator → Prop) :
  triple pre (throw e) post.
Proof. intros h this HP Hpre. simpl. done. Qed.

Lemma triple_eval {A} pre (r : Result A) : triple pre (eval r) (λ _ this, pre this).
Proof. intros h this HP Hpre. simpl. done. Qed.

Lemma triple_get_this pre : triple pre get_this (λ a this, a = this ∧ pre this).
Proof. intros h this HP Hpre. simpl. split; [done|]. split; [done|]. by intros ? [= <-]. Qed.

Lemma triple_assign pre : triple pre (assign_authenticated true) (λ _ _, True).
Proof. intros h this HP Hpre. simpl. split; [auto|]. done. Qed.

Lemma triple_bind {A B} pre (m : M A) (f : A → M B) mid post :
  triple pre m mid → (∀ a, triple (mid a) (f a) post) → triple pre (m ≫= f) post.
Proof.
  intros Hm Hf h this HP Hpre. unfold mbind, M_bind.
  specialize (Hm h this HP Hpre). destruct (m h this) as [[[a|e|] this1] l1]; simpl in *.
  - destruct Hm as (HP1 & Hl1 & Ha).
    specialize (Hf a (h ++ l1)%list this1 HP1 (Ha a eq_refl)).
    destruct (f a (h ++ l1)%list this1) as [[r this2] l2]. simpl in *.
    destruct Hf as (HP2 & Hl2 & Hr). split; [done|]. split; [|done].
    by apply Forall_app.
  - destruct Hm as (HP1 & Hl1 & _). done.
  - destruct Hm as (HP1 & Hl1 & _). done.
Qed.

Lemma triple_try_catch {A} pre (m : M A) (handler : JsError → M A) post :
  triple pre m post → (∀ e, triple (λ _, True) (handler e) post) →
  triple pre (try_catch m handler) post.
Proof.
  intros Hm Hh h this HP Hpre. unfold try_catch.
  specialize (Hm h this HP Hpre). destruct (m h this) as [[[a|e|] this1] l1]; simpl in *;
    try done.
  destruct Hm as (HP1 & Hl1 & _).
  specialize (Hh e (h ++ l1)%list this1 HP1 I).
  destruct (handler e (h ++ l1)%list this1) as [[r this2] l2]. simpl in *.
  destruct Hh as (HP2 & Hl2 & Hr). split; [done|]. split; [|done].
  by apply Forall_app.
Qed.

Lemma triple_weaken {A} (pre pre' : ODAGLinkCreator → Prop) (m : M A)
    (post post' : A → ODAGLinkCreator → Prop) :
  triple pre m post → (∀ this, pre' this → pre this) →
  (∀ a this, post a this → post' a this) → triple pre' m post'.
Proof.
  intros Hm H1 H2 h this HP Hpre. destruct (Hm h this HP (H1 _ Hpre)) as (? & ? & Ha).
  split; [done|]. split; [done|]. intros a Hr. auto.
Qed.

Lemma triple_axios pre site meth url body this0 :
  (∀ this, pre this → this = this0) →
  (P this0 → ∀ o, E (LHttp site (mkHttpCall meth url body (axiosConfig this0)) o)) →
  triple pre (axios w site meth url body) (λ _ _, True).
Proof.
  intros Hpre HE h this HP Hthis. apply Hpre in Hthis as ->.
  unfold axios. simpl. split; [done|]. split; [|done].
  constructor; [by apply HE | done].
Qed.

(** What [E] has to grant for each request of the program: the probe (of an
    instance in [pre]), a lookup, a creation, the read of the link
    collection, a socket. *)
Definition probe_ok (pre : ODAGLinkCreator → Prop) : Prop :=
  ∀ this o, P this → pre this → E (LHttp SiteAuthenticate (about_call this) o).

Definition first_probe_ok : Prop := probe_ok (λ this, authenticated this = false).

Definition lookup_ok (appId : JsVal) : Prop :=
  ∀ this o, P this → E (LHttp (SiteValidateApp appId) (app_call this appId) o).

Definition creation_ok (linkConfig : JsVal) : Prop :=
  ∀ this o, P this → E (LHttp SiteCreateLink (link_call this linkConfig) o).

Definition links_read_ok : Prop :=
  ∀ this o, P this →
    E (LHttp SiteTestConnection
         (mkHttpCall GET (linksUrl this) JUndefined (axiosConfig this)) o).

Definition socket_ok (sel link : JsVal) : Prop :=
  ∀ this script, P this → E (LWs sel link (ws_connect this sel) script).

Lemma triple_authenticate pre :
  probe_ok pre → triple pre (authenticate w) (λ _ _, True).
Proof.
  intros HE h this HP Hpre. rewrite authenticate_eq. cbv zeta. simpl.
  split; [|split; [|done]].
  - repeat case_match; auto.
  - constructor; [by apply HE | done].
Qed.

Lemma triple_ensureAuthenticated :
  first_probe_ok → triple (λ _, True) (ensureAuthenticated w) (λ _ _, True).
Proof.
  intros HE. unfold ensureAuthenticated.
  eapply triple_bind; [apply triple_get_this|]. intros this.
  destruct (authenticated this) eqn:Ha; simpl; [by apply triple_ret|].
  eapply triple_bind; [|intros; by apply triple_ret].
  eapply triple_weaken; [apply (triple_authenticate _ HE)| |done].
  intros this' [-> _]. done.
Qed.

Ltac triple_leaf := first [ by apply triple_ret | apply triple_throw ].

Lemma triple_validateAppId appId :
  first_probe_ok → lookup_ok appId →
  triple (λ _, True) (validateAppId w appId) (λ _ _, True).
Proof.
  intros HE Happ. unfold validateAppId. apply triple_try_catch.
  - eapply triple_bind; [by apply triple_ensureAuthenticated|]. intros ?; cbv beta.
    eapply triple_bind; [apply triple_get_this|]. intros this. cbv zeta.
    eapply triple_bind.
    { apply (triple_axios _ _ _ _ _ this); [by intros ? [-> _]|].
      intros HP o. exact (Happ this o HP). }
    intros response. case_match; triple_leaf.
  - intros e. repeat case_match; triple_leaf.
Qed.

Lemma triple_createODAGLink linkConfig :
  first_probe_ok → creation_ok linkConfig →
  triple (λ _, True) (createODAGLink w linkConfig) (λ _ _, True).
Proof.
  intros HE Hlink. unfold createODAGLink. apply triple_try_catch.
  - eapply triple_bind; [by apply triple_ensureAuthenticated|]. intros ?; cbv beta.
    eapply triple_bind; [apply triple_get_this|]. intros this. cbv zeta.
    eapply triple_bind; [apply triple_eval|]. intros ?; cbv beta.
    eapply triple_bind.
    { apply (triple_axios _ _ _ _ _ this); [by intros ? [-> _]|].
      intros HP o. exact (Hlink this o HP). }
    intros response. cbv zeta. repeat case_match; triple_leaf.
  - intros e. repeat case_match; triple_leaf.
Qed.

Lemma triple_addNavigationLinkToApp sel link name description :
  socket_ok sel link →
  triple (λ _, True) (addNavigationLinkToApp w sel link name description) (λ _ _, True).
Proof.
  intros Hws h this HP _. unfold addNavigationLinkToApp. simpl.
  split; [done|]. split; [|done]. constructor; [|done]. exact (Hws this _ HP).
Qed.

Lemma triple_check_required options fields :
  triple (λ _, True) (check_required options fields) (λ _ _, True).
Proof.
  induction fields as [|f fields IH]; simpl; [by apply triple_ret|].
  case_match; [apply triple_throw | done].
Qed.

Lemma triple_createCompleteODAGLink options :
  first_probe_ok →
  lookup_ok (field options "selectionAppId") →
  lookup_ok (field options "templateAppId") →
  creation_ok (linkConfig_of options) →
  (∀ link, socket_ok (field options "selectionAppId") link) →
  triple (λ _, True) (createCompleteODAGLink w options) (λ _ _, True).
Proof.
  intros HE Hsel Htmpl Hlink Hws. unfold createCompleteODAGLink.
  apply triple_try_catch; [|intros; by apply triple_ret].
  eapply triple_bind; [by apply triple_ensureAuthenticated|]. intros ?; cbv beta zeta.
  eapply triple_bind; [apply triple_eval|]. intros selectionAppId.
  case_match; [apply triple_throw|].
  eapply triple_bind.
  { eapply triple_weaken; [apply triple_check_required|done|done]. }
  intros ?; cbv beta.
  eapply triple_bind.
  { eapply triple_weaken; [by apply triple_validateAppId|done|done]. }
  intros selV.
  eapply triple_bind.
  { eapply triple_weaken; [by apply triple_validateAppId|done|done]. }
  intros tmplV.
  case_match; [apply triple_throw|]. case_match; [apply triple_throw|].
  eapply triple_bind.
  { eapply triple_weaken; [by apply (triple_createODAGLink (linkConfig_of options))|done|done]. }
  intros odagLink.
  apply triple_try_catch; [|intros; by apply triple_ret].
  eapply triple_bind; [|intros; by apply triple_ret].
  eapply triple_weaken; [by apply triple_addNavigationLinkToApp|done|done].
Qed.

Lemma triple_testConnection :
  probe_ok (λ _, True) → links_read_ok →
  triple (λ _, True) (testConnection w) (λ _ _, True).
Proof.
  intros HE Htest. unfold testConnection.
  apply triple_try_catch; [|intros; by apply triple_ret].
  eapply triple_bind; [by apply triple_authenticate|]. intros ?; cbv beta.
  eapply triple_bind; [apply triple_get_this|]. intros this.
  eapply (triple_bind _ _ _ (λ _ _, True)); [|intros; by apply triple_ret].
  apply triple_try_catch; [|intros; by apply triple_ret].
  eapply (triple_bind _ _ _ (λ _ _, True)); [|intros; by apply triple_ret].
  apply (triple_axios _ _ _ _ _ this); [by intros ? [-> _]|].
  intros HP o. exact (Htest this o HP).
Qed.

(** What [E] has to grant for a call of each public method. *)
Definition op_ok (op : Op) : Prop :=
  match op with
  | CallAuthenticate => probe_ok (λ _, True)
  | CallEnsureAuthenticated => first_probe_ok
  | CallValidateAppId appId => first_probe_ok ∧ lookup_ok appId
  | CallCreateODAGLink linkConfig => first_probe_ok ∧ creation_ok linkConfig
  | CallAddNavigationLinkToApp sel link _ _ => socket_ok sel link
  | CallCreateCompleteODAGLink options =>
      first_probe_ok ∧
      lookup_ok (field options "selectionAppId") ∧
      lookup_ok (field options "templateAppId") ∧
      creation_ok (linkConfig_of options) ∧
      ∀ link, socket_ok (field options "selectionAppId") link
  | CallTestConnection => probe_ok (λ _, True) ∧ links_read_ok
  end.

Lemma triple_call op : op_ok op → triple (λ _, True) (call w op) (λ _ _, True).
Proof.
  destruct op; simpl; intros Hop;
    try (eapply triple_bind; [|intros; by apply triple_ret]).
  - by apply triple_authenticate.
  - by apply triple_ensureAuthenticated.
  - destruct Hop. by apply triple_validateAppId.
  - destruct Hop. by apply triple_createODAGLink.
  - by apply triple_addNavigationLinkToApp.
  - destruct Hop as (?&?&?&?&?). by apply triple_createCompleteODAGLink.
  - destruct Hop. by apply triple_testConnection.
Qed.

Lemma calls_invariant ops : ∀ h this,
  Forall op_ok ops → P this →
  P (calls w ops h this).1 ∧ Forall E (calls w ops h this).2.
Proof.
  induction ops as [|op ops IH]; intros h this Hops HP; simpl; [done|].
  apply Forall_cons in Hops as [Hop Hops].
  pose proof (triple_call op Hop h this HP I) as Hc.
  destruct (call w op h this) as [[r this1] l1]. simpl in Hc.
  destruct Hc as (HP1 & Hl1 & _).
  specialize (IH (h ++ l1)%list this1 Hops HP1).
  destruct (calls w ops (h ++ l1)%list this1) as [this2 l2]. simpl in *.
  destruct IH as [HP2 Hl2]. split; [done|]. by apply Forall_app.
Qed.

End Invariant.

(** ** Authentication is kept *)

(** The methods that reach the probe only through [ensureAuthenticated]. *)
Definition is_indirect (op : Op) : bool :=
  match op with
  | CallAuthenticate | CallTestConnection => false
  | _ => true
  end.

(** X12: [authenticated] is never reset: through any sequence of calls an
    authenticated instance stays authenticated, and as long as neither
    [authenticate] nor [testConnection] is called directly, no further
    request to [/qrs/about] is issued. *)
Theorem authenticated_instance_never_probes (w : World) (ops : list Op)
    (h : list LogEntry) (this : ODAGLinkCreator) :
  authenticated this = true →
  authenticated (calls w ops h this).1 = true ∧
  (forallb is_indirect ops = true →
   Forall (λ e, ¬ is_auth e) (calls w ops h this).2).
Proof.
  intros Ha. split.
  - refine (proj1 (calls_invariant w (λ this, authenticated this = true) (λ _, True)
                     _ ops h this _ Ha)); [done|].
    apply Forall_forall. intros op _. destruct op; simpl; repeat split; done.
  - intros Hops.
    refine (proj2 (calls_invariant w (λ this, authenticated this = true)
                     (λ e, ¬ is_auth e) _ ops h this _ Ha)); [done|].
    rewrite forallb_forall in Hops. apply Forall_forall.
    intros op Hop. apply list_elem_of_In in Hop. specialize (Hops op Hop).
    assert (Hfirst : first_probe_ok (λ this, authenticated this = true) (λ e, ¬ is_auth e)).
    { intros this' o Ht Hf. congruence. }
    destruct op; simpl in *; try done; repeat split; try done; intros ? ? ?; auto.
Qed.

Lemma authenticated_instance_never_probes_witness :
  let w := scripted [ app_found "A" "Sales"; rejected 404 JNull;
                      ok200 (JObj [ ("id", JStr "link-1") ]) ] [] in
  let ops := [ CallValidateAppId (JStr "A"); CallCreateCompleteODAGLink sample_options;
               CallCreateODAGLink sample_linkConfig ] in
  let run := calls w ops [] (set_authenticated true sample_instance) in
  authenticated run.1 = true ∧ length run.2 = 4%nat ∧ Forall (λ e, ¬ is_auth e) run.2.
Proof.
  intros w ops run.
  destruct (authenticated_instance_never_probes w ops []
              (set_authenticated true sample_instance) eq_refl) as [Hkeep Hquiet].
  split; [exact Hkeep|]. split; [vm_compute; reflexivity|]. exact (Hquiet eq_refl).
Defined.

(** ** What is requested, and how *)

(** The shape of a request by the place that issues it: only the creation of
    a link is a POST, to the link collection of the ODAG service and with a
    body; everything else is a GET without a body. *)
Definition request_shape (this : ODAGLinkCreator) (e : LogEntry) : Prop :=
  match e with
  | LHttp SiteCreateLink c _ =>
      method c = POST ∧ url c = linksUrl this ∧ ∃ linkConfig, body c = odagPayload linkConfig
  | LHttp _ c _ => method c = GET ∧ body c = JUndefined
  | LWs _ _ _ _ => True
  end.

(** X13: through any sequence of calls, the one request that writes is the
    POST of [createODAGLink] to [/v1/links] on the ODAG port; the probe, the
    lookups and the read of [testConnection] are GETs without a body. *)
Theorem only_link_creation_posts (w : World) (ops : list Op) (h : list LogEntry)
    (this : ODAGLinkCreator) :
  Forall (request_shape this) (calls w ops h this).2.
Proof.
  refine (proj2 (calls_invariant w (stable this) (request_shape this) _ ops h this _
                   (stable_refl this))).
  - intros this' Hst. eapply stable_trans; [exact Hst | apply stable_set_authenticated].
  - apply Forall_forall. intros op _.
    assert (Hlink : ∀ linkConfig, creation_ok (stable this) (request_shape this) linkConfig).
    { intros linkConfig this' o Hst. rewrite (link_call_stable this this' linkConfig Hst).
      simpl. eauto. }
    assert (Hprobe : ∀ pre, probe_ok (stable this) (request_shape this) pre) by done.
    assert (Happ : ∀ appId, lookup_ok (stable this) (request_shape this) appId) by done.
    assert (Hread : links_read_ok (stable this) (request_shape this)) by done.
    assert (Hws : ∀ sel link, socket_ok (stable this) (request_shape this) sel link) by done.
    destruct op; simpl; repeat (match goal with |- _ ∧ _ => split end);
      first [ apply Hprobe | apply Happ | apply Hlink | apply Hread | intros; apply Hws ].
Qed.

(** The transport of an exchange: the scheme and the host of its address,
    the agent that holds the client certificate, and the time it is given. *)
Definition transport (this : ODAGLinkCreator) (e : LogEntry) : Prop :=
  let host := js_to_string (assoc "qlikHost" (config this)) in
  match e with
  | LHttp _ c _ =>
      (∃ rest, url c = "https://" ++ host ++ ":" ++ rest) ∧
      cfg_httpsAgent (call_config c) = httpsAgent this ∧
      timeout (call_config c) = 30000
  | LWs _ _ c _ =>
      (∃ rest, wsUrl c = "wss://" ++ host ++ ":" ++ rest) ∧
      ws_agent c = httpsAgent this ∧
      handshakeTimeout c = 10000
  end.

Lemma baseUrl_host cfg :
  ∃ rest, baseUrl cfg = "https://" ++ js_to_string (assoc "qlikHost" cfg) ++ ":" ++ rest.
Proof. unfold baseUrl. case_match; eauto. Qed.

Lemma constructor_agent readFileSync random cfg this :
  constructor readFileSync random cfg = Ok this →
  ∃ certsPath,
    readFileSync (certsPath ++ "/client.pem") = Ok (cert (httpsAgent this)) ∧
    readFileSync (certsPath ++ "/client_key.pem") = Ok (key (httpsAgent this)) ∧
    readFileSync (certsPath ++ "/root.pem") = Ok (ca (httpsAgent this)) ∧
    certsPath = js_to_string (assoc "certsPath" (config this)) ∧
    rejectUnauthorized (httpsAgent this) = true ∧
    cfg_httpsAgent (axiosConfig this) = httpsAgent this ∧
    timeout (axiosConfig this) = 30000.
Proof.
  unfold constructor, mbind, Result_bind, mret, Result_ret.
  destruct (get cfg "qlikHost"); try done.
  repeat (match goal with
          | |- context [readFileSync ?p] => destruct (readFileSync p) eqn:?; try done
          end).
  intros [= <-]. simpl. eexists. repeat split; eauto.
Qed.

(** X14: an instance built by the constructor talks to the configured host
    only, over [https] and [wss], always through the agent that holds the
    client certificate, key and root certificate read from [certsPath] and
    that verifies the server certificate; a request is given 30 seconds and
    a socket handshake 10.  The member [rejectUnauthorized] of the
    configuration is not consulted. *)
Theorem every_exchange_uses_the_certificate_agent (readFileSync : string → Result string)
    (random : nat → Q) (cfg : JsVal) (this : ODAGLinkCreator) :
  constructor readFileSync random cfg = Ok this →
  (∃ certsPath,
     readFileSync (certsPath ++ "/client.pem") = Ok (cert (httpsAgent this)) ∧
     readFileSync (certsPath ++ "/client_key.pem") = Ok (key (httpsAgent this)) ∧
     readFileSync (certsPath ++ "/root.pem") = Ok (ca (httpsAgent this)) ∧
     certsPath = js_to_string (assoc "certsPath" (config this))) ∧
  rejectUnauthorized (httpsAgent this) = true ∧
  ∀ w ops h, Forall (transport this) (calls w ops h this).2.
Proof.
  intros Hc.
  destruct (constructor_agent _ _ _ _ Hc) as (dir & H1 & H2 & H3 & Hdir & Hrej & Hag & Hto).
  split; [exists dir; done|]. split; [done|]. intros w ops h.
  refine (proj2 (calls_invariant w (stable this) (transport this) _ ops h this _
                   (stable_refl this))).
  - intros this' Hst. eapply stable_trans; [exact Hst | apply stable_set_authenticated].
  - apply Forall_forall. intros op _.
    assert (Hprobe : ∀ pre, probe_ok (stable this) (transport this) pre).
    { intros pre this' o (Hcfg & _ & _ & Hax & _) _. simpl. rewrite Hcfg, Hax.
      split; [|done]. destruct (baseUrl_host (config this)) as [rest ->].
      eexists. rewrite !string_app_assoc. reflexivity. }
    assert (Happ : ∀ appId, lookup_ok (stable this) (transport this) appId).
    { intros appId this' o (Hcfg & _ & _ & Hax & _). simpl. rewrite Hcfg, Hax.
      split; [|done]. destruct (baseUrl_host (config this)) as [rest ->].
      eexists. rewrite !string_app_assoc. reflexivity. }
    assert (Hlink : ∀ linkConfig, creation_ok (stable this) (transport this) linkConfig).
    { intros linkConfig this' o (Hcfg & _ & _ & Hax & _). simpl. rewrite Hax. unfold linksUrl.
      rewrite Hcfg. split; [|done]. eexists. reflexivity. }
    assert (Hread : links_read_ok (stable this) (transport this)).
    { intros this' o (Hcfg & _ & _ & Hax & _). simpl. rewrite Hax. unfold linksUrl.
      rewrite Hcfg. split; [|done]. eexists. reflexivity. }
    assert (Hws : ∀ sel link, socket_ok (stable this) (transport this) sel link).
    { intros sel link this' script (Hcfg & Hagent & _ & _ & _). simpl.
      rewrite Hagent. unfold wsUrl_of. rewrite Hcfg. split; [|done].
      case_match; eexists; reflexivity. }
    destruct op; simpl; repeat (match goal with |- _ ∧ _ => split end);
      first [ apply Hprobe | apply Happ | apply Hlink | apply Hread | intros; apply Hws ].
Qed.

Lemma every_exchange_uses_the_certificate_agent_witness :
  let w := scripted [ about_ok; app_found "A" "Sales"; app_found "B" "Detail";
                      ok200 (JObj [ ("id", JStr "link-1") ]) ]
                    [ EvOpen; reply_handle 1 (JNum 7); reply_ok 2; reply_ok 3 ] in
  let L := (calls w [CallCreateCompleteODAGLink sample_options] [] sample_instance).2 in
  length L = 5%nat ∧
  cert (httpsAgent sample_instance) = "-----BEGIN C:/certs/client.pem-----" ∧
  Forall (transport sample_instance) L.
Proof.
  intros w L.
  destruct (every_exchange_uses_the_certificate_agent sample_readFileSync sample_random
              sample_config sample_instance sample_instance_constructed) as (_ & _ & Hall).
  split; [vm_compute; reflexivity|]. split; [vm_compute; reflexivity|].
  exact (Hall w [CallCreateCompleteODAGLink sample_options] []).
Defined.

(** * The constructor *)

(** [k] is an own property of the object [v]. *)
Definition has_own (k : string) (v : JsVal) : bool :=
  match v with
  | JObj fs => existsb (String.eqb k) fs.*1
  | _ => false
  end.

(** The values written before the spread in the object literal of the
    constructor, for a configuration that does not set them. *)
Definition default_config (k : string) : JsVal :=
  assoc k [ ("qlikHost", JStr "localhost");
            ("qrsPort", JNum 4242);
            ("enginePort", JNum 4747);
            ("odagPort", JNum 9098);
            ("certsPath", JStr "C:/certs");
            ("userDirectory", JStr "win-7cu4ono2k4r");
            ("userId", JStr "qlik_svc");
            ("virtualProxy", JStr "") ].

Lemma assoc_app k fs gs :
  assoc k (fs ++ gs) = if existsb (String.eqb k) fs.*1 then assoc k fs else assoc k gs.
Proof.
  induction fs as [|[k' v] fs IH]; [done|]. simpl.
  destruct (String.eqb k k'); simpl; done.
Qed.

Lemma has_own_false k v : has_own k v = false → field v k = JUndefined.
Proof.
  destruct v as [| | | | | |fs]; try done. simpl.
  induction fs as [|[k' x] fs IH]; [done|]. simpl.
  destruct (String.eqb k k'); simpl; [done | exact IH].
Qed.

Lemma constructor_this_config readFileSync random cfg this :
  constructor readFileSync random cfg = Ok this →
  nullish cfg = false ∧
  ∀ k, assoc k (config this) = if has_own k cfg then field cfg k else default_config k.
Proof.
  unfold constructor, mbind, Result_bind, mret, Result_ret, get.
  destruct (nullish cfg) eqn:Hn; [done|].
  repeat (match goal with
          | |- context [readFileSync ?p] => destruct (readFileSync p); try done
          end).
  intros [= <-]. split; [done|]. intros k. simpl. rewrite assoc_app.
  destruct (has_own k cfg) eqn:Hk.
  - destruct cfg; try done. simpl in *. by rewrite Hk.
  - assert (Hs : existsb (String.eqb k) (spread cfg).*1 = false).
    { destruct cfg; try done. }
    rewrite Hs. pose proof (has_own_false k cfg Hk) as Hf.
    unfold default_config. simpl.
    repeat (match goal with
            | |- context [String.eqb k ?s] =>
                destruct (String.eqb_spec k s) as [->|_]; [by rewrite Hf|]
            end).
    done.
Qed.

(** X15: the configuration of an instance.  A member that the argument of
    the constructor has as an own property is taken as it is, whatever its
    value (the spread comes last in the object literal, so a port 0 or an
    empty host are kept and the operand after [||] is not used); only a
    member the argument does not have gets its default; other members of
    the argument are carried along. *)
Theorem constructor_config (readFileSync : string → Result string) (random : nat → Q)
    (cfg : JsVal) (this : ODAGLinkCreator) :
  constructor readFileSync random cfg = Ok this →
  ∀ k, assoc k (config this) = if has_own k cfg then field cfg k else default_config k.
Proof. intros Hc. by destruct (constructor_this_config _ _ _ _ Hc). Qed.

Lemma constructor_config_witness :
  let cfg := JObj [ ("qlikHost", JStr "qlik.example.org"); ("qrsPort", JNum 0);
                    ("virtualProxy", JNull); ("maxRetries", JNum 3) ] in
  ∃ this,
    constructor sample_readFileSync sample_random cfg = Ok this ∧
    assoc "qrsPort" (config this) = JNum 0 ∧
    assoc "virtualProxy" (config this) = JNull ∧
    assoc "odagPort" (config this) = JNum 9098 ∧
    assoc "maxRetries" (config this) = JNum 3.
Proof.
  intros cfg.
  destruct (constructor sample_readFileSync sample_random cfg) as [this| |] eqn:Hc;
    [|vm_compute in Hc; discriminate Hc..].
  exists this. split; [reflexivity|].
  pose proof (constructor_config _ _ _ _ Hc) as Hk.
  repeat split; [exact (Hk "qrsPort") | exact (Hk "virtualProxy") | exact (Hk "odagPort")
                | exact (Hk "maxRetries")].
Defined.

(** X16: how the constructor fails.  On [null] or [undefined] it raises the
    TypeError of reading [qlikHost] before any file is read.  Otherwise it
    reads [client.pem], [client_key.pem] and [root.pem] under the
    [certsPath] of the merged configuration, and the first read that fails
    gives the error of the constructor; when all three succeed the instance
    holds what was read, a key, and is not authenticated. *)
Theorem constructor_failures (readFileSync : string → Result string) (random : nat → Q)
    (cfg : JsVal) :
  let dir := js_to_string (if has_own "certsPath" cfg then field cfg "certsPath"
                           else JStr "C:/certs") in
  let new := constructor readFileSync random cfg in
  (nullish cfg = true → new = Throw (type_error cfg "qlikHost")) ∧
  (nullish cfg = false →
   (∀ e, readFileSync (dir ++ "/client.pem") = Throw e → new = Throw e) ∧
   (∀ c e, readFileSync (dir ++ "/client.pem") = Ok c →
           readFileSync (dir ++ "/client_key.pem") = Throw e → new = Throw e) ∧
   (∀ c k e, readFileSync (dir ++ "/client.pem") = Ok c →
             readFileSync (dir ++ "/client_key.pem") = Ok k →
             readFileSync (dir ++ "/root.pem") = Throw e → new = Throw e) ∧
   (∀ c k a, readFileSync (dir ++ "/client.pem") = Ok c →
             readFileSync (dir ++ "/client_key.pem") = Ok k →
             readFileSync (dir ++ "/root.pem") = Ok a →
             ∃ this, new = Ok this ∧
                     httpsAgent this = mkAgent c k a true true 50 ∧
                     xrfKey this = generateXrfKey random ∧
                     authenticated this = false)).
Proof.
  intros dir new. subst new. split.
  - intros Hn. unfold constructor, get. by rewrite Hn.
  - intros Hn.
    unfold constructor, get, mbind, Result_bind, mret, Result_ret. rewrite Hn.
    cbv beta zeta.
    match goal with
    | |- context [js_to_string (assoc "certsPath" ?l)] =>
        assert (Hd : js_to_string (assoc "certsPath" l) = dir)
    end.
    { subst dir. f_equal. rewrite assoc_app.
      destruct (has_own "certsPath" cfg) eqn:Hk.
      - destruct cfg; try done. simpl in *. by rewrite Hk.
      - assert (Hs : existsb (String.eqb "certsPath") (spread cfg).*1 = false).
        { destruct cfg; try done. }
        rewrite Hs. simpl. by rewrite (has_own_false _ _ Hk). }
    rewrite !Hd. clearbody dir.
    split; [by intros e ->|].
    split; [by intros c e -> ->|].
    split; [by intros c k e -> -> ->|].
    intros c k a -> -> ->. eexists. split; [reflexivity|]. done.
Qed.

Lemma constructor_failures_witness :
  let readFileSync path :=
    if String.eqb path "/srv/certs/client_key.pem"
    then Throw (Error "ENOENT: no such file or directory, open '/srv/certs/client_key.pem'")
    else Ok "-----BEGIN CERTIFICATE-----" in
  constructor readFileSync sample_random (JObj [ ("certsPath", JStr "/srv/certs") ])
  = Throw (Error "ENOENT: no such file or directory, open '/srv/certs/client_key.pem'") ∧
  constructor readFileSync sample_random JNull
  = Throw (Error "Cannot read properties of null (reading 'qlikHost')").
Proof.
  intros readFileSync. split.
  - destruct (constructor_failures readFileSync sample_random
                (JObj [ ("certsPath", JStr "/srv/certs") ])) as [_ Hread].
    destruct (Hread eq_refl) as (_ & Hkey & _).
    exact (Hkey "-----BEGIN CERTIFICATE-----" _ eq_refl eq_refl).
  - destruct (constructor_failures readFileSync sample_random JNull) as [Hnull _].
    exact (Hnull eq_refl).
Defined.

(** * What a request is read for *)

(** The members of [options] that [createCompleteODAGLink] reads, apart
    from [description], which it hands to [addNavigationLinkToApp]. *)
Definition read_members : list string :=
  [ "selectionAppId"; "templateAppId"; "linkName"; "rowEstExpr";
    "rowEstRange"; "appRetentionTime"; "genAppName" ].

(** X17: two requests that agree on the seven members read by
    [createCompleteODAGLink] have the same exchanges and the same result.
    In particular [description], which is handed to
    [addNavigationLinkToApp] together with the link name, has no effect:
    that method uses neither. *)
Theorem unread_members_have_no_effect (w : World) (options options' : JsVal)
    (h : list LogEntry) (this : ODAGLinkCreator) :
  nullish options = false → nullish options' = false →
  (∀ k, In k read_members → field options k = field options' k) →
  createCompleteODAGLink w options h this = createCompleteODAGLink w options' h this.
Proof.
  intros Hn Hn' Hk.
  assert (Hin : ∀ k, existsb (String.eqb k) read_members = true →
                     field options k = field options' k).
  { intros k Hx. apply Hk. apply existsb_exists in Hx as (k' & Hin & ->%String.eqb_eq).
    exact Hin. }
  unfold createCompleteODAGLink, addNavigationLinkToApp, get.
  cbn [check_required].
  rewrite Hn, Hn'.
  rewrite !(Hin "selectionAppId" eq_refl), !(Hin "templateAppId" eq_refl),
    !(Hin "linkName" eq_refl), !(Hin "rowEstExpr" eq_refl), !(Hin "rowEstRange" eq_refl),
    !(Hin "appRetentionTime" eq_refl), !(Hin "genAppName" eq_refl).
  reflexivity.
Qed.

Lemma unread_members_have_no_effect_witness :
  let w := scripted [ about_ok; app_found "A" "Sales"; app_found "B" "Detail";
                      ok200 (JObj [ ("id", JStr "link-1") ]) ]
                    [ EvOpen; reply_handle 1 (JNum 7); reply_ok 2; reply_ok 3 ] in
  let described := JObj [ ("description", JStr "Drill to detail");
                          ("linkName", JStr "Sales Detail");
                          ("selectionAppId", JStr "A");
                          ("templateAppId", JStr "B");
                          ("rowEstExpr", JStr "Sum(X)") ] in
  createCompleteODAGLink w described [] sample_instance
  = createCompleteODAGLink w sample_options [] sample_instance.
Proof.
  intros w described.
  apply unread_members_have_no_effect; [reflexivity | reflexivity |].
  intros k Hk. simpl in Hk.
  destruct Hk as [<-|[<-|[<-|[<-|[<-|[<-|[<-|[]]]]]]]]; reflexivity.
Defined.

(** * Start-up: service mode and the browser *)

(** [process.env.NAME] *)
Definition env_get (env : gmap string string) (name : string) : JsVal :=
  match env !! name with
  | Some v => JStr v
  | None => JUndefined
  end.

(** [openBrowser(url)]: the command handed to [exec], if any; on any other
    platform the function only prints the address. *)
Definition openBrowser (platform : string) (url : string) : option string :=
  if String.eqb platform "win32" then Some ("start " ++ url)
  else if String.eqb platform "darwin" then Some ("open " ++ url)
  else if String.eqb platform "linux" then Some ("xdg-open " ++ url)
  else None.

(** [process.env.NODE_ENV === 'production' || process.argv.includes('--service')] *)
Definition isService (env : gmap string string) (argv : list string) : bool :=
  match env_get env "NODE_ENV" with
  | JStr v => String.eqb v "production"
  | _ => false
  end || existsb (String.eqb "--service") argv.

(** [process.env.PORT || 3000] *)
Definition PORT (env : gmap string string) : JsVal :=
  js_or (env_get env "PORT") (JNum 3000).

(** The callback of [app.listen]: the command run by the timer it sets, if
    any. *)
Definition on_listening (env : gmap string string) (argv : list string)
    (platform : string) : option string :=
  if isService env argv then None
  else openBrowser platform ("http://localhost:" ++ js_to_string (PORT env)).

(** [service-wrapper.cjs]: the environment given to the child process, which
    is the wrapper's own after the assignment to [NODE_ENV]. *)
Definition wrapper_env (env : gmap string string) : gmap string string :=
  <["NODE_ENV" := "production"]> env.

(** X18: started by the service wrapper, or with [--service] on its command
    line, the application never runs a command to open a browser, on any
    platform and whatever else the environment holds.  Otherwise the one
    command it may run is the launcher of the platform applied to the local
    address with the port of [PORT], or 3000 when that is unset or empty. *)
Theorem service_mode_opens_no_browser (env : gmap string string) (argv : list string)
    (platform : string) :
  on_listening (wrapper_env env) argv platform = None ∧
  (In "--service" argv → on_listening env argv platform = None) ∧
  (∀ command, on_listening env argv platform = Some command →
     env !! "NODE_ENV" ≠ Some "production" ∧
     ∃ launcher port,
       command = launcher ++ " http://localhost:" ++ port ∧
       In (platform, launcher) [ ("win32", "start"); ("darwin", "open");
                                 ("linux", "xdg-open") ] ∧
       port = match env !! "PORT" with
              | Some p => if String.eqb p "" then "3000" else p
              | None => "3000"
              end).
Proof.
  split; [|split].
  - unfold on_listening, isService, wrapper_env, env_get.
    by rewrite lookup_insert_eq.
  - intros Hin. unfold on_listening, isService.
    assert (He : existsb (String.eqb "--service") argv = true).
    { apply existsb_exists. exists "--service". split; [done | apply String.eqb_refl]. }
    by rewrite He, orb_true_r.
  - intros command Hc.
    assert (Hport : js_to_string (PORT env)
                    = match env !! "PORT" with
                      | Some p => if String.eqb p "" then "3000" else p
                      | None => "3000"
                      end).
    { unfold PORT, js_or, env_get. destruct (env !! "PORT") as [p|]; [|done]. simpl.
      by destruct (String.eqb p ""). }
    unfold on_listening in Hc. rewrite Hport in Hc.
    destruct (isService env argv) eqn:Hs; [done|].
    split.
    { intros Hv. unfold isService, env_get in Hs. by rewrite Hv in Hs. }
    unfold openBrowser in Hc.
    destruct (String.eqb_spec platform "win32") as [->|_];
      [injection Hc as <-; exists "start"; eexists; simpl; auto|].
    destruct (String.eqb_spec platform "darwin") as [->|_];
      [injection Hc as <-; exists "open"; eexists; simpl; auto|].
    destruct (String.eqb_spec platform "linux") as [->|_];
      [injection Hc as <-; exists "xdg-open"; eexists; simpl; auto 10|].
    done.
Qed.

Lemma service_mode_opens_no_browser_witness :
  on_listening (wrapper_env {[ "PORT" := "8080" ]}) ["node"; "odag-link-creator.js"] "win32"
  = None ∧
  on_listening {[ "PORT" := "8080" ]} ["node"; "odag-link-creator.js"] "win32"
  = Some "start http://localhost:8080".
Proof.
  split.
  - exact (proj1 (service_mode_opens_no_browser {[ "PORT" := "8080" ]}
                    ["node"; "odag-link-creator.js"] "win32")).
  - vm_compute. reflexivity.
Defined.

(** * The page served at [/]: the script of the form

    Strings are taken as UTF-8. *)

(** The values [FormData.get] returns for the eight controls of the form. *)
Record FormFields : Type := mkFormFields {
  form_selectionAppId : string;
  form_templateAppId : string;
  form_linkName : string;
  form_description : string;
  form_rowEstExpr : string;
  form_maxRowCount : string;
  form_retentionDays : string;
  form_genAppName : string
}.

(** White space and line terminators of the language: U+0009 to U+000D and
    U+0020 in one byte, U+00A0 in two, and in three bytes U+1680, U+2000 to
    U+200A, U+2028, U+2029, U+202F, U+205F, U+3000 and U+FEFF. *)
Definition ws1 (a : ascii) : bool :=
  let x := Z.of_N (N_of_ascii a) in
  (9 <=? x) && (x <=? 13) || (x =? 32).

Definition ws2 (a b : ascii) : bool :=
  (Z.of_N (N_of_ascii a) =? 194) && (Z.of_N (N_of_ascii b) =? 160).

Definition ws3 (a b c : ascii) : bool :=
  let x := Z.of_N (N_of_ascii a) in
  let y := Z.of_N (N_of_ascii b) in
  let z := Z.of_N (N_of_ascii c) in
  (x =? 225) && (y =? 154) && (z =? 128)
  || (x =? 226) && (y =? 128)
     && ((128 <=? z) && (z <=? 138) || (z =? 168) || (z =? 169) || (z =? 175))
  || (x =? 226) && (y =? 129) && (z =? 159)
  || (x =? 227) && (y =? 128) && (z =? 128)
  || (x =? 239) && (y =? 187) && (z =? 191).

(** [s.trimStart()] *)
Fixpoint trimStart (s : string) : string :=
  match s with
  | String a rest =>
      if ws1 a then trimStart rest
      else
        match rest with
        | String b rest2 =>
            if ws2 a b then trimStart rest2
            else
              match rest2 with
              | String c rest3 => if ws3 a b c then trimStart rest3 else s
              | EmptyString => s
              end
        | EmptyString => s
        end
  | EmptyString => s
  end.

(** [s.trimEnd()]: a suffix is dropped when it consists of white space. *)
Fixpoint trimEnd (s : string) : string :=
  match s with
  | String a rest =>
      if String.eqb (trimStart s) "" then "" else String a (trimEnd rest)
  | EmptyString => ""
  end.

(** [s.trim()] *)
Definition trim (s : string) : string := trimEnd (trimStart s).

(** The value of a digit in the given radix. *)
Definition digit (radix : Z) (a : ascii) : option Z :=
  let x := Z.of_N (N_of_ascii a) in
  let v := if (48 <=? x) && (x <=? 57) then x - 48
           else if (97 <=? x) && (x <=? 122) then x - 87
           else if (65 <=? x) && (x <=? 90) then x - 55
           else radix in
  if v <? radix then Some v else None.

(** The value of the longest prefix of digits; [None] when it is empty. *)
Fixpoint digits (radix : Z) (s : string) (acc : option Z) : option Z :=
  match s with
  | String a rest =>
      match digit radix a with
      | Some d => digits radix rest (Some (radix * default 0 acc + d))
      | None => acc
      end
  | EmptyString => acc
  end.

(** A leading sign, and the prefix that selects radix 16. *)
Definition strip_sign (s : string) : Z * string :=
  match s with
  | String "-" rest => (-1, rest)
  | String "+" rest => (1, rest)
  | _ => (1, s)
  end.

Definition strip_prefix (s : string) : Z * string :=
  match s with
  | String "0" (String "x" rest) => (16, rest)
  | String "0" (String "X" rest) => (16, rest)
  | _ => (10, s)
  end.

(** The integer that [parseInt(s)] reads: leading white space, a sign, the
    prefix [0x] or [0X], then the digits of the radix; [None] when there is
    no digit. *)
Definition mathInt (s : string) : option Z :=
  let '(sign, s2) := strip_sign (trimStart s) in
  let '(radix, s3) := strip_prefix s2 in
  match digits radix s3 None with
  | Some n => Some (sign * n)
  | None => None
  end.

(** [parseInt(s)]: the Number value for that integer, [NaN] when there is
    none. *)
Definition parseInt (s : string) : Number :=
  match mathInt s with
  | Some n => to_number n
  | None => NaN
  end.

Example parseInt_examples :
  parseInt "500000" = Num 500000 ∧ parseInt "  42px" = Num 42 ∧
  parseInt "-0x1A" = Num (-26) ∧ parseInt "1e3" = Num 1 ∧ parseInt "12.7" = Num 12 ∧
  parseInt "" = NaN ∧ parseInt "0x" = NaN ∧ parseInt "abc" = NaN ∧ parseInt "-" = NaN ∧
  parseInt "9007199254740993" = Num 9007199254740992 ∧
  parseInt (String.concat "" (repeat "9" 400)) = Infinity false.
Proof. repeat split; vm_compute; reflexivity. Qed.

(** [n && n > 0] *)
Definition positive (n : Number) : bool :=
  match n with
  | Num k => negb (k =? 0) && (0 <? k)
  | Infinity negative => negb negative
  | NaN => false
  end.

(** A number as [JSON.stringify] writes it and [JSON.parse] reads it back:
    [null] for [NaN] and the infinities. *)
Definition json_number (n : Number) : JsVal :=
  match n with
  | Num k => JNum k
  | _ => JNull
  end.

(** The object [data] that the handler of [submit] builds, as it reaches
    the server: strings and finite numbers pass [JSON.stringify] and
    [JSON.parse] unchanged. *)
Definition form_data (f : FormFields) : JsVal :=
  let maxRowCount := parseInt (form_maxRowCount f) in
  let retentionDays := parseInt (form_retentionDays f) in
  let genAppName := form_genAppName f in
  JObj ([ ("selectionAppId", JStr (form_selectionAppId f));
          ("templateAppId", JStr (form_templateAppId f));
          ("linkName", JStr (form_linkName f));
          ("description", JStr (form_description f));
          ("rowEstExpr", JStr (form_rowEstExpr f)) ]
        ++ (if positive maxRowCount
            then [ ("rowEstRange",
                    JArr [ JObj [ ("context", JStr "User_*"); ("lowBound", JNum 1);
                                  ("highBound", json_number maxRowCount) ] ]) ]
            else [])
        ++ (if positive retentionDays
            then [ ("appRetentionTime",
                    JArr [ JObj [ ("context", JStr "User_*");
                                  ("minutes",
                                   json_number (number_mul (number_mul retentionDays (Num 24))
                                                           (Num 60))) ] ]) ]
            else [])
        ++ (if truthy (js_and (JStr genAppName) (JStr (trim genAppName)))
            then [ ("genAppName",
                    JArr [ JObj [ ("context", JStr "User_*");
                                  ("formatString", JStr genAppName) ] ]) ]
            else []))%list.

(** What stands between the script and the route and is not the program's
    own.  The body parser [express.json()] runs in front of the routes: a
    body over its limit (100 kB as serialised) it answers itself, with
    status 413 and a page of HTML, and the handler is not called.  On such
    a page [response.json()] raises a SyntaxError, whose message is the
    browser's. *)
Record Carrier : Type := mkCarrier {
  too_large : JsVal → bool;
  error_page : string;
  syntax_error : string → string
}.

(** What [fetch] resolves with: a status, and a body that is JSON or is
    not. *)
Inductive Fetched : Type :=
| JsonBody (status : Z) (result : JsVal)
| OtherBody (status : Z) (text : string).

(** The request [POST /api/odag/create] with the body [data], as the
    server answers it. *)
Definition served (k : Carrier) (w : World) (data : JsVal) : M Fetched :=
  if too_large k data then mret (OtherBody 413 (error_page k))
  else
    reply ← post_api_odag_create w data;
    mret (JsonBody (statusCode reply) (json reply)).

(** The button ([disabled], [textContent]) and the box [#result]
    ([className], [innerHTML]). *)
Record Page : Type := mkPage {
  disabled : bool;
  textContent : string;
  className : string;
  innerHTML : string
}.

(** The page while the request is under way. *)
Definition page_loading : Page :=
  mkPage true "Creating ODAG Link..." "result loading" "Creating ODAG link, please wait...".

(** The page after the [catch] block and the [finally] block. *)
Definition page_error (error_message : string) : Page :=
  mkPage false "Create ODAG Link" "result error"
    ("<h3>Error</h3><p>" ++ error_message ++ "</p>").

(** The page once the request is answered with [reply]: [result] is the
    body, and a result without [success] raises an error that the [catch]
    block shows. *)
Definition page_answered (result : JsVal) : Page :=
  if nullish result then page_error (message (type_error result "success"))
  else if truthy (field result "success") then
    mkPage false "Create ODAG Link" "result success"
      ("<h3>Success!</h3><p><strong>ODAG Link ID:</strong> "
       ++ js_to_string (field result "odagLinkId")
       ++ "</p><p><strong>Selection App:</strong> "
       ++ js_to_string (field result "selectionAppName")
       ++ "</p><p><strong>Template App:</strong> "
       ++ js_to_string (field result "templateAppName")
       ++ "</p><p><strong>Status:</strong> "
       ++ js_to_string (field result "message") ++ "</p>"
       ++ (if truthy (field result "partial")
           then "<p><strong>Note:</strong> Manual navigation link setup may be required.</p>"
           else ""))
  else
    page_error (js_to_string (js_or (field result "error") (JStr "Unknown error occurred"))).

(** The page in the end, by how the request completes: answered with JSON,
    answered with something else (then [response.json()] is rejected),
    failed (the promise of [fetch] is rejected), or never answered.  The
    script does not look at the status. *)
Definition page_after (k : Carrier) (r : Result Fetched) : Page :=
  match r with
  | Ok (JsonBody _ result) => page_answered result
  | Ok (OtherBody _ text) => page_error (syntax_error k text)
  | Throw error => page_error (message error)
  | Hang => page_loading
  end.

(** ** What the form can submit *)

Lemma trimStart_length s : (String.length (trimStart s) ≤ String.length s)%nat.
Proof.
  remember (String.length s) as n eqn:Hn. revert s Hn.
  induction (lt_wf n) as [n _ IH]. intros s ->.
  destruct s as [|a [|b [|c rest]]]; simpl; repeat case_match; simpl; try lia.
  all: try (match goal with
            | |- (String.length (trimStart ?t) ≤ _)%nat =>
                specialize (IH (String.length t) ltac:(simpl; lia) t eq_refl); simpl in *; lia
            end).
Qed.

Lemma digit_bound radix a d : digit radix a = Some d → 0 ≤ d < radix.
Proof.
  unfold digit. cbv zeta. generalize (Z.of_N (N_of_ascii a)). intros x.
  destruct (Z.leb_spec 48 x), (Z.leb_spec x 57), (Z.leb_spec 97 x), (Z.leb_spec x 122),
    (Z.leb_spec 65 x), (Z.leb_spec x 90); simpl;
    match goal with |- context [?v <? radix] => destruct (Z.ltb_spec v radix) end;
    intros [= <-]; lia.
Qed.

Lemma digits_bound radix s : ∀ acc n,
  0 < radix → 0 ≤ default 0 acc →
  digits radix s acc = Some n →
  0 ≤ n < (default 0 acc + 1) * radix ^ Z.of_nat (String.length s).
Proof.
  induction s as [|a s IH]; intros acc n Hr Hacc; simpl String.length.
  - cbn [digits]. intros ->. cbn [default from_option id] in *.
    change (Z.of_nat 0) with 0. rewrite Z.pow_0_r. lia.
  - cbn [digits].
    assert (Hpow : 0 < radix ^ Z.of_nat (String.length s)) by (apply Z.pow_pos_nonneg; lia).
    rewrite Nat2Z.inj_succ, Z.pow_succ_r by lia.
    destruct (digit radix a) as [d|] eqn:Hd.
    + apply digit_bound in Hd. intros Hn.
      apply IH in Hn; [|done|cbn [default from_option id]; nia].
      cbn [default from_option id] in Hn. nia.
    + intros ->. cbn [default from_option id] in *. nia.
Qed.

Lemma strip_sign_spec s :
  ((strip_sign s).1 = 1 ∨ (strip_sign s).1 = -1) ∧
  (String.length (strip_sign s).2 ≤ String.length s)%nat.
Proof.
  destruct s as [|a rest]; [simpl; auto|].
  destruct a as [[] [] [] [] [] [] [] []]; simpl; split; auto; lia.
Qed.

Lemma strip_prefix_spec s :
  ((strip_prefix s).1 = 10 ∨ (strip_prefix s).1 = 16) ∧
  (String.length (strip_prefix s).2 ≤ String.length s)%nat.
Proof.
  destruct s as [|a rest]; [simpl; auto|].
  destruct a as [[] [] [] [] [] [] [] []]; try (simpl; split; [auto | lia]).
  destruct rest as [|b rest]; [simpl; auto|].
  destruct b as [[] [] [] [] [] [] [] []]; simpl; split; auto; lia.
Qed.

(** The integer read from a field of [len] characters is below [16 ^ len]
    in absolute value. *)
Lemma mathInt_bound s n :
  mathInt s = Some n → Z.abs n < 16 ^ Z.of_nat (String.length s).
Proof.
  unfold mathInt. pose proof (trimStart_length s) as Hlen.
  pose proof (strip_sign_spec (trimStart s)) as [Hsign Hl2].
  destruct (strip_sign (trimStart s)) as [sign s2]. simpl in Hsign, Hl2.
  pose proof (strip_prefix_spec s2) as [Hradix Hl3].
  destruct (strip_prefix s2) as [radix s3]. simpl in Hradix, Hl3.
  destruct (digits radix s3 None) as [k|] eqn:Hk; [|done]. intros [= <-].
  apply digits_bound in Hk; cbn [default from_option id] in *; try lia.
  assert (radix ^ Z.of_nat (String.length s3) ≤ 16 ^ Z.of_nat (String.length s3))
    by (apply Z.pow_le_mono_l; lia).
  assert (16 ^ Z.of_nat (String.length s3) ≤ 16 ^ Z.of_nat (String.length s))
    by (apply Z.pow_le_mono_r; lia).
  lia.
Qed.

Lemma served_log k w data h this :
  (served k w data h this).2
  = if too_large k data then [] else (createCompleteODAGLink w data h this).2.
Proof.
  unfold served. destruct (too_large k data); [done|].
  unfold post_api_odag_create, try_catch, mbind, M_bind.
  destruct (createCompleteODAGLink w data h this) as [[[a|e|] t] l]; simpl;
    rewrite ?app_nil_r; done.
Qed.

(** The one creation request of a run posts the payload built from the
    request. *)
Lemma creation_entry w options h this c o :
  In (LHttp SiteCreateLink c o) (createCompleteODAGLink w options h this).2 →
  c = link_call this (linkConfig_of options).
Proof.
  destruct (createCompleteODAGLink_completes w options h this)
    as (r0 & this0 & L0 & E & _ & Hdone).
  unfold run in E. rewrite E. simpl.
  destruct (completes_run_shape _ _ _ _ _ _ Hdone) as (R & tail & -> & HR & Hcase).
  intros [Hin | Hin]%in_app_or.
  - rewrite Forall_forall in HR. apply list_elem_of_In, HR in Hin. done.
  - destruct Hcase as [[-> _] | [(o' & -> & _) | (o' & l & s & v1 & v2 & -> & _)]].
    + done.
    + destruct Hin as [[= <- _] | []]. done.
    + destruct Hin as [[= <- _] | [? | []]]; done.
Qed.

(** A positive result of [parseInt] is a positive number or [Infinity]; in
    a field of at most 13 characters it is the integer read. *)
Lemma positive_parseInt s :
  positive (parseInt s) = true →
  (parseInt s = Infinity false ∨ ∃ n, parseInt s = Num n ∧ 0 < n) ∧
  ((String.length s ≤ 13)%nat →
   ∃ n, parseInt s = Num n ∧ mathInt s = Some n ∧ 0 < n < 16 ^ Z.of_nat (String.length s)).
Proof.
  unfold parseInt. destruct (mathInt s) as [n|] eqn:Hn; [|done]. intros Hp. split.
  - destruct (to_number n) as [|[]|k] eqn:Hk; try done; [by left|].
    right. exists k. split; [done|]. simpl in Hp.
    destruct (Z.ltb_spec 0 k); [done|]. by rewrite andb_false_r in Hp.
  - intros Hlen. apply mathInt_bound in Hn as Hb.
    assert (H16 : 16 ^ Z.of_nat (String.length s) ≤ 16 ^ 13)
      by (apply Z.pow_le_mono_r; lia).
    change (16 ^ 13) with 4503599627370496 in H16.
    assert (Hex : to_number n = Num n).
    { apply to_number_exact. change (2 ^ 53) with 9007199254740992. lia. }
    rewrite Hex in *. exists n. split; [done|]. split; [done|]. simpl in Hp.
    destruct (Z.ltb_spec 0 n); [lia|]. by rewrite andb_false_r in Hp.
Qed.

(** The product of a positive number and a positive integer is a positive
    number or [Infinity]; it is exact below [2^53]. *)
Lemma number_mul_positive (a : Number) (c : Z) :
  0 < c →
  a = Infinity false ∨ (∃ n, a = Num n ∧ 0 < n) →
  (number_mul a (Num c) = Infinity false ∨ ∃ n, number_mul a (Num c) = Num n ∧ 0 < n) ∧
  (∀ n, a = Num n → n * c < 2 ^ 53 → number_mul a (Num c) = Num (n * c)).
Proof.
  intros Hc [-> | (n & -> & Hn)].
  - split; [|done]. left. simpl. destruct (Z.eqb_spec c 0); [lia|].
    destruct (Z.ltb_spec c 0); [lia|]. done.
  - split.
    + simpl. apply to_number_positive. lia.
    + intros k [= <-] Hk. simpl. apply to_number_exact. lia.
Qed.

(** X19: what the form can make the service post to Qlik.  Whatever is
    typed into the form, the creation request carries the four texts of the
    form unchanged and three policy blocks for "User_*".  The upper bound is
    the number that [parseInt] reads from [maxRowCount] when that is
    positive, and 500000 otherwise; the retention is that of
    [retentionDays], times 24, times 60, when that is positive, and 10080
    minutes otherwise; the name template is the text of [genAppName] unless
    it is blank, in which case it is the link name followed by
    " - $(user.name) - $(=Now())".  Each of the two numbers is positive, or
    is [null]: that is how [Infinity] is written, which is what the script
    computes from digits beyond the range of its numbers.  For fields of
    at most 13 and 10 bytes the numbers are the integers typed, exactly,
    and below 2^53. *)
Theorem form_submits_valid_policies (k : Carrier) (w : World) (f : FormFields)
    (h : list LogEntry) (this : ODAGLinkCreator) (c : HttpCall) (o : AxOutcome) :
  In (LHttp SiteCreateLink c o) (served k w (form_data f) h this).2 →
  let properties := field (body c) "properties" in
  let block members := JArr [ JObj (("context", JStr "User_*") :: members) ] in
  let maxRowCount := parseInt (form_maxRowCount f) in
  let retentionDays := parseInt (form_retentionDays f) in
  let highBound := if positive maxRowCount then json_number maxRowCount
                   else JNum 500000 in
  let minutes := if positive retentionDays
                 then json_number (number_mul (number_mul retentionDays (Num 24)) (Num 60))
                 else JNum 10080 in
  let formatString := if String.eqb (trim (form_genAppName f)) ""
                      then form_linkName f ++ " - $(user.name) - $(=Now())"
                      else form_genAppName f in
  field (body c) "name" = JStr (form_linkName f) ∧
  field (body c) "selectionApp" = JStr (form_selectionAppId f) ∧
  field (body c) "templateApp" = JStr (form_templateAppId f) ∧
  field (body c) "rowEstExpr" = JStr (form_rowEstExpr f) ∧
  field properties "rowEstRange"
  = block [ ("lowBound", JNum 1); ("highBound", highBound) ] ∧
  field properties "appRetentionTime" = block [ ("minutes", minutes) ] ∧
  field properties "genAppName" = block [ ("formatString", JStr formatString) ] ∧
  (highBound = JNull ∨ ∃ n, highBound = JNum n ∧ 0 < n) ∧
  (minutes = JNull ∨ ∃ m, minutes = JNum m ∧ 0 < m) ∧
  ((String.length (form_maxRowCount f) ≤ 13)%nat →
   ∃ n, highBound = JNum n ∧ 0 < n < 2 ^ 53 ∧
        (mathInt (form_maxRowCount f) = Some n ∨
         positive maxRowCount = false ∧ n = 500000)) ∧
  ((String.length (form_retentionDays f) ≤ 10)%nat →
   ∃ m, minutes = JNum m ∧ 0 < m < 2 ^ 53 ∧
        ((∃ d, mathInt (form_retentionDays f) = Some d ∧ m = d * 24 * 60) ∨
         positive retentionDays = false ∧ m = 10080)).
Proof.
  intros Hin. rewrite served_log in Hin.
  destruct (too_large k (form_data f)); [done|].
  apply creation_entry in Hin as ->.
  cbv zeta. change (body (link_call this (linkConfig_of (form_data f))))
    with (odagPayload (linkConfig_of (form_data f))).
  assert (Hblank : truthy (js_and (JStr (form_genAppName f)) (JStr (trim (form_genAppName f))))
                   = negb (String.eqb (trim (form_genAppName f)) "")).
  { unfold js_and. simpl. destruct (form_genAppName f) as [|a g] eqn:Hg; [done|]. done. }
  split; [reflexivity|]. split; [reflexivity|]. split; [reflexivity|]. split; [reflexivity|].
  assert (Hblocks :
    field (field (odagPayload (linkConfig_of (form_data f))) "properties") "rowEstRange"
    = JArr [ JObj [ ("context", JStr "User_*"); ("lowBound", JNum 1);
                    ("highBound", if positive (parseInt (form_maxRowCount f))
                                  then json_number (parseInt (form_maxRowCount f))
                                  else JNum 500000) ] ] ∧
    field (field (odagPayload (linkConfig_of (form_data f))) "properties") "appRetentionTime"
    = JArr [ JObj [ ("context", JStr "User_*");
                    ("minutes", if positive (parseInt (form_retentionDays f))
                                then json_number
                                       (number_mul (number_mul (parseInt (form_retentionDays f))
                                                               (Num 24)) (Num 60))
                                else JNum 10080) ] ] ∧
    field (field (odagPayload (linkConfig_of (form_data f))) "properties") "genAppName"
    = JArr [ JObj [ ("context", JStr "User_*");
                    ("formatString",
                     JStr (if String.eqb (trim (form_genAppName f)) ""
                           then form_linkName f ++ " - $(user.name) - $(=Now())"
                           else form_genAppName f)) ] ]).
  { unfold form_data. rewrite Hblank.
    destruct (positive (parseInt (form_maxRowCount f)));
      destruct (positive (parseInt (form_retentionDays f)));
      destruct (String.eqb (trim (form_genAppName f)) ""); repeat split; reflexivity. }
  destruct Hblocks as (Hb1 & Hb2 & Hb3).
  split; [exact Hb1|]. split; [exact Hb2|]. split; [exact Hb3|].
  clear Hb1 Hb2 Hb3 Hblank.
  change (2 ^ 53) with 9007199254740992.
  split; [|split; [|split]].
  - destruct (positive (parseInt (form_maxRowCount f))) eqn:Hp; [|right; exists 500000; done].
    destruct (positive_parseInt _ Hp) as [[-> | (n & -> & Hn)] _]; [by left|].
    right. by exists n.
  - destruct (positive (parseInt (form_retentionDays f))) eqn:Hp; [|right; exists 10080; done].
    destruct (positive_parseInt _ Hp) as [Hd _].
    destruct (number_mul_positive _ 24 ltac:(lia) Hd) as [H24 _].
    destruct (number_mul_positive _ 60 ltac:(lia) H24) as [[-> | (m & -> & Hm)] _]; [by left|].
    right. by exists m.
  - intros Hlen.
    destruct (positive (parseInt (form_maxRowCount f))) eqn:Hp;
      [|exists 500000; split; [done|]; split; [lia|]; by right].
    destruct (positive_parseInt _ Hp) as [_ Hshort].
    destruct (Hshort Hlen) as (n & -> & Hm & Hn).
    assert (H16 : 16 ^ Z.of_nat (String.length (form_maxRowCount f)) ≤ 16 ^ 13)
      by (apply Z.pow_le_mono_r; lia).
    change (16 ^ 13) with 4503599627370496 in H16.
    exists n. split; [done|]. split; [lia|]. by left.
  - intros Hlen.
    destruct (positive (parseInt (form_retentionDays f))) eqn:Hp;
      [|exists 10080; split; [done|]; split; [lia|]; by right].
    destruct (positive_parseInt _ Hp) as [Hd Hshort].
    destruct (Hshort ltac:(lia)) as (d & Hpd & Hm & Hn).
    assert (H16 : 16 ^ Z.of_nat (String.length (form_retentionDays f)) ≤ 16 ^ 10)
      by (apply Z.pow_le_mono_r; lia).
    change (16 ^ 10) with 1099511627776 in H16.
    destruct (number_mul_positive _ 24 ltac:(lia) Hd) as [H24 E24].
    rewrite (E24 d Hpd) in * by (change (2 ^ 53) with 9007199254740992; lia).
    destruct (number_mul_positive _ 60 ltac:(lia) H24) as [_ E60].
    rewrite (E60 _ eq_refl) by (change (2 ^ 53) with 9007199254740992; lia).
    exists (d * 24 * 60). split; [done|]. split; [lia|]. left. eauto.
Qed.

Definition sample_form : FormFields :=
  mkFormFields "A" "B" "Sales Detail" "Drill to detail" "Sum(X)" "1000" "0" "   ".

(** A body parser that lets every body through, and one that lets none;
    the page of HTML and the message of the browser are samples. *)
Definition sample_carrier (refuse : bool) : Carrier :=
  mkCarrier (λ _, refuse) "<!DOCTYPE html><html><body><pre>Payload Too Large</pre></body></html>"
    (λ _, "Unexpected token '<', is not valid JSON").

Lemma form_submits_valid_policies_witness :
  let w := scripted [ about_ok; app_found "A" "Sales"; app_found "B" "Detail";
                      ok200 (JObj [ ("id", JStr "link-1") ]) ] [ EvError "socket hang up" ] in
  let c := link_call sample_instance (linkConfig_of (form_data sample_form)) in
  let properties := field (body c) "properties" in
  In (LHttp SiteCreateLink c (ok200 (JObj [ ("id", JStr "link-1") ])))
     (served (sample_carrier false) w (form_data sample_form) [] sample_instance).2 ∧
  field properties "rowEstRange"
  = JArr [ JObj [ ("context", JStr "User_*"); ("lowBound", JNum 1);
                  ("highBound", JNum 1000) ] ] ∧
  field properties "appRetentionTime"
  = JArr [ JObj [ ("context", JStr "User_*"); ("minutes", JNum 10080) ] ] ∧
  field properties "genAppName"
  = JArr [ JObj [ ("context", JStr "User_*");
                  ("formatString", JStr "Sales Detail - $(user.name) - $(=Now())") ] ].
Proof.
  intros w c properties.
  assert (Hin : In (LHttp SiteCreateLink c (ok200 (JObj [ ("id", JStr "link-1") ])))
                  (served (sample_carrier false) w (form_data sample_form) []
                     sample_instance).2).
  { vm_compute. right. right. right. left. reflexivity. }
  destruct (form_submits_valid_policies (sample_carrier false) w sample_form []
              sample_instance c _ Hin)
    as (_ & _ & _ & _ & Hrange & Hret & Hname & _).
  split; [exact Hin|]. split; [exact Hrange|]. split; [exact Hret | exact Hname].
Defined.

(** ** What the page shows *)

Lemma app_nonempty (a b : string) : a ≠ "" → a ++ b ≠ "".
Proof.
  destruct a as [|x a]; [done|]. intros _ H.
  change (String x (a ++ b) = "") in H. discriminate H.
Qed.

Lemma link_result_message_nonempty o e : link_result o = Throw e → message e ≠ "".
Proof.
  unfold link_result. destruct o as [resp|err].
  - repeat case_match; try done. intros [= <-]. by apply app_nonempty.
  - destruct (response err) as [[st dt]|].
    + intros [= <-]. simpl.
      destruct (link_error_message_kind st dt (message err)) as [detail ->].
      apply app_nonempty. unfold spec_error_of_status.
      repeat case_match; try done; by apply app_nonempty.
    + intros [= <-]. by apply app_nonempty.
Qed.

(** The error of a failure is never the empty string. *)
Lemma failure_message_nonempty w options h this r L :
  completes w options h this r L → ∀ msg, r = Ok (failure msg) → msg ≠ "".
Proof.
  intros Hdone msg.
  destruct Hdone as
    [ A m0 HA Hearly
    | A V1 e HA Hf HV1
    | A V1 v1 V2 e HA Hf HV1 HV2
    | A V1 v1 V2 v2 HA Hf HV1 HV2 Hv1
    | A V1 v1 V2 v2 HA Hf HV1 HV2 Hv1 Hv2
    | A V1 v1 V2 v2 C e HA Hf HV1 HV2 Hv1 Hv2 HC
    | A V1 v1 V2 v2 C odagLink HA Hf HV1 HV2 Hv1 Hv2 HC script ].
  - intros [= <-].
    destruct Hearly as [(_ & m & -> & _) | [(_ & ->) | [(_ & _ & ->)
      | [(_ & _ & ->) | (_ & _ & _ & ->)]]]]; try done; by apply app_nonempty.
  - intros [= <-]. destruct (validate_shape_throw _ _ _ _ _ _ HV1) as [(m & ->) _].
    by apply app_nonempty.
  - intros [= <-]. destruct (validate_shape_throw _ _ _ _ _ _ HV2) as [(m & ->) _].
    by apply app_nonempty.
  - intros [= <-]. by apply app_nonempty.
  - intros [= <-]. by apply app_nonempty.
  - intros [= <-]. destruct HC as (A3 & _ & [[_ (m & [= ->] & _)] | [_ Hr]]).
    + by apply app_nonempty.
    + symmetry in Hr. by apply link_result_message_nonempty in Hr.
  - destruct (promise _); done.
Qed.

(** The text of the success box, from the members of the result. *)
Definition success_html (result : JsVal) (note : string) : string :=
  "<h3>Success!</h3><p><strong>ODAG Link ID:</strong> "
  ++ js_to_string (field result "odagLinkId")
  ++ "</p><p><strong>Selection App:</strong> "
  ++ js_to_string (field result "selectionAppName")
  ++ "</p><p><strong>Template App:</strong> "
  ++ js_to_string (field result "templateAppName")
  ++ "</p><p><strong>Status:</strong> "
  ++ js_to_string (field result "message") ++ "</p>" ++ note.

Lemma page_failure msg :
  msg ≠ "" → page_answered (failure msg) = page_error msg.
Proof.
  intros Hm. unfold page_answered, js_or. simpl.
  by destruct (String.eqb_spec msg "").
Qed.

(** X20: what the page shows for a request, whatever its body.  The fetch
    is never rejected by the server.  A body that the body parser refuses
    as too large never reaches the route: nothing is exchanged with Qlik,
    and the error box shows the message of the browser for an answer that
    is not JSON.  For a body that reaches the route: while the route does
    not answer, the page keeps saying that the link is being created, with
    the button disabled; there is no deadline.  A failure is shown in the
    error box with the error of the service, which is never empty, so the
    text "Unknown error occurred" is not shown for this route.  A success
    is shown in the success box; a partial success too, with the note that
    manual setup may be required and without the error of the navigation
    leg. *)
Theorem page_shows_the_outcome (k : Carrier) (w : World) (data : JsVal)
    (h : list LogEntry) (this this' : ODAGLinkCreator) (r : Result Fetched)
    (L : list LogEntry) :
  served k w data h this = (r, this', L) →
  let page := page_after k r in
  match r with
  | Throw _ => False
  | Hang =>
      too_large k data = false ∧
      page = mkPage true "Creating ODAG Link..." "result loading"
               "Creating ODAG link, please wait..."
  | Ok (OtherBody status text) =>
      too_large k data = true ∧ L = [] ∧ status = 413 ∧
      page = mkPage false "Create ODAG Link" "result error"
               ("<h3>Error</h3><p>" ++ syntax_error k (error_page k) ++ "</p>")
  | Ok (JsonBody status result) =>
      too_large k data = false ∧ status = 200 ∧
      ((∃ msg, result = failure msg ∧ msg ≠ "" ∧
               page = mkPage false "Create ODAG Link" "result error"
                        ("<h3>Error</h3><p>" ++ msg ++ "</p>")) ∨
       (field result "success" = JBool true ∧
        field result "partial" = JUndefined ∧
        page = mkPage false "Create ODAG Link" "result success"
                 (success_html result "")) ∨
       (field result "success" = JBool true ∧
        field result "partial" = JBool true ∧
        page = mkPage false "Create ODAG Link" "result success"
                 (success_html result
                    "<p><strong>Note:</strong> Manual navigation link setup may be required.</p>")))
  end.
Proof.
  intros Hrun page. subst page. unfold served in Hrun.
  destruct (too_large k data) eqn:Hk.
  { injection Hrun as <- <- <-. done. }
  destruct (createCompleteODAGLink_completes w data h this)
    as (r0 & this0 & L0 & E & _ & Hdone).
  unfold run in E.
  unfold post_api_odag_create, try_catch, mbind, M_bind in Hrun. rewrite E in Hrun.
  pose proof (failure_message_nonempty _ _ _ _ _ _ Hdone) as Hmsg.
  destruct (completes_run_shape _ _ _ _ _ _ Hdone) as (R & tail & -> & HR & Hcase).
  destruct Hcase as [[-> (msg & ->)] | [(o & -> & Hno & msg & ->)
    | (o & l & s & v1 & v2 & -> & Hl & ->)]].
  - simpl in Hrun. simplify_eq. simpl. split; [done|]. split; [done|]. left. exists msg.
    split; [done|]. split; [by apply Hmsg|]. by apply page_failure, Hmsg.
  - simpl in Hrun. simplify_eq. simpl. split; [done|]. split; [done|]. left. exists msg.
    split; [done|]. split; [by apply Hmsg|]. by apply page_failure, Hmsg.
  - destruct (promise _); simpl in Hrun; simplify_eq; simpl.
    + done.
    + split; [done|]. split; [done|]. right. left. done.
    + split; [done|]. split; [done|]. right. right. done.
Qed.

Lemma page_shows_the_outcome_witness :
  let w := scripted [ about_ok; app_found "A" "Sales"; rejected 404 JNull ] [] in
  page_after (sample_carrier false)
    (served (sample_carrier false) w (form_data sample_form) [] sample_instance).1.1
  = mkPage false "Create ODAG Link" "result error"
      "<h3>Error</h3><p>Template app validation failed: App ID not found: B</p>" ∧
  page_after (sample_carrier true)
    (served (sample_carrier true) w (form_data sample_form) [] sample_instance).1.1
  = mkPage false "Create ODAG Link" "result error"
      "<h3>Error</h3><p>Unexpected token '<', is not valid JSON</p>".
Proof.
  intros w. split; [|vm_compute; reflexivity].
  set (run := served (sample_carrier false) w (form_data sample_form) [] sample_instance).
  assert (E : run = (run.1.1, run.1.2, run.2)) by (vm_compute; reflexivity).
  pose proof (page_shows_the_outcome _ _ _ _ _ _ _ _ E) as H. cbv zeta in H.
  destruct (run.1.1) as [[status result|status text]| |] eqn:Hr;
    [|vm_compute in Hr; discriminate Hr|done|vm_compute in Hr; discriminate Hr].
  destruct H as (_ & _ & [(msg & Hj & _ & ->) | [(Hs & _) | (Hs & _)]]).
  - vm_compute in Hr. injection Hr as <- <-. injection Hj as <-. reflexivity.
  - vm_compute in Hr. injection Hr as <- <-. discriminate Hs.
  - vm_compute in Hr. injection Hr as <- <-. discriminate Hs.
Defined.
